(** * currency-bot: the leveling formulas and the coin ledger

    A shallow embedding of [config.py], [models.py], [leveling.py],
    [db_manager.py], [database.py] and the handlers of [commands.py] that
    touch the ledger, followed by the properties of the specification that
    were checked against it.

    Conventions.
    - Python [int] is [Z] (unbounded).  Python [float] is IEEE-754 binary64,
      given by the Standard Library's [SpecFloat] at precision 53.
    - A call that may raise returns a [result]; a method of a store threads
      the store explicitly and returns it next to its result.
    - [datetime] values are integers counting microseconds, and every read of
      the clock is an argument of the function that performs it. *)

From Stdlib Require Import ZArith Lia Bool List.
From Stdlib Require Import Floats.SpecFloat.
From stdpp Require Import gmap strings pretty list fin_maps sorting.

Local Open Scope Z_scope.

(** ** Exceptions and results *)

Inductive exn :=
  | IntegrityError          (* sqlalchemy.exc.IntegrityError, a SQLAlchemyError *)
  | DetachedInstanceError   (* sqlalchemy.orm.exc.DetachedInstanceError, a SQLAlchemyError *)
  | OperationalError        (* sqlalchemy.exc.OperationalError, a SQLAlchemyError *)
  | AttributeError
  | ZeroDivisionError
  | OverflowError
  | ValueError.

Inductive result (A : Type) :=
  | Ok (a : A)
  | Raise (e : exn).
Arguments Ok {A} a.
Arguments Raise {A} e.

#[global] Instance result_bind : MBind result := fun A B k r =>
  match r with
  | Ok a => k a
  | Raise e => Raise e
  end.

(** ** config.py *)

Module Config.
Definition BASE_XP_PER_MESSAGE : Z := 15.
Definition MAX_LENGTH_BONUS : Z := 10.
Definition RANDOM_XP_BONUS : Z := 5.
Definition XP_COOLDOWN : Z := 60.
Definition XP_PER_LEVEL_BASE : Z := 100.
Definition BASE_COINS_PER_LEVEL : Z := 50.
Definition MAX_LEADERBOARD_ENTRIES : Z := 10.
Definition MIN_TRANSACTION : Z := 1.
Definition DEFAULT_ROLE_REWARD : Z := 25.
Definition ROLE_REWARDS : gmap string Z :=
  list_to_map [("VIP", 100); ("Supporter", 75); ("Active Member", 50);
               ("Member", 25); ("Verified", 10)].
End Config.

(** ** Python floats

    [a / b] on two ints is the correctly rounded quotient (it raises
    [OverflowError] when that quotient is beyond the largest double),
    [math.sqrt] is the correctly rounded square root and [int] truncates
    toward zero. *)

Module PyFloat.
Definition prec : Z := 53.
Definition emax : Z := 1024.

Definition true_div (a b : Z) : result spec_float :=
  if b =? 0 then Raise ZeroDivisionError
  else if a =? 0 then Ok (S754_zero (b <? 0))
  else
    let s := xorb (a <? 0) (b <? 0) in
    let '(q, e, l) := SFdiv_core_binary prec emax (Z.abs a) 0 (Z.abs b) 0 in
    match binary_round_aux prec emax s q e l with
    | S754_infinity _ => Raise OverflowError
    | f => Ok f
    end.

Definition sqrt (x : spec_float) : result spec_float :=
  match x with
  | S754_finite true _ _ => Raise ValueError
  | S754_infinity true => Raise ValueError
  | _ => Ok (SFsqrt prec emax x)
  end.

Definition int (x : spec_float) : result Z :=
  match x with
  | S754_zero _ => Ok 0
  | S754_finite s m e =>
      let a :=
        match e with
        | Zneg p => Z.shiftr (Zpos m) (Zpos p)
        | _ => Z.shiftl (Zpos m) e
        end in
      Ok (if s then - a else a)
  | S754_infinity _ => Raise OverflowError
  | S754_nan => Raise ValueError
  end.

(** [float(k)] for an int [k] (also the conversion of an int operand of a
    float operation): the nearest double, or [OverflowError]. *)
Definition of_int (k : Z) : result spec_float :=
  match binary_normalize prec emax k 0 false with
  | S754_infinity _ => Raise OverflowError
  | f => Ok f
  end.

(** [x * y] on two floats. *)
Definition mul (x y : spec_float) : spec_float := SFmul prec emax x y.

(** [timedelta.total_seconds()] of a [timedelta] of [microseconds]: the
    correctly rounded quotient of the microseconds by [10**6].  A
    [timedelta] holds less than 10^9 days, so the quotient is finite for
    every difference of two datetimes; for an integer beyond that range this
    is the quotient of IEEE 754, an infinity when it overflows. *)
Definition total_seconds (microseconds : Z) : spec_float :=
  if microseconds =? 0 then S754_zero false
  else
    let '(q, e, l) := SFdiv_core_binary prec emax (Z.abs microseconds) 0 1000000 0 in
    binary_round_aux prec emax (microseconds <? 0) q e l.

(** [x >= k] for a float [x] and an int [k]: Python compares the exact
    values, without converting the int. *)
Definition ge_int (x : spec_float) (k : Z) : bool :=
  match x with
  | S754_zero _ => k <=? 0
  | S754_finite s m e =>
      let v := if s then Zneg m else Zpos m in
      if 0 <=? e then k <=? v * 2 ^ e else k * 2 ^ (- e) <=? v
  | S754_infinity s => negb s
  | S754_nan => false
  end.
End PyFloat.

(** ** models.py

    The columns [id], [created_at] and [updated_at] carry no economic state
    and are left out.  [to_user_id] is declared [nullable=False]; every other
    column of [transactions] that is declared so is always given a value by
    the code, so [to_user_id] is the one constraint a new row can violate. *)

Module Models.
Record User := mkUser {
  user_id : Z;
  coins : Z;
  xp : Z;
  level : Z;
  total_messages : Z;
  last_xp_gain : option Z
}.

Record Transaction := mkTransaction {
  from_user_id : option Z;      (* nullable=True: None for system transactions *)
  to_user_id : option Z;        (* nullable=False *)
  amount : Z;
  transaction_type : string;
  description : option string
}.

(** The NOT NULL constraints of table [transactions], checked by the
    database when a row is inserted. *)
Definition not_null (t : Transaction) : bool :=
  match to_user_id t with
  | Some _ => true
  | None => false
  end.

Definition with_coins (u : User) (c : Z) : User :=
  mkUser (user_id u) c (xp u) (level u) (total_messages u) (last_xp_gain u).
Definition with_level (u : User) (l : Z) : User :=
  mkUser (user_id u) (coins u) (xp u) l (total_messages u) (last_xp_gain u).
Definition with_xp_gain (u : User) (x : Z) (now : Z) : User :=
  mkUser (user_id u) (coins u) x (level u) (total_messages u + 1) (Some now).
End Models.

Import Models.

(** The dict built by [get_user_data], and the entries of a leaderboard. *)
Record UserData := mkUserData {
  d_coins : Z;
  d_xp : Z;
  d_level : Z;
  d_total_messages : Z;
  d_last_xp_gain : option Z
}.

Record Entry := mkEntry {
  e_user_id : Z;
  e_coins : Z;
  e_level : Z;
  e_xp : Z;
  e_total_messages : Z
}.

(** ** db_manager.py

    The state of a [DatabaseManager] is the content of the two tables and the
    session factory stored in [self.Session]: [__init__] installs a
    [scoped_session], which hands the same thread-local session to every
    method, and the retry path of [get_leaderboard] replaces it by a plain
    [sessionmaker], which opens a new session per call.  The bot runs its
    handlers on one thread.

    Storage faults (a lost connection) are modelled where the specification
    speaks of them, in [get_leaderboard]; elsewhere the database answers. *)

Module DatabaseManager.
Record t := mk {
  users : gmap Z User;
  transactions : list Transaction;
  scoped : bool
}.

(** The database after [__init__] on an empty database. *)
Definition init : t := mk ∅ [] true.

Definition with_users (db : t) (us : gmap Z User) : t :=
  mk us (transactions db) (scoped db).

(** [session.commit()] of a unit of work that updated rows of [users] and
    added the rows [new] to [transactions]: the insert of a row that
    violates a NOT NULL constraint raises [IntegrityError] and nothing of
    the unit is stored. *)
Definition commit (db : t) (us : gmap Z User) (new : list Transaction) : result t :=
  if forallb not_null new
  then Ok (mk us (transactions db ++ new) (scoped db))
  else Raise IntegrityError.

Definition new_user (user_id : Z) : User := mkUser user_id 0 0 1 0 None.

Definition to_dict (user : User) : UserData :=
  mkUserData (coins user) (xp user) (level user) (total_messages user)
             (last_xp_gain user).

Definition get_user_data (db : t) (user_id : Z) : t * UserData :=
  match users db !! user_id with
  | Some user => (db, to_dict user)
  | None =>
      let user := new_user user_id in
      (with_users db (<[user_id := user]> (users db)), to_dict user)
  end.

Definition get_coins (db : t) (user_id : Z) : t * Z :=
  match users db !! user_id with
  | None => (fst (get_user_data db user_id), 0)
  | Some user => (db, coins user)
  end.

(** The shared opening of the writers: query the row and create it through
    [get_user_data] when it is missing. *)
Definition ensure_user (db : t) (user_id : Z) : t :=
  match users db !! user_id with
  | Some _ => db
  | None => fst (get_user_data db user_id)
  end.

Definition add_coins (db : t) (user_id amount : Z) (transaction_type : string)
    (description : option string) : t * result Z :=
  let db1 := ensure_user db user_id in
  match users db1 !! user_id with
  | None => (db1, Raise AttributeError)
  | Some user =>
      let user' := with_coins user (coins user + amount) in
      let transaction :=
        mkTransaction None (Some user_id) amount transaction_type description in
      match commit db1 (<[user_id := user']> (users db1)) [transaction] with
      | Ok db2 => (db2, Ok (coins user'))
      | Raise e => (db1, Raise e)
      end
  end.

Definition remove_coins (db : t) (user_id amount : Z) (transaction_type : string)
    (description : option string) : t * bool :=
  match users db !! user_id with
  | None => (db, false)
  | Some user =>
      if coins user <? amount then (db, false)
      else
        let user' := with_coins user (coins user - amount) in
        let transaction :=
          mkTransaction (Some user_id) None (- amount) transaction_type description in
        match commit db (<[user_id := user']> (users db)) [transaction] with
        | Ok db1 => (db1, true)
        | Raise _ => (db, false)     (* except SQLAlchemyError: rollback, return False *)
        end
  end.

Definition set_coins (db : t) (user_id amount : Z) : t * result unit :=
  let db1 := ensure_user db user_id in
  match users db1 !! user_id with
  | None => (db1, Raise AttributeError)
  | Some user =>
      let old_amount := coins user in
      let user' := with_coins user amount in
      let diff := amount - old_amount in
      let transaction :=
        mkTransaction (if 0 <? diff then None else Some user_id)
                      (if 0 <? diff then Some user_id else None)
                      diff "admin_set"
                      (Some ("Balance set from " +:+ pretty old_amount +:+
                             " to " +:+ pretty amount)) in
      match commit db1 (<[user_id := user']> (users db1)) [transaction] with
      | Ok db2 => (db2, Ok tt)
      | Raise e => (db1, Raise e)    (* except SQLAlchemyError: rollback, raise *)
      end
  end.

Definition get_xp (db : t) (user_id : Z) : t * Z :=
  match users db !! user_id with
  | None => (fst (get_user_data db user_id), 0)
  | Some user => (db, xp user)
  end.

(** [now] is the value of [datetime.now()] stored in [last_xp_gain]. *)
Definition add_xp (db : t) (user_id amount now : Z) : t * result Z :=
  let db1 := ensure_user db user_id in
  match users db1 !! user_id with
  | None => (db1, Raise AttributeError)
  | Some user =>
      let user' := with_xp_gain user (xp user + amount) now in
      match commit db1 (<[user_id := user']> (users db1)) [] with
      | Ok db2 => (db2, Ok (xp user'))
      | Raise e => (db1, Raise e)
      end
  end.

Definition get_level (db : t) (user_id : Z) : t * Z :=
  match users db !! user_id with
  | None => (fst (get_user_data db user_id), 1)
  | Some user => (db, level user)
  end.

Definition set_level (db : t) (user_id level : Z) : t * result unit :=
  let db1 := ensure_user db user_id in
  match users db1 !! user_id with
  | None => (db1, Raise AttributeError)
  | Some user =>
      let user' := with_level user level in
      match commit db1 (<[user_id := user']> (users db1)) [] with
      | Ok db2 => (db2, Ok tt)
      | Raise e => (db1, Raise e)
      end
  end.

(** [now] is the value of [datetime.now()] read by the check.  A
    [timedelta] counts whole microseconds; [total_seconds()] is a float,
    which is compared with the int [cooldown_seconds]. *)
Definition can_gain_xp (db : t) (user_id cooldown_seconds now : Z) : t * bool :=
  match users db !! user_id with
  | None => (db, true)
  | Some user =>
      match last_xp_gain user with
      | None => (db, true)
      | Some last =>
          let time_diff := now - last in
          (db, PyFloat.ge_int (PyFloat.total_seconds time_diff) cooldown_seconds)
      end
  end.

Definition to_entry (user : User) : Entry :=
  mkEntry (user_id user) (coins user) (level user) (xp user) (total_messages user).

(** [ORDER BY level DESC, xp DESC] and [ORDER BY coins DESC]. *)
Definition before (sort_by : string) (u v : User) : Prop :=
  if decide (sort_by = "level")
  then level v < level u ∨ (level v = level u ∧ xp v ≤ xp u)
  else coins v ≤ coins u.

#[global] Instance before_dec sort_by u v : Decision (before sort_by u v).
Proof. unfold before. destruct (decide (sort_by = "level")); apply _. Defined.

(** The query of [get_leaderboard].  SQL leaves the order of ties open;
    here they keep the order of the table scan. *)
Definition query_leaderboard (db : t) (limit : Z) (sort_by : string) : list Entry :=
  to_entry <$>
    take (Z.to_nat limit) (merge_sort (before sort_by) (snd <$> map_to_list (users db))).

(** The loop [for attempt in range(3)].  [faults attempt] tells whether the
    query of that attempt raises a [SQLAlchemyError].  The result is the
    store, the returned value ([None] when the loop ends without a
    [return]) and the number of queries that were sent. *)
Fixpoint get_leaderboard_loop (attempts : list Z) (db : t) (limit : Z)
    (sort_by : string) (faults : Z -> bool) (sent : nat)
    : t * option (list Entry) * nat :=
  match attempts with
  | [] => (db, None, sent)
  | attempt :: rest =>
      if faults attempt then
        if attempt =? 2 then (db, Some [], S sent)
        else
          (* the engine is disposed and self.Session becomes a plain sessionmaker *)
          get_leaderboard_loop rest (mk (users db) (transactions db) false)
                               limit sort_by faults (S sent)
      else (db, Some (query_leaderboard db limit sort_by), S sent)
  end.

Definition get_leaderboard (db : t) (limit : Z) (sort_by : string)
    (faults : Z -> bool) : t * option (list Entry) * nat :=
  get_leaderboard_loop (seqZ 0 3) db limit sort_by faults 0%nat.

Definition get_user_count (db : t) : Z := Z.of_nat (size (users db)).

(** The second half of [transfer_coins], once both rows are loaded in the
    session.  The session holds one object per row: when both ids are the
    same, [to_user] is the object that was just debited. *)
Definition transfer_update (db : t) (from_user_id to_user_id amount : Z)
    (description : option string) : t * bool :=
  match users db !! from_user_id with
  | None => (db, false)
  | Some from_user =>
      let us1 :=
        <[from_user_id := with_coins from_user (coins from_user - amount)]> (users db) in
      match us1 !! to_user_id with
      | None => (db, false)
      | Some to_user =>
          let us2 :=
            <[to_user_id := with_coins to_user (coins to_user + amount)]> us1 in
          let transaction :=
            mkTransaction (Some from_user_id) (Some to_user_id) amount
                          "user_pay" description in
          match commit db us2 [transaction] with
          | Ok db1 => (db1, true)
          | Raise _ => (db, false)
          end
      end
  end.

Definition transfer_coins (db : t) (from_user_id to_user_id amount : Z)
    (description : option string) : t * bool :=
  match users db !! from_user_id with
  | None => (db, false)
  | Some from_user =>
      if coins from_user <? amount then (db, false)
      else
        match users db !! to_user_id with
        | Some _ => transfer_update db from_user_id to_user_id amount description
        | None =>
            let db1 := fst (get_user_data db to_user_id) in
            if scoped db then
              (* get_user_data ran on the same session: its commit expired
                 from_user and its close detached it, so from_user.coins
                 raises DetachedInstanceError, a SQLAlchemyError:
                 rollback, return False.  The new row stays. *)
              (db1, false)
            else transfer_update db1 from_user_id to_user_id amount description
        end
  end.
End DatabaseManager.

(** ** database.py

    The JSON store that [commands.py] was first written against.  [data] is
    [self.data["users"]] (its keys [str(user_id)] are kept as the ids they
    print) and [file] is the content of [bot_data.json].  [get_user_data]
    returns the stored dict itself, so a caller that assigns to it changes
    the store: the reference is modelled by the key of the dict. *)

Module Database.
Record t := mk {
  data : gmap Z UserData;
  file : gmap Z UserData
}.

Definition init : t := mk ∅ ∅.

Definition save_data (db : t) : t := mk (data db) (data db).

Definition get_user_data (db : t) (user_id : Z) : t * Z :=
  match data db !! user_id with
  | Some _ => (db, user_id)
  | None =>
      (save_data (mk (<[user_id := mkUserData 0 0 1 0 None]> (data db)) (file db)),
       user_id)
  end.

(** [user_data[key] = value] for the keys that are assigned. *)
Definition setitem_level (db : t) (ref level : Z) : t :=
  mk (alter (fun d => mkUserData (d_coins d) (d_xp d) level (d_total_messages d)
                                 (d_last_xp_gain d)) ref (data db))
     (file db).

Definition setitem_xp (db : t) (ref xp : Z) : t :=
  mk (alter (fun d => mkUserData (d_coins d) xp (d_level d) (d_total_messages d)
                                 (d_last_xp_gain d)) ref (data db))
     (file db).

Definition getitem_level (db : t) (ref : Z) : Z :=
  match data db !! ref with
  | Some d => d_level d
  | None => 1
  end.

Definition get_level (db : t) (user_id : Z) : t * Z :=
  let '(db1, user_data) := get_user_data db user_id in
  (db1, getitem_level db1 user_data).

Definition set_level (db : t) (user_id level : Z) : t :=
  let '(db1, user_data) := get_user_data db user_id in
  save_data (setitem_level db1 user_data level).

Definition getitem (db : t) (ref : Z) : UserData :=
  default (mkUserData 0 0 1 0 None) (data db !! ref).

Definition setitem_coins (db : t) (ref coins : Z) : t :=
  mk (alter (fun d => mkUserData coins (d_xp d) (d_level d) (d_total_messages d)
                                 (d_last_xp_gain d)) ref (data db))
     (file db).

Definition get_coins (db : t) (user_id : Z) : t * Z :=
  let '(db1, user_data) := get_user_data db user_id in
  (db1, d_coins (getitem db1 user_data)).

Definition add_coins (db : t) (user_id amount : Z) : t * Z :=
  let '(db1, user_data) := get_user_data db user_id in
  let db2 := setitem_coins db1 user_data (d_coins (getitem db1 user_data) + amount) in
  let db3 := save_data db2 in
  (db3, d_coins (getitem db3 user_data)).

Definition remove_coins (db : t) (user_id amount : Z) : t * bool :=
  let '(db1, user_data) := get_user_data db user_id in
  if amount <=? d_coins (getitem db1 user_data) then
    let db2 := setitem_coins db1 user_data (d_coins (getitem db1 user_data) - amount) in
    (save_data db2, true)
  else (db1, false).

Definition set_coins (db : t) (user_id amount : Z) : t :=
  let '(db1, user_data) := get_user_data db user_id in
  save_data (setitem_coins db1 user_data amount).

Definition get_user_count (db : t) : Z := Z.of_nat (size (data db)).
End Database.

(** ** leveling.py

    Sending the level-up message changes no stored state and its failures
    are swallowed; it is left out of [handle_level_up]. *)

Module LevelingSystem.
Import DatabaseManager.

(** [calculate_level_from_xp] *)
Definition calculate_level_from_xp (xp : Z) : result Z :=
  if xp <? 0 then Ok 1
  else
    q ← PyFloat.true_div xp Config.XP_PER_LEVEL_BASE;
    r ← PyFloat.sqrt q;
    i ← PyFloat.int r;
    Ok (Z.max 1 (i + 1)).

(** [calculate_xp_for_level] *)
Definition calculate_xp_for_level (level : Z) : Z :=
  if level <=? 1 then 0
  else ((level - 1) ^ 2) * Config.XP_PER_LEVEL_BASE.

(** [calculate_level_reward] *)
Definition calculate_level_reward (level : Z) : Z :=
  let base_reward := Config.BASE_COINS_PER_LEVEL in
  if level mod 10 =? 0 then base_reward * 3
  else if level mod 5 =? 0 then base_reward * 2
  else base_reward.

(** [calculate_xp_gain]; [message_length] is
    [len(message.content)] and [random_bonus] the value drawn by
    [random.randint(0, Config.RANDOM_XP_BONUS)]. *)
Definition calculate_xp_gain (message_length random_bonus : Z) : Z :=
  let base_xp := Config.BASE_XP_PER_MESSAGE in
  let length_bonus := Z.min (message_length / 10) Config.MAX_LENGTH_BONUS in
  let total_xp := base_xp + length_bonus + random_bonus in
  Z.max 1 total_xp.

(** [handle_level_up]; the result is [coin_reward]. *)
Definition handle_level_up (db : t) (user_id old_level new_level : Z)
    : t * result Z :=
  let coin_reward :=
    fold_left (fun coin_reward level => coin_reward + calculate_level_reward level)
              (seqZ (old_level + 1) (new_level + 1 - (old_level + 1))) 0 in
  if 0 <? coin_reward then
    match add_coins db user_id coin_reward "level_up"
            (Some ("Level up reward for reaching level " +:+ pretty new_level)) with
    | (db1, Ok _) => (db1, Ok coin_reward)
    | (db1, Raise e) => (db1, Raise e)
    end
  else (db, Ok coin_reward).

(** What [process_message] needs of a message and of the outside world:
    the author, [len(message.content)], the value drawn by
    [random.randint], and the two readings of the clock, by [can_gain_xp]
    and by [add_xp]. *)
Record Message := mkMessage {
  author_id : Z;
  content_length : Z;
  random_bonus : Z;
  now_check : Z;
  now_gain : Z
}.

(** Where [process_message] returned. *)
Inductive Processed :=
  | Cooldown
  | NoGain
  | Gained (new_xp new_level : Z)
  | LeveledUp (new_xp new_level coin_reward : Z).

Definition process_message (db : t) (message : Message) : t * result Processed :=
  let user_id := author_id message in
  let '(db0, can) := can_gain_xp db user_id Config.XP_COOLDOWN (now_check message) in
  if negb can then (db0, Ok Cooldown)
  else
    let xp_gain := calculate_xp_gain (content_length message) (random_bonus message) in
    if xp_gain <=? 0 then (db0, Ok NoGain)
    else
      let '(db1, old_xp) := get_xp db0 user_id in
      match calculate_level_from_xp old_xp with
      | Raise e => (db1, Raise e)
      | Ok old_level =>
          match add_xp db1 user_id xp_gain (now_gain message) with
          | (db2, Raise e) => (db2, Raise e)
          | (db2, Ok new_xp) =>
              match calculate_level_from_xp new_xp with
              | Raise e => (db2, Raise e)
              | Ok new_level =>
                  match set_level db2 user_id new_level with
                  | (db3, Raise e) => (db3, Raise e)
                  | (db3, Ok _) =>
                      if old_level <? new_level then
                        match handle_level_up db3 user_id old_level new_level with
                        | (db4, Ok coin_reward) =>
                            (db4, Ok (LeveledUp new_xp new_level coin_reward))
                        | (db4, Raise e) => (db4, Raise e)
                        end
                      else (db3, Ok (Gained new_xp new_level))
                  end
              end
          end
      end.

(** [get_xp_for_next_level] *)
Definition get_xp_for_next_level (current_xp : Z) : result Z :=
  current_level ← calculate_level_from_xp current_xp;
  let next_level_xp := calculate_xp_for_level (current_level + 1) in
  Ok (next_level_xp - current_xp).

(** The dict returned by [get_user_stats]. *)
Record Stats := mkStats {
  s_coins : Z;
  s_xp : Z;
  s_level : Z;
  s_xp_progress : Z;
  s_xp_needed : Z;
  s_xp_for_next_level : Z;
  s_total_messages : Z;
  s_progress_percentage : spec_float
}.

(** [get_user_stats]; the literal [100] of the last entry is converted to a
    float for the product. *)
Definition get_user_stats (db : t) (user_id : Z) : t * result Stats :=
  let '(db1, user_data) := get_user_data db user_id in
  let current_xp := d_xp user_data in
  let current_level := d_level user_data in
  let xp_for_current := calculate_xp_for_level current_level in
  let xp_for_next := calculate_xp_for_level (current_level + 1) in
  let xp_progress := current_xp - xp_for_current in
  let xp_needed := xp_for_next - current_xp in
  (db1,
   q ← PyFloat.true_div xp_progress (xp_for_next - xp_for_current);
   hundred ← PyFloat.of_int 100;
   Ok (mkStats (d_coins user_data) current_xp current_level xp_progress xp_needed
               (xp_for_next - xp_for_current) (d_total_messages user_data)
               (PyFloat.mul q hundred))).
End LevelingSystem.

(** ** commands.py

    A handler takes the store of [bot.db], what it reads of the interaction,
    and returns the store and the reply it sends; the embeds are reduced to
    the case they report.  [is_admin] is the value of
    [Config.has_admin_permissions(interaction.user)]. *)

Module Commands.
Import DatabaseManager.
Import LevelingSystem.

Inductive LeaderboardReply :=
  | NoUsersFound
  | Board (sort_by : string) (leaders : list Entry) (total_users : Z).

Definition leaderboard (db : t) (sort_by : string) (faults : Z -> bool)
    : t * LeaderboardReply :=
  let sort_by :=
    if bool_decide (sort_by ∈ ["coins"; "level"]) then sort_by else "coins" in
  let '(db1, leaders, _) :=
    get_leaderboard db Config.MAX_LEADERBOARD_ENTRIES sort_by faults in
  match leaders with
  | None => (db1, NoUsersFound)
  | Some [] => (db1, NoUsersFound)
  | Some leaders => (db1, Board sort_by leaders (get_user_count db1))
  end.

Inductive PayReply :=
  | CannotPayYourself
  | CannotPayBots
  | BelowMinimum
  | InsufficientFunds (balance : Z)
  | TransactionFailed
  | PaymentSuccessful (new_sender_balance new_receiver_balance : Z).

Definition pay (db : t) (sender_id receiver_id : Z) (receiver_is_bot : bool)
    (amount : Z) : t * PayReply :=
  if sender_id =? receiver_id then (db, CannotPayYourself)
  else if receiver_is_bot then (db, CannotPayBots)
  else if amount <? Config.MIN_TRANSACTION then (db, BelowMinimum)
  else
    let '(db1, sender_balance) := get_coins db sender_id in
    if sender_balance <? amount then (db1, InsufficientFunds sender_balance)
    else
      let '(db2, success) :=
        transfer_coins db1 sender_id receiver_id amount
          (Some ("Payment from user " +:+ pretty sender_id +:+
                 " to user " +:+ pretty receiver_id)) in
      if negb success then (db2, TransactionFailed)
      else
        let '(db3, new_sender_balance) := get_coins db2 sender_id in
        let '(db4, new_receiver_balance) := get_coins db3 receiver_id in
        (db4, PaymentSuccessful new_sender_balance new_receiver_balance).

Inductive AdminReply :=
  | AccessDenied
  | MustBePositive
  | LevelTooLow
  | CoinsRemoved (old_balance new_balance : Z)
  | InsufficientBalance (old_balance : Z)
  | LevelSet (old_level level required_xp : Z).

Definition take_coins (db : t) (is_admin : bool) (admin_name : string)
    (user_id amount : Z) : t * AdminReply :=
  if negb is_admin then (db, AccessDenied)
  else if amount <=? 0 then (db, MustBePositive)
  else
    let '(db1, old_balance) := get_coins db user_id in
    let '(db2, removed) :=
      remove_coins db1 user_id amount "admin_take"
        (Some ("Admin " +:+ admin_name +:+ " removed " +:+ pretty amount +:+ " coins")) in
    if removed then
      let '(db3, new_balance) := get_coins db2 user_id in
      (db3, CoinsRemoved old_balance new_balance)
    else (db2, InsufficientBalance old_balance).

(** [set_level] on the store the bot is built with ([main.py]:
    [self.db = DatabaseManager()]).  The dict that [get_user_data] returns
    is built from the row for this call; the assignment to its ["xp"] key
    changes that dict and nothing else.  [DatabaseManager] has no
    [save_data], so the next line raises [AttributeError] and no reply is
    sent. *)
Definition set_level (db : t) (is_admin : bool) (user_id level : Z)
    : t * result AdminReply :=
  if negb is_admin then (db, Ok AccessDenied)
  else if level <? 1 then (db, Ok LevelTooLow)
  else
    let '(db1, old_level) := get_level db user_id in
    let required_xp := calculate_xp_for_level level in
    match DatabaseManager.set_level db1 user_id level with
    | (db2, Raise e) => (db2, Raise e)
    | (db2, Ok _) =>
        let '(db3, user_data) := get_user_data db2 user_id in
        let user_data' :=
          mkUserData (d_coins user_data) required_xp (d_level user_data)
                     (d_total_messages user_data) (d_last_xp_gain user_data) in
        (db3, Raise AttributeError)
    end.

(** The same handler run on the JSON store of [database.py], whose
    [get_user_data] returns the stored dict and which has [save_data]. *)
Definition set_level_Database (db : Database.t) (is_admin : bool)
    (user_id level : Z) : Database.t * result AdminReply :=
  if negb is_admin then (db, Ok AccessDenied)
  else if level <? 1 then (db, Ok LevelTooLow)
  else
    let '(db1, old_level) := Database.get_level db user_id in
    let required_xp := calculate_xp_for_level level in
    let db2 := Database.set_level db1 user_id level in
    let '(db3, user_data) := Database.get_user_data db2 user_id in
    let db4 := Database.setitem_xp db3 user_data required_xp in
    let db5 := Database.save_data db4 in
    (db5, Ok (LevelSet old_level level required_xp)).

Inductive GiveReply :=
  | GiveAccessDenied
  | GiveMustBePositive
  | CoinsAdded (old_balance new_balance : Z).

Definition give_coins (db : t) (is_admin : bool) (admin_name : string)
    (user_id amount : Z) : t * result GiveReply :=
  if negb is_admin then (db, Ok GiveAccessDenied)
  else if amount <=? 0 then (db, Ok GiveMustBePositive)
  else
    let '(db1, old_balance) := get_coins db user_id in
    match add_coins db1 user_id amount "admin_give"
            (Some ("Admin " +:+ admin_name +:+ " gave " +:+ pretty amount +:+ " coins")) with
    | (db2, Ok new_balance) => (db2, Ok (CoinsAdded old_balance new_balance))
    | (db2, Raise e) => (db2, Raise e)
    end.
End Commands.

(** ** main.py

    A role is its id and its name; the roles of a member are given as the
    lists [before.roles] and [after.roles].  Python leaves the order in which
    the set [after_roles - before_roles] is iterated open; here it is the
    order of [elements].  The direct message that reports the reward is left
    out. *)

Module Main.
Import DatabaseManager.
Import LevelingSystem.

Definition Role : Type := Z * string.
Definition role_name (role : Role) : string := snd role.

(** The body of the loop over [new_roles], with the accumulators
    [total_reward] and [role_names]. *)
Definition reward_role (acc : t * result (Z * list string)) (after_id : Z) (role : Role)
    : t * result (Z * list string) :=
  match acc with
  | (db, Raise e) => (db, Raise e)
  | (db, Ok (total_reward, role_names)) =>
      let reward :=
        default Config.DEFAULT_ROLE_REWARD (Config.ROLE_REWARDS !! role_name role) in
      if 0 <? reward then
        match add_coins db after_id reward "role_reward"
                (Some ("Role reward for " +:+ role_name role)) with
        | (db1, Ok _) => (db1, Ok (total_reward + reward, role_names ++ [role_name role]))
        | (db1, Raise e) => (db1, Raise e)
        end
      else (db, Ok (total_reward, role_names))
  end.

(** [on_member_update]; the result is [total_reward] and [role_names]. *)
Definition on_member_update (db : t) (before_roles after_roles : list Role)
    (after_id : Z) : t * result (Z * list string) :=
  let new_roles : gset Role := list_to_set after_roles ∖ list_to_set before_roles in
  fold_left (fun acc role => reward_role acc after_id role) (elements new_roles)
            (db, Ok (0, [])).

(** [on_message], up to the dispatch of prefix commands. *)
Definition on_message (db : t) (author_is_bot : bool) (message : Message)
    : t * result (option Processed) :=
  if author_is_bot then (db, Ok None)
  else
    match process_message db message with
    | (db1, Ok r) => (db1, Ok (Some r))
    | (db1, Raise e) => (db1, Raise e)
    end.
End Main.

(** ** Observations and runs used by the statements *)

Import DatabaseManager.

Definition coins_of (db : t) (user_id : Z) : Z :=
  match users db !! user_id with
  | Some user => coins user
  | None => 0
  end.

Definition total_supply (db : t) : Z :=
  map_fold (fun _ user acc => coins user + acc) 0 (users db).

(** The calls that reach the store, with the arguments the store receives. *)
Inductive op :=
  | GetUserData (user_id : Z)
  | GetCoins (user_id : Z)
  | GetXp (user_id : Z)
  | GetLevel (user_id : Z)
  | GetLeaderboard (limit : Z) (sort_by : string) (faults : Z -> bool)
  | AddCoins (user_id amount : Z) (transaction_type : string) (description : option string)
  | RemoveCoins (user_id amount : Z) (transaction_type : string) (description : option string)
  | TransferCoins (from_user_id to_user_id amount : Z) (description : option string)
  | SetCoins (user_id amount : Z)
  | AddXp (user_id amount now : Z)
  | SetLevel (user_id level : Z).

Definition apply_op (db : t) (o : op) : t :=
  match o with
  | GetUserData u => fst (get_user_data db u)
  | GetCoins u => fst (get_coins db u)
  | GetXp u => fst (get_xp db u)
  | GetLevel u => fst (get_level db u)
  | GetLeaderboard l s f => fst (fst (get_leaderboard db l s f))
  | AddCoins u a ty d => fst (add_coins db u a ty d)
  | RemoveCoins u a ty d => fst (remove_coins db u a ty d)
  | TransferCoins f t a d => fst (transfer_coins db f t a d)
  | SetCoins u a => fst (set_coins db u a)
  | AddXp u a now => fst (add_xp db u a now)
  | SetLevel u l => fst (set_level db u l)
  end.

Definition run (db : t) (ops : list op) : t := fold_left apply_op ops db.

(** The preconditions the specification states for the ledger operations. *)
Definition valid (o : op) : Prop :=
  match o with
  | AddCoins _ a _ _ => 0 < a
  | RemoveCoins _ a _ _ => 0 < a
  | TransferCoins f t a _ => f ≠ t ∧ Config.MIN_TRANSACTION ≤ a
  | AddXp _ a _ => 0 < a
  | _ => True
  end.

Inductive reachable : t -> Prop :=
  | reachable_init : reachable init
  | reachable_step db o : reachable db -> valid o -> reachable (apply_op db o).

Definition nonneg (db : t) : Prop :=
  ∀ user_id user, users db !! user_id = Some user → 0 ≤ coins user ∧ 0 ≤ xp user.

Definition xp_of (db : t) (user_id : Z) : Z :=
  match users db !! user_id with
  | Some user => xp user
  | None => 0
  end.

Definition last_xp_gain_of (db : t) (user_id : Z) : option Z :=
  users db !! user_id ≫= last_xp_gain.

(** A message is granted XP when processing it changes the author's xp. *)
Definition grants (db : t) (message : LevelingSystem.Message) : Prop :=
  xp_of (fst (LevelingSystem.process_message db message)) (LevelingSystem.author_id message)
  ≠ xp_of db (LevelingSystem.author_id message).

Definition process_all (db : t) (messages : list LevelingSystem.Message) : t :=
  fold_left (fun db message => fst (LevelingSystem.process_message db message)) messages db.

(** The row of a user as the writers see it: the stored row, or the row
    that [get_user_data] creates. *)
Definition row (db : t) (u : Z) : User := default (new_user u) (users db !! u).

(** The record that [k + 1] right shifts leave of the mantissa [m], and the
    last step of [binary_round_aux]: what the proofs about the floats
    compare [SpecFloat] with. *)
Definition shr_after (m : Z) (k : nat) : shr_record :=
  Build_shr_record (m / 2 ^ Z.of_nat (S k))
                   (Z.odd (m / 2 ^ Z.of_nat k))
                   (negb (m mod 2 ^ Z.of_nat k =? 0)).

Definition finish (sx : bool) (x : shr_record * Z) : spec_float :=
  let '(mrs, e) := x in
  match shr_m mrs with
  | Z0 => S754_zero sx
  | Zpos m => if e <=? 1024 - 53 then S754_finite sx m e else S754_infinity sx
  | Zneg _ => S754_nan
  end.

(** The rows an operation may write. *)
Definition touched (o : op) : list Z :=
  match o with
  | GetUserData u | GetCoins u | GetXp u | GetLevel u => [u]
  | GetLeaderboard _ _ _ => []
  | AddCoins u _ _ _ | RemoveCoins u _ _ _ | SetCoins u _ | AddXp u _ _ | SetLevel u _ => [u]
  | TransferCoins f t _ _ => [f; t]
  end.

(** What every row and every logged transaction of a store satisfies: a row
    is stored under its own [user_id], its message counter is not negative,
    and a logged transaction has a [to_user_id]. *)
Definition well_formed (db : t) : Prop :=
  (∀ k user, users db !! k = Some user → user_id user = k ∧ 0 ≤ total_messages user) ∧
  Forall (fun transaction => not_null transaction = true) (transactions db).

(** Three accounts, two of them with the same balance. *)
Definition db_3 : t :=
  mk {[ 1 := mkUser 1 100 0 1 0 None; 2 := mkUser 2 250 900 4 40 None;
        3 := mkUser 3 250 100 2 7 None ]} [] true.

(** An account with 100 coins, and nothing else. *)
Definition db_100 : t := mk {[ 1 := mkUser 1 100 0 1 0 None ]} [] true.

(** The reward [on_member_update] looks up for a role, and the transaction
    it logs for it. *)
Definition role_reward (role : Main.Role) : Z :=
  default Config.DEFAULT_ROLE_REWARD (Config.ROLE_REWARDS !! Main.role_name role).

Definition role_reward_record (after_id : Z) (role : Main.Role) : Transaction :=
  mkTransaction None (Some after_id) (role_reward role) "role_reward"
                (Some ("Role reward for " +:+ Main.role_name role)).

(** What the log says a user received and gave, and the balance it adds up
    to. *)
Definition credited (u : Z) (transaction : Transaction) : Z :=
  if decide (to_user_id transaction = Some u) then amount transaction else 0.

Definition debited (u : Z) (transaction : Transaction) : Z :=
  if decide (from_user_id transaction = Some u) then amount transaction else 0.

Definition balance_from_log (log : list Transaction) (u : Z) : Z :=
  foldr Z.add 0 ((fun transaction => credited u transaction - debited u transaction) <$> log).

(** The level rewards paid up to a level, the messages a run of
    [process_message] is stated for, and what holds of every row of a store
    that only messages have written, [n] of them at most. *)
Definition level_rewards (level : Z) : Z :=
  foldr Z.add 0 (LevelingSystem.calculate_level_reward <$> seqZ 2 (level - 1)).

Definition message_ok (message : LevelingSystem.Message) : Prop :=
  0 ≤ LevelingSystem.content_length message ∧
  0 ≤ LevelingSystem.random_bonus message ≤ Config.RANDOM_XP_BONUS.

Definition chat_consistent (n : Z) (db : t) : Prop :=
  ∀ u user, users db !! u = Some user →
    level user = Z.sqrt (xp user / Config.XP_PER_LEVEL_BASE) + 1 ∧
    coins user = level_rewards (level user) ∧
    0 ≤ total_messages user ≤ n ∧
    15 * total_messages user ≤ xp user ≤ 30 * total_messages user.

(** * Properties *)

(** ** Lemmas on the store *)

Lemma lookup_ensure_user db u :
  ∃ user, users (ensure_user db u) !! u = Some user ∧
          user = default (new_user u) (users db !! u).
Proof.
  unfold ensure_user, get_user_data.
  destruct (users db !! u) as [user|] eqn:E; simpl.
  - exists user. by rewrite E.
  - eexists. by rewrite lookup_insert_eq.
Qed.

Lemma lookup_ensure_user_ne db u v :
  u ≠ v → users (ensure_user db u) !! v = users db !! v.
Proof.
  intros Huv. unfold ensure_user, get_user_data.
  destruct (users db !! u); simpl; [done|]. by rewrite lookup_insert_ne.
Qed.

Lemma nonneg_ensure_user db u : nonneg db → nonneg (ensure_user db u).
Proof.
  intros Hdb. unfold ensure_user, get_user_data.
  destruct (users db !! u) eqn:E; simpl; [done|].
  intros v user. simpl. destruct (decide (v = u)) as [->|Hvu].
  - rewrite lookup_insert_eq. intros [= <-]. simpl. lia.
  - rewrite lookup_insert_ne by done. apply Hdb.
Qed.

Lemma total_supply_insert (us : gmap Z User) u user ts s ts' s' :
  total_supply (mk (<[u := user]> us) ts s) =
  total_supply (mk us ts' s') - coins_of (mk us ts' s') u + coins user.
Proof.
  unfold total_supply, coins_of. simpl.
  assert (Hcomm : ∀ (m : gmap Z User) j1 j2 z1 z2 (y : Z),
             j1 ≠ j2 → m !! j1 = Some z1 → m !! j2 = Some z2 →
             coins z1 + (coins z2 + y) = coins z2 + (coins z1 + y)) by (intros; lia).
  destruct (us !! u) as [old|] eqn:E.
  - rewrite <- (insert_delete_eq us u user).
    rewrite (map_fold_insert_L _ _ u user (delete u us));
      [|apply Hcomm|apply lookup_delete_eq].
    rewrite (map_fold_delete_L _ _ u old us); [|apply Hcomm|done]. lia.
  - rewrite (map_fold_insert_L _ _ u user us); [|apply Hcomm|done]. lia.
Qed.

(** ** remove_coins *)

(** The row that [remove_coins] adds to [transactions] has no [to_user_id],
    which the table forbids: the commit fails whenever the balance check
    passes, so the call never reports success and never changes the store. *)
Lemma remove_coins_never_succeeds db u a ty d :
  remove_coins db u a ty d = (db, false).
Proof.
  unfold remove_coins. destruct (users db !! u) as [user|]; [|done].
  destruct (coins user <? a); done.
Qed.

(** The balance check itself lets every amount up to the balance through,
    zero and negative amounts included. *)
Lemma remove_coins_guard db u a ty d user :
  users db !! u = Some user → a ≤ coins user →
  remove_coins db u a ty d =
    match commit db (<[u := with_coins user (coins user - a)]> (users db))
                 [mkTransaction (Some u) None (- a) ty d] with
    | Ok db1 => (db1, true)
    | Raise _ => (db, false)
    end.
Proof.
  intros Hu Ha. unfold remove_coins. rewrite Hu.
  destruct (coins user <? a) eqn:E; [lia|done].
Qed.

(** C6 (negative): with 100 coins on the account, [remove_coins] of 30 coins
    reports failure and leaves the balance at 100 and the transaction log
    empty, although the balance covers the amount. *)
Theorem C6_remove_coins_fails_with_funds :
  coins_of db_100 1 = 100 ∧
  remove_coins db_100 1 30 "admin_take" None = (db_100, false) ∧
  commit db_100 (<[1 := mkUser 1 70 0 1 0 None]> (users db_100))
         [mkTransaction (Some 1) None (-30) "admin_take" None] = Raise IntegrityError.
Proof. split; [reflexivity|]. split; [apply remove_coins_never_succeeds|reflexivity]. Qed.




(** ** transfer_coins *)

Lemma transfer_update_spec db f t a d fu tu :
  users db !! f = Some fu →
  <[f := with_coins fu (coins fu - a)]> (users db) !! t = Some tu →
  transfer_update db f t a d =
    (mk (<[t := with_coins tu (coins tu + a)]>
           (<[f := with_coins fu (coins fu - a)]> (users db)))
        (transactions db ++ [mkTransaction (Some f) (Some t) a "user_pay" d])
        (scoped db), true).
Proof. intros Hf Ht. unfold transfer_update. rewrite Hf, Ht. done. Qed.

Lemma transfer_update_distinct db f t a d fu tu :
  f ≠ t → users db !! f = Some fu → users db !! t = Some tu →
  ∃ db', transfer_update db f t a d = (db', true) ∧
    coins_of db' f = coins_of db f - a ∧ coins_of db' t = coins_of db t + a ∧
    total_supply db' = total_supply db.
Proof.
  intros Hft Hf Ht.
  rewrite (transfer_update_spec db f t a d fu tu) by (by rewrite ?lookup_insert_ne).
  eexists. split; [done|].
  unfold coins_of at 1 3. simpl.
  rewrite lookup_insert_ne, !lookup_insert_eq by done.
  unfold coins_of at 1 2. rewrite Hf, Ht. simpl. split; [done|]. split; [done|].
  rewrite (total_supply_insert _ t _ _ _ (transactions db) (scoped db)).
  unfold coins_of at 1. simpl. rewrite lookup_insert_ne, Ht by done. simpl.
  rewrite (total_supply_insert _ f _ _ _ (transactions db) (scoped db)).
  unfold coins_of. simpl. rewrite Hf. simpl. destruct db. simpl. lia.
Qed.

(** C4: a transfer between two distinct users that reports success moves
    exactly [a] coins from the sender to the receiver and leaves the sum of
    all balances unchanged; when the sender holds fewer than [a] coins the
    call reports failure and the store is unchanged, so no field of either
    account changes. *)
Theorem C4_transfer_coins_conservation db A B a d db' ok :
  A ≠ B → transfer_coins db A B a d = (db', ok) →
  (ok = true →
     coins_of db' A = coins_of db A - a ∧
     coins_of db' B = coins_of db B + a ∧
     total_supply db' = total_supply db) ∧
  (coins_of db A < a →
     ok = false ∧ db' = db ∧
     users db' !! A = users db !! A ∧ users db' !! B = users db !! B).
Proof.
  intros HAB. unfold transfer_coins.
  destruct (users db !! A) as [fu|] eqn:HA.
  2:{ intros [= <- <-]. split; [done|]. by intros _. }
  assert (HcA0 : coins_of db A = coins fu) by (unfold coins_of; by rewrite HA).
  destruct (coins fu <? a) eqn:Hlt.
  { intros [= <- <-]. split; [done|]. by intros _. }
  intros Htr. split; [|intros; lia]. intros ->.
  destruct (users db !! B) as [tu|] eqn:HB.
  - destruct (transfer_update_distinct db A B a d fu tu HAB HA HB)
      as (db2 & Hup & ? & ? & ?).
    rewrite Hup in Htr. by simplify_eq.
  - unfold get_user_data in Htr. rewrite HB in Htr. simpl in Htr.
    destruct (scoped db) eqn:Hs; [by simplify_eq|].
    set (db1 := with_users db (<[B := new_user B]> (users db))) in *.
    assert (H1A : users db1 !! A = Some fu) by (by simpl; rewrite lookup_insert_ne).
    assert (H1B : users db1 !! B = Some (new_user B)) by (by simpl; rewrite lookup_insert_eq).
    destruct (transfer_update_distinct db1 A B a d fu _ HAB H1A H1B)
      as (db2 & Hup & HcA & HcB & Hsum).
    rewrite Hup in Htr. simplify_eq.
    rewrite HcA, HcB, Hsum. unfold coins_of. rewrite H1A, H1B, HA, HB. simpl.
    split; [done|]. split; [done|].
    unfold db1, with_users.
    rewrite (total_supply_insert _ B _ _ _ (transactions db) (scoped db)).
    unfold coins_of. simpl. rewrite HB. destruct db. simpl. lia.
Qed.

Lemma C4_transfer_coins_conservation_witness :
  let db := mk {[ 1 := mkUser 1 100 0 1 0 None; 2 := mkUser 2 5 0 1 0 None ]} [] true in
  let db' := fst (transfer_coins db 1 2 30 None) in
  let db'' := fst (transfer_coins db 2 1 30 None) in
  (coins_of db' 1 = 70 ∧ coins_of db' 2 = 35 ∧ total_supply db' = total_supply db) ∧
  (snd (transfer_coins db 2 1 30 None) = false ∧ db'' = db).
Proof.
  intros db db' db''. split.
  - apply (C4_transfer_coins_conservation db 1 2 30 None db' true);
      [lia | vm_compute; reflexivity | reflexivity].
  - destruct (C4_transfer_coins_conservation db 2 1 30 None db''
                (snd (transfer_coins db 2 1 30 None))) as [_ H];
      [lia | vm_compute; reflexivity |].
    destruct H as (H1 & H2 & _); [vm_compute; reflexivity | by split].
Defined.

(** C9 (as amended): for a user who has a row, the store accepts a transfer
    of an amount that the balance covers from the account to itself: it
    reports success, leaves every row as it was (the one row is debited and
    then credited) and records one [user_pay] transaction of the amount; the
    [pay] handler rejects the same request before it calls the store. *)
Theorem C9_self_transfer db u a d user :
  users db !! u = Some user → a ≤ coins user →
  transfer_coins db u u a d =
    (mk (users db)
        (transactions db ++ [mkTransaction (Some u) (Some u) a "user_pay" d])
        (scoped db), true) ∧
  coins_of (fst (transfer_coins db u u a d)) u = coins_of db u ∧
  ∀ is_bot, Commands.pay db u u is_bot a = (db, Commands.CannotPayYourself).
Proof.
  intros Hu Ha.
  assert (Htr : transfer_coins db u u a d =
    (mk (users db)
        (transactions db ++ [mkTransaction (Some u) (Some u) a "user_pay" d])
        (scoped db), true)).
  { unfold transfer_coins. rewrite Hu.
    destruct (coins user <? a) eqn:E; [lia|].
    rewrite (transfer_update_spec db u u a d user (with_coins user (coins user - a)))
      by (done || apply lookup_insert_eq).
    rewrite insert_insert_eq. do 2 f_equal.
    apply insert_id. rewrite Hu. f_equal. destruct user. unfold with_coins. simpl.
    f_equal. lia. }
  split; [done|]. split.
  - rewrite Htr. done.
  - intros is_bot. unfold Commands.pay. by rewrite Z.eqb_refl.
Qed.

Lemma C9_self_transfer_witness :
  transfer_coins db_100 1 1 40 None =
    (mk (users db_100) [mkTransaction (Some 1) (Some 1) 40 "user_pay" None] true, true) ∧
  coins_of (fst (transfer_coins db_100 1 1 40 None)) 1 = coins_of db_100 1 ∧
  ∀ is_bot, Commands.pay db_100 1 1 is_bot 40 = (db_100, Commands.CannotPayYourself).
Proof.
  apply (C9_self_transfer db_100 1 40 None (mkUser 1 100 0 1 0 None)).
  - reflexivity.
  - simpl. lia.
Defined.

(** C9 (as stated) fails: the balance of a user without a row reads 0, so a
    transfer of 0 coins from that user to themselves is covered by it; the
    store returns False at the check of the sender's row and records
    nothing. *)
Lemma C9_self_transfer_no_row :
  ¬ (∀ db u a d, a ≤ coins_of db u → snd (transfer_coins db u u a d) = true).
Proof.
  intros H. specialize (H init 1 0 None ltac:(vm_compute; discriminate)).
  vm_compute in H. discriminate.
Qed.

(** ** Non-negative balances *)

Lemma nonneg_users db db' :
  nonneg db →
  (∀ v user, users db' !! v = Some user →
     users db !! v = Some user ∨ (0 ≤ coins user ∧ 0 ≤ xp user)) →
  nonneg db'.
Proof. intros Hdb H v user Hv. destruct (H v user Hv) as [?|?]; [by eapply Hdb|done]. Qed.

Lemma nonneg_get_user_data db u : nonneg db → nonneg (fst (get_user_data db u)).
Proof.
  intros Hdb. unfold get_user_data. destruct (users db !! u) eqn:E; simpl; [done|].
  apply (nonneg_users db); [done|]. intros v user. simpl.
  destruct (decide (v = u)) as [->|Hvu].
  - rewrite lookup_insert_eq. intros [= <-]. right. simpl. lia.
  - rewrite lookup_insert_ne by done. by left.
Qed.

Lemma nonneg_update db u user ts s :
  nonneg db → 0 ≤ coins user → 0 ≤ xp user →
  nonneg (mk (<[u := user]> (users db)) ts s).
Proof.
  intros Hdb Hc Hx. apply (nonneg_users db); [done|]. intros v user'. simpl.
  destruct (decide (v = u)) as [->|Hvu].
  - rewrite lookup_insert_eq. intros [= <-]. by right.
  - rewrite lookup_insert_ne by done. by left.
Qed.

Lemma users_get_leaderboard_loop attempts db limit sort_by faults sent :
  users (fst (fst (get_leaderboard_loop attempts db limit sort_by faults sent))) = users db ∧
  transactions (fst (fst (get_leaderboard_loop attempts db limit sort_by faults sent)))
    = transactions db.
Proof.
  revert db sent. induction attempts as [|attempt rest IH]; intros db sent; simpl; [done|].
  destruct (faults attempt); [|done]. destruct (attempt =? 2); [done|].
  destruct (IH (mk (users db) (transactions db) false) (S sent)) as [-> ->]. done.
Qed.

(** [set_coins] to an amount that is not above the balance records a row
    without [to_user_id]: the commit fails and the balance stays. *)
Lemma set_coins_not_above_fails db u a user :
  users db !! u = Some user → a ≤ coins user →
  set_coins db u a = (db, Raise IntegrityError).
Proof.
  intros Hu Ha. unfold set_coins, ensure_user. rewrite Hu. cbn zeta. rewrite Hu.
  unfold commit. destruct (0 <? a - coins user) eqn:E; [lia|done].
Qed.

Lemma nonneg_apply_op db o : nonneg db → valid o → nonneg (apply_op db o).
Proof.
  intros Hdb Hv. destruct o as [u|u|u|u|l sb f|u a ty d|u a ty d|f t a d|u a|u a now|u l];
    simpl in *.
  - by apply nonneg_get_user_data.
  - unfold get_coins. destruct (users db !! u); [done|]. by apply nonneg_get_user_data.
  - unfold get_xp. destruct (users db !! u); [done|]. by apply nonneg_get_user_data.
  - unfold get_level. destruct (users db !! u); [done|]. by apply nonneg_get_user_data.
  - apply (nonneg_users db); [done|]. intros v user. unfold get_leaderboard.
    destruct (users_get_leaderboard_loop (seqZ 0 3) db l sb f 0%nat) as [-> _]. by left.
  - unfold add_coins.
    pose proof (nonneg_ensure_user db u Hdb) as H1.
    destruct (users (ensure_user db u) !! u) as [user|] eqn:E; [|done]. simpl.
    destruct (H1 _ _ E) as [Hc Hx]. apply nonneg_update; [done|simpl; lia..].
  - by rewrite remove_coins_never_succeeds.
  - destruct Hv as [Hft Ha]. unfold Config.MIN_TRANSACTION in Ha. unfold transfer_coins.
    destruct (users db !! f) as [fu|] eqn:Hf; [|done].
    destruct (coins fu <? a) eqn:Hlt; [done|].
    assert (Hup : ∀ db1, nonneg db1 → users db1 !! f = Some fu →
              nonneg (fst (transfer_update db1 f t a d))).
    { intros db1 H1 H1f. unfold transfer_update. rewrite H1f.
      rewrite lookup_insert_ne by done.
      destruct (users db1 !! t) as [tu|] eqn:Ht; [|done]. simpl.
      apply (nonneg_users db1); [done|]. intros v user. simpl.
      destruct (decide (v = t)) as [->|Hvt].
      { rewrite lookup_insert_eq. intros [= <-]. right. simpl.
        destruct (H1 _ _ Ht). lia. }
      rewrite lookup_insert_ne by done.
      destruct (decide (v = f)) as [->|Hvf].
      { rewrite lookup_insert_eq. intros [= <-]. right. simpl.
        destruct (H1 _ _ H1f). lia. }
      rewrite lookup_insert_ne by done. by left. }
    destruct (users db !! t) as [tu|] eqn:Ht; [by apply Hup|].
    pose proof (nonneg_get_user_data db t Hdb) as H1.
    destruct (scoped db); [done|]. apply Hup; [done|].
    unfold get_user_data. rewrite Ht. simpl. by rewrite lookup_insert_ne.
  - unfold set_coins.
    pose proof (nonneg_ensure_user db u Hdb) as H1.
    destruct (users (ensure_user db u) !! u) as [user|] eqn:E; [|done].
    destruct (H1 _ _ E) as [Hc Hx].
    unfold commit. simpl. destruct (0 <? a - coins user) eqn:Hd; simpl; [|done].
    apply nonneg_update; [done|simpl; lia..].
  - unfold add_xp.
    pose proof (nonneg_ensure_user db u Hdb) as H1.
    destruct (users (ensure_user db u) !! u) as [user|] eqn:E; [|done]. simpl.
    destruct (H1 _ _ E) as [Hc Hx]. apply nonneg_update; [done|simpl; lia..].
  - unfold set_level.
    pose proof (nonneg_ensure_user db u Hdb) as H1.
    destruct (users (ensure_user db u) !! u) as [user|] eqn:E; [|done]. simpl.
    destruct (H1 _ _ E) as [Hc Hx]. apply nonneg_update; [done|simpl; lia..].
Qed.

Lemma nonneg_reachable db : reachable db → nonneg db.
Proof.
  induction 1 as [|db o _ IH Hv]; [|by apply nonneg_apply_op].
  intros v user. unfold init. simpl. by rewrite lookup_empty.
Qed.

(** C5: from a reachable state, a sequence of store operations that meet
    their stated preconditions ends in a state where every account has
    [coins >= 0] and [xp >= 0]. *)
Theorem C5_non_negative db ops :
  reachable db → Forall valid ops →
  ∀ user_id user, users (run db ops) !! user_id = Some user →
    0 ≤ coins user ∧ 0 ≤ xp user.
Proof.
  intros Hr Hops. apply nonneg_reachable in Hr. fold (nonneg (run db ops)).
  revert db Hr. induction Hops as [|o ops Ho _ IH]; intros db Hdb; simpl; [done|].
  apply IH. by apply nonneg_apply_op.
Qed.

Lemma C5_non_negative_witness :
  ∃ user,
    users (run init [AddCoins 1 100 "admin_give" None; SetCoins 1 (-5);
                     RemoveCoins 1 30 "admin_take" None; GetCoins 2;
                     TransferCoins 1 2 60 None; AddXp 2 20 0; SetCoins 2 (-1);
                     SetLevel 2 3]) !! 2 = Some user ∧
    0 ≤ coins user ∧ 0 ≤ xp user.
Proof.
  eexists. split; [vm_compute; reflexivity|].
  refine (C5_non_negative init
            [AddCoins 1 100 "admin_give" None; SetCoins 1 (-5);
             RemoveCoins 1 30 "admin_take" None; GetCoins 2;
             TransferCoins 1 2 60 None; AddXp 2 20 0; SetCoins 2 (-1);
             SetLevel 2 3] reachable_init _ 2 _ _).
  - repeat constructor; unfold Config.MIN_TRANSACTION; lia.
  - vm_compute. reflexivity.
Defined.

(** ** Level-up rewards *)

Import LevelingSystem.

#[local] Arguments calculate_level_reward : simpl never.
#[local] Arguments calculate_level_from_xp : simpl never.
#[local] Arguments calculate_xp_for_level : simpl never.

Lemma fold_left_reward (l : list Z) (acc : Z) :
  fold_left (fun coin_reward level => coin_reward + calculate_level_reward level) l acc
  = acc + foldr Z.add 0 (calculate_level_reward <$> l).
Proof.
  revert acc. induction l as [|x l IH]; intros acc; csimpl; [lia|]. rewrite IH. lia.
Qed.

Lemma calculate_level_reward_cases level :
  calculate_level_reward level =
    if decide (level mod 10 = 0) then Config.BASE_COINS_PER_LEVEL * 3
    else if decide (level mod 5 = 0) then Config.BASE_COINS_PER_LEVEL * 2
    else Config.BASE_COINS_PER_LEVEL.
Proof.
  unfold calculate_level_reward.
  destruct (decide (level mod 10 = 0)) as [->|H10]; [done|].
  destruct (level mod 10 =? 0) eqn:E10; [lia|].
  destruct (decide (level mod 5 = 0)) as [->|H5]; [done|].
  destruct (level mod 5 =? 0) eqn:E5; [lia|done].
Qed.

Lemma calculate_level_reward_pos level : 0 < calculate_level_reward level.
Proof.
  rewrite calculate_level_reward_cases. unfold Config.BASE_COINS_PER_LEVEL.
  repeat case_decide; lia.
Qed.

Lemma reward_sum_pos (l : list Z) :
  l ≠ [] → 0 < foldr Z.add 0 (calculate_level_reward <$> l).
Proof.
  destruct l as [|x l]; [done|]. intros _. csimpl.
  pose proof (calculate_level_reward_pos x).
  assert (0 ≤ foldr Z.add 0 (calculate_level_reward <$> l)); [|lia].
  induction l as [|y l IH]; csimpl; [lia|].
  pose proof (calculate_level_reward_pos y). lia.
Qed.

(** C3: for [old_level < new_level] the level-up handler adds to the user's
    balance the sum of [calculate_level_reward l] over the levels
    [old_level + 1 .. new_level], recording it as one [level_up] transaction;
    the reward of a level is three times the base reward at a multiple of
    10, twice at another multiple of 5, and the base reward otherwise. *)
Theorem C3_level_up_reward db user_id old_level new_level :
  old_level < new_level →
  let coin_reward :=
    foldr Z.add 0 (calculate_level_reward <$> seqZ (old_level + 1) (new_level - old_level)) in
  (∀ l, calculate_level_reward l =
          if decide (l mod 10 = 0) then Config.BASE_COINS_PER_LEVEL * 3
          else if decide (l mod 5 = 0) then Config.BASE_COINS_PER_LEVEL * 2
          else Config.BASE_COINS_PER_LEVEL) ∧
  ∃ db', handle_level_up db user_id old_level new_level = (db', Ok coin_reward) ∧
         coins_of db' user_id = coins_of db user_id + coin_reward ∧
         (∀ v, v ≠ user_id → coins_of db' v = coins_of db v) ∧
         ∃ description,
           transactions db' = transactions db ++
             [mkTransaction None (Some user_id) coin_reward "level_up" description].
Proof.
  intros Hlt coin_reward. split; [apply calculate_level_reward_cases|].
  unfold handle_level_up. rewrite fold_left_reward, Z.add_0_l.
  replace (new_level + 1 - (old_level + 1)) with (new_level - old_level) by lia.
  fold coin_reward.
  assert (Hpos : 0 < coin_reward).
  { apply reward_sum_pos. rewrite seqZ_cons by lia. done. }
  destruct (0 <? coin_reward) eqn:E; [|lia].
  unfold add_coins.
  destruct (lookup_ensure_user db user_id) as (user & Hu & Huser). rewrite Hu. simpl.
  eexists. split; [done|]. split; [|split].
  - unfold coins_of. simpl. rewrite lookup_insert_eq. simpl. rewrite Huser.
    destruct (users db !! user_id); simpl; lia.
  - intros v Hv. unfold coins_of. simpl. rewrite lookup_insert_ne by done.
    by rewrite lookup_ensure_user_ne.
  - eexists. f_equal. unfold ensure_user, get_user_data.
    destruct (users db !! user_id); done.
Qed.

Lemma C3_level_up_reward_witness :
  (∀ l, calculate_level_reward l =
          if decide (l mod 10 = 0) then 50 * 3
          else if decide (l mod 5 = 0) then 50 * 2 else 50) ∧
  ∃ db', handle_level_up init 7 4 11 = (db', Ok 500) ∧
         coins_of db' 7 = coins_of init 7 + 500 ∧
         (∀ v, v ≠ 7 → coins_of db' v = coins_of init v) ∧
         ∃ description,
           transactions db' = transactions init ++
             [mkTransaction None (Some 7) 500 "level_up" description].
Proof. apply (C3_level_up_reward init 7 4 11). lia. Defined.

(** ** The administrative level-set *)

(** On the store the bot runs with, the handler stores the level, leaves the
    stored xp as it was and ends in [AttributeError]. *)
Lemma set_level_keeps_xp db user_id level :
  1 ≤ level →
  ∃ db', Commands.set_level db true user_id level = (db', Raise AttributeError) ∧
         users db' !! user_id =
           Some (with_level (default (new_user user_id) (users db !! user_id)) level).
Proof.
  intros Hl. unfold Commands.set_level. simpl.
  destruct (level <? 1) eqn:E; [lia|].
  assert (Hgl : ∃ old, get_level db user_id = (ensure_user db user_id, old))
    by (unfold get_level, ensure_user; destruct (users db !! user_id); eauto).
  destruct Hgl as [old ->].
  destruct (lookup_ensure_user db user_id) as (user & Hu & Huser).
  unfold set_level. unfold ensure_user at 1. rewrite !Hu. simpl.
  unfold get_user_data. simpl. rewrite lookup_insert_eq.
  eexists. split; [done|]. simpl. by rewrite lookup_insert_eq, Huser.
Qed.

(** C1 (negative): the level-set command for level 5 on a new user, run on
    the store of [main.py], stores level 5 but leaves the stored xp at 0, not
    at [calculate_xp_for_level 5 = 1600], and ends in [AttributeError];
    the level derived from the stored xp is 1.  The same handler on the JSON
    store of [database.py] stores and saves xp 1600. *)
Theorem C1_set_level_leaves_xp :
  Commands.set_level init true 1 5 =
    (mk {[ 1 := mkUser 1 0 0 5 0 None ]} [] true, Raise AttributeError) ∧
  calculate_xp_for_level 5 = 1600 ∧
  calculate_level_from_xp 1600 = Ok 5 ∧
  calculate_level_from_xp 0 = Ok 1 ∧
  ∃ dbj, Commands.set_level_Database Database.init true 1 5 =
           (dbj, Ok (Commands.LevelSet 1 5 1600)) ∧
         Database.file dbj !! 1 = Some (mkUserData 0 1600 5 0 None).
Proof.
  split; [vm_compute; reflexivity|]. split; [reflexivity|].
  split; [vm_compute; reflexivity|]. split; [vm_compute; reflexivity|].
  eexists. split; vm_compute; reflexivity.
Qed.

(** ** The leaderboard *)

Lemma get_leaderboard_loop_sent attempts db limit sort_by faults sent :
  (snd (get_leaderboard_loop attempts db limit sort_by faults sent)
   ≤ sent + length attempts)%nat.
Proof.
  revert db sent. induction attempts as [|attempt rest IH]; intros db sent; simpl; [lia|].
  destruct (faults attempt); [|simpl; lia]. destruct (attempt =? 2); [simpl; lia|].
  etrans; [apply IH|]. lia.
Qed.

Lemma query_leaderboard_empty db limit sort_by :
  users db = ∅ → query_leaderboard db limit sort_by = [].
Proof.
  intros Hempty. unfold query_leaderboard.
  rewrite Hempty, map_to_list_empty. by destruct (Z.to_nat limit).
Qed.

(** C8 (as amended): the leaderboard query is sent at most 3 times; when all
    three attempts fail the store returns the empty list, which is also its
    answer when no account exists, and the command replies to both with the
    same "no users" message. *)
Theorem C8_leaderboard_retry db limit sort_by faults :
  (snd (get_leaderboard db limit sort_by faults) ≤ 3)%nat ∧
  ((∀ attempt, 0 ≤ attempt < 3 → faults attempt = true) →
     snd (fst (get_leaderboard db limit sort_by faults)) = Some [] ∧
     snd (get_leaderboard db limit sort_by faults) = 3%nat ∧
     snd (Commands.leaderboard db sort_by faults) = Commands.NoUsersFound) ∧
  (users db = ∅ → faults 0 = false →
     snd (fst (get_leaderboard db limit sort_by faults)) = Some [] ∧
     snd (get_leaderboard db limit sort_by faults) = 1%nat ∧
     snd (Commands.leaderboard db sort_by faults) = Commands.NoUsersFound).
Proof.
  split; [apply (get_leaderboard_loop_sent (seqZ 0 3))|]. split.
  - intros Hf. unfold Commands.leaderboard, get_leaderboard.
    change (seqZ 0 3) with [0; 1; 2]. simpl.
    rewrite !Hf by lia. done.
  - intros Hempty Hf. unfold Commands.leaderboard, get_leaderboard.
    change (seqZ 0 3) with [0; 1; 2]. simpl.
    rewrite Hf. by rewrite !query_leaderboard_empty.
Qed.

Lemma C8_leaderboard_retry_witness :
  (snd (fst (get_leaderboard db_100 10 "coins" (fun _ => true))) = Some [] ∧
   snd (get_leaderboard db_100 10 "coins" (fun _ => true)) = 3%nat ∧
   snd (Commands.leaderboard db_100 "coins" (fun _ => true)) = Commands.NoUsersFound) ∧
  (snd (fst (get_leaderboard init 10 "coins" (fun _ => false))) = Some [] ∧
   snd (get_leaderboard init 10 "coins" (fun _ => false)) = 1%nat ∧
   snd (Commands.leaderboard init "coins" (fun _ => false)) = Commands.NoUsersFound).
Proof.
  split.
  - apply (C8_leaderboard_retry db_100 10 "coins" (fun _ => true)). reflexivity.
  - apply (C8_leaderboard_retry init 10 "coins" (fun _ => false)); reflexivity.
Defined.

(** C8 (as stated) fails: the result for a store with one account whose three
    queries all fail is the result for an empty store whose query succeeds,
    and the command sends the same reply. *)
Lemma C8_failure_not_distinguished :
  ¬ (∀ db db' limit sort_by (ok failing : Z -> bool),
       users db = ∅ → ok 0 = false → (∀ attempt, failing attempt = true) →
       snd (fst (get_leaderboard db limit sort_by ok))
         ≠ snd (fst (get_leaderboard db' limit sort_by failing)) ∨
       snd (Commands.leaderboard db sort_by ok)
         ≠ snd (Commands.leaderboard db' sort_by failing)).
Proof.
  intros H.
  destruct (H init db_100 10 "coins" (fun _ => false) (fun _ => true)) as [H1|H1];
    try done; apply H1; vm_compute; reflexivity.
Qed.

(** ** The floating-point level formula

    [SpecFloat] comes without lemmas: the facts on its shifts, its rounding
    and its square root that the round trip needs are proved here, at
    precision 53. *)

Lemma digits2_pos_size p : digits2_pos p = Pos.size p.
Proof. induction p; simpl; congruence. Qed.

Lemma Zdigits2_log2 v : 0 < v → Zdigits2 v = Z.log2 v + 1.
Proof.
  destruct v as [|p|p]; try lia. intros _. simpl. rewrite digits2_pos_size.
  destruct p; simpl; lia.
Qed.

Lemma Zdigits2_bounds v : 0 < v → 2 ^ (Zdigits2 v - 1) ≤ v < 2 ^ Zdigits2 v.
Proof.
  intros Hv. rewrite Zdigits2_log2 by done.
  replace (Z.log2 v + 1 - 1) with (Z.log2 v) by lia.
  replace (Z.log2 v + 1) with (Z.succ (Z.log2 v)) by lia.
  by apply Z.log2_spec.
Qed.

Lemma Zdigits2_unique v d : 2 ^ (d - 1) ≤ v < 2 ^ d → 0 < d → Zdigits2 v = d.
Proof.
  intros [Hlo Hhi] Hd.
  assert (0 < v) by (pose proof (Z.pow_pos_nonneg 2 (d - 1)); lia).
  rewrite Zdigits2_log2 by done.
  rewrite (Z.log2_unique v (d - 1)); [lia|lia|].
  replace (Z.succ (d - 1)) with d by lia. done.
Qed.

Lemma iter_pos_nat {A} (f : A → A) p x :
  SpecFloat.iter_pos f p x = @Nat.iter (Pos.to_nat p) A f x.
Proof.
  revert x. induction p as [p IH|p IH|]; intros x; cbn [SpecFloat.iter_pos].
  - rewrite !IH, Pos2Nat.inj_xI.
    replace (S (2 * Pos.to_nat p)) with (Pos.to_nat p + S (Pos.to_nat p))%nat by lia.
    by rewrite Nat.iter_add, Nat.iter_succ_r.
  - rewrite !IH, Pos2Nat.inj_xO.
    replace (2 * Pos.to_nat p)%nat with (Pos.to_nat p + Pos.to_nat p)%nat by lia.
    by rewrite Nat.iter_add.
  - done.
Qed.

Lemma shr_1_nonneg m r s :
  0 ≤ m → shr_1 (Build_shr_record m r s) = Build_shr_record (m / 2) (Z.odd m) (r || s).
Proof.
  intros Hm. destruct m as [|p|p]; [done| |lia].
  destruct p as [p|p|]; simpl; f_equal.
  - rewrite Pos2Z.inj_xI. rewrite Z.mul_comm, Z.add_comm.
    rewrite Z.div_add by lia. done.
  - rewrite Pos2Z.inj_xO. rewrite Z.mul_comm, Z.div_mul by lia. done.
Qed.

Lemma shr_iter m k :
  0 ≤ m →
  @Nat.iter (S k) _ shr_1 (Build_shr_record m false false) = shr_after m k.
Proof.
  intros Hm. induction k as [|k IH].
  - cbn [Nat.iter]. rewrite shr_1_nonneg by done. unfold shr_after.
    change (Z.of_nat 1) with 1. change (Z.of_nat 0) with 0.
    by rewrite Z.pow_0_r, Z.pow_1_r, Z.div_1_r, Z.mod_1_r.
  - rewrite Nat.iter_succ, IH. unfold shr_after.
    assert (0 < 2 ^ Z.of_nat k) by (apply Z.pow_pos_nonneg; lia).
    assert (H2 : 2 ^ Z.of_nat (S k) = 2 ^ Z.of_nat k * 2)
      by (rewrite Nat2Z.inj_succ, Z.pow_succ_r by lia; lia).
    rewrite shr_1_nonneg by (apply Z.div_pos; lia).
    f_equal.
    + replace (2 ^ Z.of_nat (S (S k))) with (2 ^ Z.of_nat (S k) * 2)
        by (rewrite (Nat2Z.inj_succ (S k)), Z.pow_succ_r by lia; lia).
      rewrite Z.div_div by lia. done.
    + rewrite H2.
      pose proof (Z.div_mod m (2 ^ Z.of_nat k * 2) ltac:(lia)) as E1.
      pose proof (Z.div_mod m (2 ^ Z.of_nat k) ltac:(lia)) as E2.
      pose proof (Z.div_mod (m / 2 ^ Z.of_nat k) 2 ltac:(lia)) as E3.
      rewrite <- (Z.div_div m _ 2) in E1 by lia.
      pose proof (Z.mod_pos_bound m (2 ^ Z.of_nat k * 2) ltac:(lia)).
      pose proof (Z.mod_pos_bound m (2 ^ Z.of_nat k) ltac:(lia)).
      pose proof (Z.mod_pos_bound (m / 2 ^ Z.of_nat k) 2 ltac:(lia)).
      rewrite Zodd_mod.
      destruct (Z.eqb_spec (m mod 2 ^ Z.of_nat k) 0) as [Ea|Ea];
      destruct (Z.eqb_spec ((m / 2 ^ Z.of_nat k) mod 2) 1) as [Eb|Eb];
      destruct (Z.eqb_spec (m mod (2 ^ Z.of_nat k * 2)) 0) as [Ec|Ec]; simpl; try done; nia.
Qed.

Lemma round_shift Q k :
  0 ≤ Q →
  let K := Z.of_nat (S k) in
  let m2 := round_nearest_even (shr_m (shr_after Q k)) (loc_of_shr_record (shr_after Q k)) in
  Q / 2 ^ K ≤ m2 ≤ Q / 2 ^ K + 1 ∧
  2 * Z.abs (m2 * 2 ^ K - Q) ≤ 2 ^ K ∧
  (Q mod 2 ^ K = 0 → m2 * 2 ^ K = Q).
Proof.
  intros HQ K m2. subst m2. unfold shr_after. fold K. cbn [shr_m loc_of_shr_record].
  assert (Hk : 0 < 2 ^ Z.of_nat k) by (apply Z.pow_pos_nonneg; lia).
  assert (HK : 2 ^ K = 2 ^ Z.of_nat k * 2)
    by (unfold K; rewrite Nat2Z.inj_succ, Z.pow_succ_r by lia; lia).
  rewrite HK.
  pose proof (Z.div_mod Q (2 ^ Z.of_nat k * 2) ltac:(lia)) as E1.
  pose proof (Z.div_mod Q (2 ^ Z.of_nat k) ltac:(lia)) as E2.
  pose proof (Z.div_mod (Q / 2 ^ Z.of_nat k) 2 ltac:(lia)) as E3.
  pose proof (Z.mod_pos_bound Q (2 ^ Z.of_nat k * 2) ltac:(lia)).
  pose proof (Z.mod_pos_bound Q (2 ^ Z.of_nat k) ltac:(lia)).
  pose proof (Z.mod_pos_bound (Q / 2 ^ Z.of_nat k) 2 ltac:(lia)).
  assert (Hdd : Q / (2 ^ Z.of_nat k * 2) = Q / 2 ^ Z.of_nat k / 2)
    by (rewrite Z.div_div by lia; done).
  rewrite Hdd in *.
  set (a := Q / 2 ^ Z.of_nat k) in *. set (P := 2 ^ Z.of_nat k) in *.
  set (lo := Q mod P) in *. set (h := a / 2) in *.
  rewrite Zodd_mod.
  destruct (Z.eqb_spec (a mod 2) 1) as [Eb|Eb];
    destruct (Z.eqb_spec lo 0) as [Ea|Ea]; cbn [negb round_nearest_even].
  - destruct (Z.even h); nia.
  - nia.
  - nia.
  - nia.
Qed.

Lemma fexp_big d : -1021 ≤ d - 53 → fexp 53 1024 d = d - 53.
Proof. unfold fexp, emin. lia. Qed.

Lemma binary_round_aux_finish sx mx ex lx :
  binary_round_aux 53 1024 sx mx ex lx =
  finish sx (shr_fexp 53 1024
               (round_nearest_even (shr_m (fst (shr_fexp 53 1024 mx ex lx)))
                                   (loc_of_shr_record (fst (shr_fexp 53 1024 mx ex lx))))
               (snd (shr_fexp 53 1024 mx ex lx)) loc_Exact).
Proof.
  unfold binary_round_aux, finish.
  destruct (shr_fexp 53 1024 mx ex lx) as [mrs' e']. cbn [fst snd].
  destruct (shr_fexp 53 1024 _ e' loc_Exact) as [mrs'' e'']. done.
Qed.

Lemma second_stage m2 e' :
  2 ^ 52 ≤ m2 ≤ 2 ^ 53 → -1021 ≤ e' → e' ≤ 960 →
  ∃ m e, finish false (shr_fexp 53 1024 m2 e' loc_Exact) = S754_finite false m e ∧
         2 ^ 52 ≤ Zpos m < 2 ^ 53 ∧ e' ≤ e ≤ e' + 1 ∧ Zpos m * 2 ^ (e - e') = m2.
Proof.
  intros Hm2 He1 He2. unfold shr_fexp.
  destruct (Z.eq_dec m2 (2 ^ 53)) as [->|Hne].
  - rewrite (Zdigits2_unique (2 ^ 53) 54) by lia.
    rewrite fexp_big by lia. replace (54 + e' - 53 - e') with 1 by lia.
    cbn [shr_record_of_loc shr SpecFloat.iter_pos].
    rewrite shr_1_nonneg by lia. cbn [finish shr_m].
    change (2 ^ 53 / 2) with (Z.pos (2 ^ 52)%positive).
    destruct (e' + 1 <=? 1024 - 53) eqn:E; [|lia].
    eexists _, _. split; [done|]. replace (e' + 1 - e') with 1 by lia.
    split; [|split]; [|lia|]; vm_compute; done.
  - assert (0 < m2) by lia. destruct m2 as [|m|m]; try lia.
    rewrite (Zdigits2_unique (Z.pos m) 53) by lia.
    rewrite fexp_big by lia. replace (53 + e' - 53 - e') with 0 by lia.
    cbn [shr_record_of_loc shr finish shr_m].
    destruct (e' <=? 1024 - 53) eqn:E; [|lia].
    eexists _, _. split; [done|]. rewrite Z.sub_diag, Z.pow_0_r. lia.
Qed.

Lemma binary_round_aux_exact Q E :
  0 < Q → 53 ≤ Zdigits2 Q → -1021 ≤ E → Zdigits2 Q + E ≤ 1000 →
  let K := Zdigits2 Q - 53 in
  ∃ m e, binary_round_aux 53 1024 false Q E loc_Exact = S754_finite false m e ∧
    2 ^ 52 ≤ Zpos m < 2 ^ 53 ∧ E + K ≤ e ≤ E + K + 1 ∧
    2 * Z.abs (Zpos m * 2 ^ (e - E) - Q) ≤ 2 ^ K ∧
    (Q mod 2 ^ K = 0 → Zpos m * 2 ^ (e - E) = Q).
Proof.
  intros HQ Hd HE Hmax K.
  pose proof (Zdigits2_bounds Q HQ) as HQb.
  assert (HK : 0 ≤ K) by (unfold K; lia).
  replace (Zdigits2 Q) with (53 + K) in HQb by (unfold K; lia).
  replace (53 + K - 1) with (52 + K) in HQb by lia.
  rewrite !Z.pow_add_r in HQb by lia.
  assert (HP : 0 < 2 ^ K) by (apply Z.pow_pos_nonneg; lia).
  assert (Hm1 : 2 ^ 52 ≤ Q / 2 ^ K < 2 ^ 53).
  { split; [apply Z.div_le_lower_bound; lia|apply Z.div_lt_upper_bound; lia]. }
  rewrite binary_round_aux_finish.
  assert (Hfirst : ∃ m2,
    snd (shr_fexp 53 1024 Q E loc_Exact) = E + K ∧
    round_nearest_even (shr_m (fst (shr_fexp 53 1024 Q E loc_Exact)))
                       (loc_of_shr_record (fst (shr_fexp 53 1024 Q E loc_Exact))) = m2 ∧
    Q / 2 ^ K ≤ m2 ≤ Q / 2 ^ K + 1 ∧
    2 * Z.abs (m2 * 2 ^ K - Q) ≤ 2 ^ K ∧ (Q mod 2 ^ K = 0 → m2 * 2 ^ K = Q)).
  { unfold shr_fexp. rewrite fexp_big by lia.
    replace (Zdigits2 Q + E - 53 - E) with K by (unfold K; lia).
    cbn [shr_record_of_loc]. destruct K as [|p|p] eqn:EK; [| |lia].
    - cbn [shr fst snd shr_m loc_of_shr_record round_nearest_even].
      eexists. split; [lia|]. split; [done|].
      rewrite Z.pow_0_r, Z.div_1_r, Z.mul_1_r, Z.sub_diag. simpl. lia.
    - cbn [shr fst snd]. rewrite iter_pos_nat.
      destruct (Pos2Nat.is_succ p) as [k Hk]. rewrite Hk.
      rewrite shr_iter by lia.
      replace (Z.pos p) with (Z.of_nat (S k)) by lia.
      eexists. split; [done|]. split; [done|]. by apply round_shift; lia. }
  destruct Hfirst as (m2 & Hsh & Hm2 & Hb & Herr & Hex).
  rewrite Hsh, Hm2.
  destruct (second_stage m2 (E + K)) as (m & e & Hfin & Hmb & Heb & Hval);
    [lia|lia|unfold K; lia|].
  exists m, e. split; [done|]. split; [done|]. split; [done|].
  assert (Hpow : 2 ^ (e - E) = 2 ^ (e - (E + K)) * 2 ^ K)
    by (rewrite <- Z.pow_add_r by lia; f_equal; lia).
  rewrite Hpow, Z.mul_assoc, Hval. done.
Qed.

Lemma pow2_lt_cancel a b v : 2 ^ a ≤ v → v < 2 ^ b → a < b.
Proof.
  intros H1 H2. destruct (Z_lt_le_dec a b) as [|Hba]; [done|].
  destruct (Z_lt_le_dec b 0) as [Hb|Hb].
  - rewrite (Z.pow_neg_r 2 b) in H2 by done.
    pose proof (Z.pow_nonneg 2 a ltac:(lia)). lia.
  - pose proof (Z.pow_le_mono_r 2 b a ltac:(lia) Hba). lia.
Qed.

Lemma Zdigits2_shift A s : 0 < A → 0 ≤ s → Zdigits2 (A * 2 ^ s) = Zdigits2 A + s.
Proof.
  intros HA Hs. pose proof (Zdigits2_bounds A HA) as [H1 H2].
  assert (0 < Zdigits2 A) by (rewrite Zdigits2_log2 by done; pose proof (Z.log2_nonneg A); lia).
  assert (0 < 2 ^ s) by (apply Z.pow_pos_nonneg; lia).
  apply Zdigits2_unique; [|lia].
  replace (Zdigits2 A + s - 1) with (Zdigits2 A - 1 + s) by lia.
  rewrite !Z.pow_add_r by lia. nia.
Qed.

Lemma div_core A :
  0 < A →
  let sh := Z.max 0 (60 - Zdigits2 (A * 100)) in
  SFdiv_core_binary 53 1024 (A * 100) 0 100 0 = (A * 2 ^ sh, - sh, loc_Exact).
Proof.
  intros HA sh. unfold SFdiv_core_binary.
  change (Zdigits2 100) with 7.
  pose proof (Zdigits2_bounds (A * 100) ltac:(lia)) as [Hlo Hhi].
  assert (7 ≤ Zdigits2 (A * 100)).
  { assert (6 < Zdigits2 (A * 100)); [|lia].
    apply (pow2_lt_cancel _ _ (A * 100)); [change (2 ^ 6) with 64; lia|done]. }
  rewrite fexp_big by lia.
  replace (Z.min (Zdigits2 (A * 100) + 0 - (7 + 0) - 53) (0 - 0)) with (- sh)
    by (unfold sh; lia).
  replace (0 - 0 - - sh) with sh by lia.
  assert (Hm' : match sh with
                | 0 => A * 100
                | Z.pos _ => Z.shiftl (A * 100) sh
                | Z.neg _ => 0
                end = A * 2 ^ sh * 100).
  { assert (0 ≤ sh) by (unfold sh; lia).
    destruct sh as [|p|p] eqn:E; [rewrite Z.pow_0_r; lia| |lia].
    rewrite Z.shiftl_mul_pow2 by lia. lia. }
  rewrite Hm'.
  assert (Hde : Z.div_eucl (A * 2 ^ sh * 100) 100 = (A * 2 ^ sh, 0)).
  { pose proof (Z_div_mod_eq_full (A * 2 ^ sh * 100) 100) as Hdm.
    unfold Z.div, Z.modulo in *.
    destruct (Z.div_eucl (A * 2 ^ sh * 100) 100) as [q r] eqn:Ed.
    pose proof (Z.mod_pos_bound (A * 2 ^ sh * 100) 100 ltac:(lia)) as Hb.
    unfold Z.modulo in Hb. rewrite Ed in Hb. f_equal; lia. }
  rewrite Hde. done.
Qed.

Lemma div_square_round n :
  1 ≤ n < 2 ^ 53 →
  ∃ m e,
    (let '(q, e, l) := SFdiv_core_binary 53 1024 (n ^ 2 * 100) 0 100 0 in
     binary_round_aux 53 1024 false q e l) = S754_finite false m e ∧
    2 ^ 52 ≤ Zpos m < 2 ^ 53 ∧ -52 ≤ e ≤ 53 ∧
    (e ≤ 0 → Zpos m = n ^ 2 * 2 ^ (- e)) ∧
    (1 ≤ e → 2 * Z.abs (Zpos m * 2 ^ e - n ^ 2) ≤ 2 ^ e).
Proof.
  intros Hn. set (A := n ^ 2).
  assert (HA : 0 < A) by (unfold A; nia).
  assert (HA106 : A ≤ 9007199254740991 * 9007199254740991)
    by (unfold A; change (2 ^ 53) with 9007199254740992 in Hn; nia).
  clearbody A.
  rewrite div_core by done.
  pose proof (Zdigits2_bounds A HA) as [HDlo HDhi].
  pose proof (Zdigits2_bounds (A * 100) ltac:(lia)) as [Hd1lo Hd1hi].
  pose proof (Zdigits2_shift A) as HdQ.
  set (d1 := Zdigits2 (A * 100)) in *. set (D := Zdigits2 A) in *.
  clearbody d1 D.
  assert (HD1 : 1 ≤ D).
  { assert (0 < D); [|lia]. apply (pow2_lt_cancel _ _ A); [change (2 ^ 0) with 1; lia|done]. }
  assert (HD106 : D ≤ 106).
  { assert (D - 1 < 106); [|lia]. apply (pow2_lt_cancel _ _ A); [done|].
    change (2 ^ 106) with (9007199254740992 * 9007199254740992). lia. }
  assert (Hd1 : D + 6 ≤ d1 ≤ D + 7).
  { split.
    - assert (D + 5 < d1); [|lia]. apply (pow2_lt_cancel _ _ (A * 100)); [|done].
      replace (D + 5) with (D - 1 + 6) by lia. rewrite Z.pow_add_r by lia.
      change (2 ^ 6) with 64. lia.
    - assert (d1 - 1 < D + 7); [|lia]. apply (pow2_lt_cancel _ _ (A * 100)); [done|].
      rewrite Z.pow_add_r by lia. change (2 ^ 7) with 128. lia. }
  assert (Hshdef : ∃ sh, sh = Z.max 0 (60 - d1)) by eauto.
  destruct Hshdef as [sh Hshdef]. rewrite <- Hshdef.
  assert (Hsh : 0 ≤ sh) by lia.
  specialize (HdQ sh HA Hsh).
  assert (HPsh : 0 < 2 ^ sh) by (apply Z.pow_pos_nonneg; lia).
  destruct (binary_round_aux_exact (A * 2 ^ sh) (- sh)) as (m & e & Hr & Hm & He & Herr & Hex);
    [nia|rewrite HdQ; lia|lia|rewrite HdQ; lia|].
  rewrite HdQ in *.
  assert (HKdef : ∃ K, K = D + sh - 53) by eauto.
  destruct HKdef as [K HKdef]. rewrite <- HKdef in *.
  assert (HK : 0 ≤ K) by lia.
  assert (HPK : 0 < 2 ^ K) by (apply Z.pow_pos_nonneg; lia).
  exists m, e. split; [done|]. split; [done|].
  replace (e - - sh) with (e + sh) in * by lia.
  destruct (Z_lt_le_dec 0 sh) as [Hpos|Hzero].
  - (* the quotient is below 2^53: it is represented exactly *)
    assert (HKsh : K ≤ sh) by lia.
    assert (Hexact : Z.pos m * 2 ^ (e + sh) = A * 2 ^ sh).
    { apply Hex. replace sh with (sh - K + K) by lia.
      rewrite Z.pow_add_r, Z.mul_assoc by lia. apply Z_mod_mult. }
    assert (HeK : e + sh = K).
    { assert (52 + (e + sh) < 53 + K); [|lia].
      apply (pow2_lt_cancel _ _ (A * 2 ^ sh)).
      - rewrite Z.pow_add_r by lia. nia.
      - replace (53 + K) with (D + sh) by lia.
        rewrite Z.pow_add_r by lia. nia. }
    split; [lia|]. split; [|lia].
    intros _. rewrite HeK in Hexact.
    assert (Hsplit : 2 ^ sh = 2 ^ (- e) * 2 ^ K)
      by (rewrite <- Z.pow_add_r by lia; f_equal; lia).
    rewrite Hsplit in Hexact. nia.
  - (* the quotient is n^2 itself, rounded to 53 bits *)
    assert (Hs0 : sh = 0) by lia.
    assert (Hp0 : 2 ^ sh = 1) by (by rewrite Hs0).
    rewrite Hp0 in Herr. replace (e + sh) with e in * by lia.
    replace (A * 1) with A in Herr by lia.
    assert (HPe : 0 < 2 ^ e) by (apply Z.pow_pos_nonneg; lia).
    assert (HeK : 2 ^ K ≤ 2 ^ e) by (apply Z.pow_le_mono_r; lia).
    assert (He53 : e ≤ 53).
    { destruct (Z_le_gt_dec e 53) as [|Hgt]; [done|exfalso].
      assert (e = 54) by lia. assert (K = 53) by lia. subst e K.
      change (2 ^ 53) with 9007199254740992 in *.
      change (2 ^ 54) with 18014398509481984 in *.
      change (2 ^ 52) with 4503599627370496 in *.
      lia. }
    split; [lia|]. split.
    + intros He0. assert (e = 0) by lia. assert (K = 0) by lia. subst e K.
      change (2 ^ 0) with 1 in *. lia.
    + intros _. lia.
Qed.

Lemma sqrt_near_square c m' :
  1 ≤ c → c * c - c < m' ≤ c * c + c →
  (Z.sqrt m' = c ∧ 0 ≤ m' - c * c ≤ c) ∨
  (Z.sqrt m' + 1 = c ∧ Z.sqrt m' < m' - Z.sqrt m' * Z.sqrt m').
Proof.
  intros Hc Hm. destruct (Z_le_gt_dec (c * c) m') as [Hge|Hlt].
  - left. rewrite (Z.sqrt_unique m' c) by lia. lia.
  - right. rewrite (Z.sqrt_unique m' (c - 1)) by lia. lia.
Qed.

Lemma sqrt_round_math n m e :
  1 ≤ n → 2 ^ 52 ≤ m < 2 ^ 53 → -52 ≤ e ≤ 53 →
  (e ≤ 0 → m = n ^ 2 * 2 ^ (- e)) →
  (1 ≤ e → 2 * Z.abs (m * 2 ^ e - n ^ 2) ≤ 2 ^ e) →
  let t := 26 - e / 2 in
  let s := e - 2 * (e / 2 - 26) in
  let c := n * 2 ^ t in
  0 ≤ t ∧ 52 ≤ s ≤ 53 ∧ 2 ^ 52 ≤ c < 2 ^ 53 ∧
  c * c - c < m * 2 ^ s ≤ c * c + c.
Proof.
  intros Hn Hm He Hexact Hnear t s c.
  pose proof (Z.div_mod e 2 ltac:(lia)) as Hdm.
  pose proof (Z.mod_pos_bound e 2 ltac:(lia)) as Hb.
  assert (Ht : 0 ≤ t) by (unfold t; lia).
  assert (Hs : s = 52 + e mod 2) by (unfold s; lia).
  assert (HT : 0 < 2 ^ t) by (apply Z.pow_pos_nonneg; lia).
  assert (Hcc : c * c = n ^ 2 * 2 ^ (2 * t)).
  { unfold c. replace (2 * t) with (t + t) by lia. rewrite Z.pow_add_r by lia. lia. }
  assert (Herr : 2 * Z.abs (m * 2 ^ s - c * c) ≤ 2 ^ s).
  { destruct (Z_le_gt_dec e 0) as [He0|He1].
    - rewrite (Hexact He0), Hcc, <- Z.mul_assoc, <- Z.pow_add_r by lia.
      replace (- e + s) with (2 * t) by (unfold t; lia).
      rewrite Z.sub_diag. simpl. pose proof (Z.pow_nonneg 2 s). lia.
    - assert (Hsplit : 2 ^ s = 2 ^ e * 2 ^ (2 * t))
        by (rewrite <- Z.pow_add_r by lia; f_equal; unfold t; lia).
      assert (0 < 2 ^ (2 * t)) by (apply Z.pow_pos_nonneg; lia).
      rewrite Hcc, Hsplit, Z.mul_assoc.
      specialize (Hnear ltac:(lia)). nia. }
  assert (Hc0 : 0 ≤ c) by (unfold c; nia).
  clearbody c s t. clear Hcc Hexact Hnear Hdm.
  change (2 ^ 52) with 4503599627370496 in *.
  change (2 ^ 53) with 9007199254740992 in *.
  split; [done|]. split; [lia|].
  assert (Hs' : s = 52 ∨ s = 53) by lia.
  destruct Hs' as [-> | ->].
  - change (2 ^ 52) with 4503599627370496 in *.
    assert (4503599627370496 ≤ c).
    { destruct (Z_le_gt_dec 4503599627370496 c) as [|Hlt]; [done|exfalso].
      assert (c * c ≤ 4503599627370495 * 4503599627370495) by nia. lia. }
    assert (c < 9007199254740992).
    { destruct (Z_lt_le_dec c 9007199254740992) as [|Hge]; [done|exfalso].
      assert (9007199254740992 * 9007199254740992 ≤ c * c) by nia. lia. }
    lia.
  - change (2 ^ 53) with 9007199254740992 in *.
    assert (4503599627370496 < c).
    { destruct (Z_lt_le_dec 4503599627370496 c) as [|Hle]; [done|exfalso].
      assert (c * c ≤ 4503599627370496 * 4503599627370496) by nia. lia. }
    assert (c < 9007199254740992).
    { destruct (Z_lt_le_dec c 9007199254740992) as [|Hge]; [done|exfalso].
      assert (9007199254740992 * 9007199254740992 ≤ c * c) by nia. lia. }
    lia.
Qed.

Lemma round_record_of_loc q l :
  round_nearest_even (shr_m (shr_record_of_loc q l))
                     (loc_of_shr_record (shr_record_of_loc q l))
  = round_nearest_even q l.
Proof. destruct l as [|[]]; done. Qed.

Lemma SFsqrt_square n m e :
  1 ≤ n → 2 ^ 52 ≤ Zpos m < 2 ^ 53 → -52 ≤ e ≤ 53 →
  (e ≤ 0 → Zpos m = n ^ 2 * 2 ^ (- e)) →
  (1 ≤ e → 2 * Z.abs (Zpos m * 2 ^ e - n ^ 2) ≤ 2 ^ e) →
  ∃ mf, SFsqrt 53 1024 (S754_finite false m e) = S754_finite false mf (e / 2 - 26) ∧
        Zpos mf = n * 2 ^ (26 - e / 2).
Proof.
  intros Hn Hm He Hexact Hnear.
  destruct (sqrt_round_math n (Zpos m) e Hn Hm He Hexact Hnear) as (Ht & Hs & Hc & Hmc).
  set (t := 26 - e / 2) in *. set (s := e - 2 * (e / 2 - 26)) in *.
  set (c := n * 2 ^ t) in *.
  cbn [SFsqrt]. unfold SFsqrt_core_binary.
  rewrite (Zdigits2_unique (Zpos m) 53) by lia.
  rewrite Z.div2_div.
  replace ((53 + e + 1) / 2) with (27 + e / 2)
    by (replace (53 + e + 1) with (e + 27 * 2) by lia; rewrite Z.div_add by lia; lia).
  rewrite fexp_big by lia. rewrite Z.div2_div.
  replace (Z.min (27 + e / 2 - 53) (e / 2)) with (e / 2 - 26) by lia.
  fold s.
  assert (Hm' : match s with
                | 0 => Z.pos m
                | Z.pos _ => Z.shiftl (Z.pos m) s
                | Z.neg _ => 0
                end = Zpos m * 2 ^ s).
  { destruct s as [|p|p] eqn:E; [lia| |lia]. rewrite Z.shiftl_mul_pow2 by lia. done. }
  rewrite Hm'. set (m' := Zpos m * 2 ^ s) in *.
  assert (Hm'b : 2 ^ 104 ≤ m' < 2 ^ 106).
  { assert (2 ^ 52 ≤ 2 ^ s ≤ 2 ^ 53) by (split; apply Z.pow_le_mono_r; lia).
    change (2 ^ 104) with (2 ^ 52 * 2 ^ 52). change (2 ^ 106) with (2 ^ 53 * 2 ^ 53).
    unfold m'. nia. }
  pose proof (Z.sqrtrem_spec m' ltac:(lia)) as Hspec.
  pose proof (Z.sqrtrem_sqrt m') as Hfst.
  destruct (Z.sqrtrem m') as [q r]. cbn [fst] in Hfst. subst q.
  destruct Hspec as [Hqr Hr].
  assert (Hq : 2 ^ 52 ≤ Z.sqrt m' < 2 ^ 53).
  { split.
    - change (2 ^ 52) with (Z.sqrt (2 ^ 104)). apply Z.sqrt_le_mono. lia.
    - apply Z.sqrt_lt_square; [lia|lia|]. change (2 ^ 53 * 2 ^ 53) with (2 ^ 106). lia. }
  rewrite binary_round_aux_finish. unfold shr_fexp at 2 3 4.
  rewrite (Zdigits2_unique (Z.sqrt m') 53) by lia.
  rewrite fexp_big by lia.
  replace (53 + (e / 2 - 26) - 53 - (e / 2 - 26)) with 0 by lia.
  cbn [shr fst snd]. rewrite round_record_of_loc.
  assert (Hround : round_nearest_even (Z.sqrt m')
            (if r =? 0 then loc_Exact
             else loc_Inexact (if r <=? Z.sqrt m' then Lt else Gt)) = c).
  { destruct (sqrt_near_square c m' ltac:(lia) Hmc) as [[Hq1 Hr1]|[Hq1 Hr1]].
    - destruct (r =? 0); [done|]. destruct (r <=? Z.sqrt m') eqn:E; [done|lia].
    - destruct (r =? 0) eqn:E0; [lia|]. destruct (r <=? Z.sqrt m') eqn:E; [lia|].
      cbn [round_nearest_even]. lia. }
  rewrite Hround.
  destruct (second_stage c (e / 2 - 26)) as (mf & ef & Hfin & Hmf & Hef & Hval);
    [lia|lia|lia|].
  assert (ef = e / 2 - 26).
  { destruct (Z.eq_dec ef (e / 2 - 26)) as [|Hne]; [done|exfalso].
    replace (ef - (e / 2 - 26)) with 1 in Hval by lia. change (2 ^ 1) with 2 in Hval.
    change (2 ^ 52) with 4503599627370496 in *.
    change (2 ^ 53) with 9007199254740992 in *. lia. }
  subst ef. rewrite Z.sub_diag, Z.pow_0_r in Hval.
  exists mf. split; [done|]. lia.
Qed.

Lemma true_div_square n :
  1 ≤ n < 2 ^ 53 →
  ∃ m e,
    PyFloat.true_div (n ^ 2 * Config.XP_PER_LEVEL_BASE) Config.XP_PER_LEVEL_BASE
      = Ok (S754_finite false m e) ∧
    2 ^ 52 ≤ Zpos m < 2 ^ 53 ∧ -52 ≤ e ≤ 53 ∧
    (e ≤ 0 → Zpos m = n ^ 2 * 2 ^ (- e)) ∧
    (1 ≤ e → 2 * Z.abs (Zpos m * 2 ^ e - n ^ 2) ≤ 2 ^ e).
Proof.
  intros Hn. destruct (div_square_round n Hn) as (m & e & Hdiv & Hrest).
  exists m, e. split; [|done].
  unfold PyFloat.true_div, PyFloat.prec, PyFloat.emax, Config.XP_PER_LEVEL_BASE.
  assert (0 < n ^ 2 * 100) by nia.
  change (100 =? 0) with false. change (100 <? 0) with false. change (Z.abs 100) with 100.
  destruct (n ^ 2 * 100 =? 0) eqn:E0; [lia|].
  destruct (n ^ 2 * 100 <? 0) eqn:E1; [lia|].
  rewrite Z.abs_eq by lia. cbn [xorb].
  destruct (SFdiv_core_binary 53 1024 (n ^ 2 * 100) 0 100 0) as [[q e'] l].
  by rewrite Hdiv.
Qed.

Lemma int_of_sqrt n mf e :
  1 ≤ n → -52 ≤ e ≤ 53 → Zpos mf = n * 2 ^ (26 - e / 2) →
  PyFloat.int (S754_finite false mf (e / 2 - 26)) = Ok n.
Proof.
  intros Hn He Hmf. unfold PyFloat.int. f_equal.
  pose proof (Z.div_mod e 2 ltac:(lia)). pose proof (Z.mod_pos_bound e 2 ltac:(lia)).
  destruct (e / 2 - 26) as [|p|p] eqn:E; [|lia|].
  - rewrite Z.shiftl_0_r, Hmf. replace (26 - e / 2) with 0 by lia. simpl. lia.
  - rewrite Z.shiftr_div_pow2 by lia. rewrite Hmf.
    replace (26 - e / 2) with (Z.pos p) by lia.
    apply Z.div_mul. pose proof (Z.pow_pos_nonneg 2 (Z.pos p)). lia.
Qed.

(** C2 (as amended): for every level [L] from 1 to [2^53 + 1] the level
    computed from the xp required for [L] is [L]. *)
Theorem C2_round_trip L :
  1 ≤ L ≤ 2 ^ 53 + 1 →
  calculate_level_from_xp (calculate_xp_for_level L) = Ok L.
Proof.
  intros HL.
  destruct (Z.eq_dec L 1) as [->|H1]; [vm_compute; reflexivity|].
  destruct (Z.eq_dec L (2 ^ 53 + 1)) as [->|H2]; [vm_compute; reflexivity|].
  unfold calculate_xp_for_level. destruct (L <=? 1) eqn:E; [lia|].
  set (n := L - 1). assert (Hn : 1 ≤ n < 2 ^ 53) by (unfold n; lia).
  unfold calculate_level_from_xp.
  destruct (n ^ 2 * Config.XP_PER_LEVEL_BASE <? 0) eqn:Eneg;
    [unfold Config.XP_PER_LEVEL_BASE in Eneg; nia|].
  destruct (true_div_square n Hn) as (m & e & -> & Hm & He & Hexact & Hnear).
  cbn [mbind result_bind PyFloat.sqrt].
  destruct (SFsqrt_square n m e ltac:(lia) Hm He Hexact Hnear) as (mf & Hsqrt & Hmf).
  unfold PyFloat.prec, PyFloat.emax. rewrite Hsqrt.
  rewrite (int_of_sqrt n mf e) by (done || lia).
  cbn [mbind result_bind]. f_equal. unfold n. lia.
Qed.

Lemma C2_round_trip_witness :
  calculate_level_from_xp (calculate_xp_for_level 5) = Ok 5.
Proof. apply (C2_round_trip 5). vm_compute. split; discriminate. Defined.

(** C2 (as stated) fails: the xp required for level [2^53 + 2] gives level
    [2^53 + 1], and for level [2^512 + 1] the division overflows. *)
Lemma C2_round_trip_fails :
  ¬ (∀ L, 1 ≤ L → calculate_level_from_xp (calculate_xp_for_level L) = Ok L).
Proof.
  intros H. specialize (H (2 ^ 53 + 2) ltac:(lia)).
  vm_compute in H. discriminate.
Qed.

Lemma calculate_level_from_xp_overflow :
  calculate_level_from_xp (calculate_xp_for_level (2 ^ 512 + 1)) = Raise OverflowError.
Proof. vm_compute. reflexivity. Qed.

(** The float model at values computed by CPython: [1 / 3], [10**30 / 7],
    [-7 / 2], [math.sqrt(2 / 1)] and [int(math.sqrt(12345678901234567890123 / 100))]. *)
Example true_div_values :
  PyFloat.true_div 1 3 = Ok (S754_finite false 6004799503160661 (-54)) ∧
  PyFloat.true_div (10 ^ 30) 7 = Ok (S754_finite false 8120488408686859 44) ∧
  PyFloat.true_div (-7) 2 = Ok (S754_finite true 7881299347898368 (-51)) ∧
  (q ← PyFloat.true_div 2 1; PyFloat.sqrt q)
    = Ok (S754_finite false 6369051672525773 (-52)) ∧
  (q ← PyFloat.true_div 12345678901234567890123 100; r ← PyFloat.sqrt q; PyFloat.int r)
    = Ok 11111111061.
Proof. repeat split; vm_compute; reflexivity. Qed.

(** ** The cooldown comparison *)

(** [time_diff.total_seconds() >= cooldown_seconds] is a comparison of a
    rounded quotient.  The quotient is rounded to the nearest double, and a
    double next to [2^34] is less than two microseconds from its neighbours:
    for a cooldown above [- 2^34] and up to [2^34] seconds the comparison is
    that of the microseconds with [cooldown_seconds * 10^6]. *)

Lemma shr_iter_loc Q l k :
  0 ≤ Q →
  @Nat.iter (S k) _ shr_1 (shr_record_of_loc Q l) =
  Build_shr_record (Q / 2 ^ Z.of_nat (S k)) (Z.odd (Q / 2 ^ Z.of_nat k))
                   (negb (Q mod 2 ^ Z.of_nat k =? 0) ||
                    match l with loc_Exact => false | _ => true end).
Proof.
  intros HQ. induction k as [|k IH].
  - cbn [Nat.iter]. change (Z.of_nat 1) with 1. change (Z.of_nat 0) with 0.
    rewrite Z.pow_0_r, Z.pow_1_r, Z.div_1_r, Z.mod_1_r.
    destruct l as [|[]]; cbn [shr_record_of_loc]; by rewrite shr_1_nonneg by done.
  - rewrite Nat.iter_succ, IH.
    assert (0 < 2 ^ Z.of_nat k) by (apply Z.pow_pos_nonneg; lia).
    assert (H2 : 2 ^ Z.of_nat (S k) = 2 ^ Z.of_nat k * 2)
      by (rewrite Nat2Z.inj_succ, Z.pow_succ_r by lia; lia).
    rewrite shr_1_nonneg by (apply Z.div_pos; lia).
    f_equal.
    + replace (2 ^ Z.of_nat (S (S k))) with (2 ^ Z.of_nat (S k) * 2)
        by (rewrite (Nat2Z.inj_succ (S k)), Z.pow_succ_r by lia; lia).
      rewrite Z.div_div by lia. done.
    + rewrite H2.
      pose proof (Z.div_mod Q (2 ^ Z.of_nat k * 2) ltac:(lia)) as E1.
      pose proof (Z.div_mod Q (2 ^ Z.of_nat k) ltac:(lia)) as E2.
      pose proof (Z.div_mod (Q / 2 ^ Z.of_nat k) 2 ltac:(lia)) as E3.
      rewrite <- (Z.div_div Q _ 2) in E1 by lia.
      pose proof (Z.mod_pos_bound Q (2 ^ Z.of_nat k * 2) ltac:(lia)).
      pose proof (Z.mod_pos_bound Q (2 ^ Z.of_nat k) ltac:(lia)).
      pose proof (Z.mod_pos_bound (Q / 2 ^ Z.of_nat k) 2 ltac:(lia)).
      rewrite Zodd_mod.
      destruct (match l with loc_Exact => false | _ => true end);
        [by rewrite !orb_true_r|rewrite !orb_false_r].
      destruct (Z.eqb_spec (Q mod 2 ^ Z.of_nat k) 0) as [Ea|Ea];
      destruct (Z.eqb_spec ((Q / 2 ^ Z.of_nat k) mod 2) 1) as [Eb|Eb];
      destruct (Z.eqb_spec (Q mod (2 ^ Z.of_nat k * 2)) 0) as [Ec|Ec]; simpl; try done; nia.
Qed.

Lemma new_location_even_cases D r :
  Z.even D = true → 0 ≤ r →
  (r = 0 ∧ new_location D r = loc_Exact) ∨
  (0 < r ∧ 2 * r < D ∧ new_location D r = loc_Inexact Lt) ∨
  (0 < r ∧ 2 * r = D ∧ new_location D r = loc_Inexact Eq) ∨
  (0 < r ∧ D < 2 * r ∧ new_location D r = loc_Inexact Gt).
Proof.
  intros Heven Hr. unfold new_location. rewrite Heven. unfold new_location_even.
  destruct (r =? 0) eqn:E0; [left; split; [lia|done]|right].
  destruct (Z.compare_spec (2 * r) D) as [Hc|Hc|Hc].
  - right. left. split; [lia|]. by split.
  - left. split; [lia|]. by split.
  - right. right. split; [lia|]. by split.
Qed.

(** The first rounding of [binary_round_aux] on a quotient [Q] with
    remainder [r] by [D]: the result is the floor or the floor plus one of
    the quotient shifted by [K] bits, and not off it by more than a half. *)
Lemma round_div_first Q E r D :
  0 < Q → 53 ≤ Zdigits2 Q → -1021 ≤ E → 0 ≤ r < D → Z.even D = true →
  ∃ m2,
    snd (shr_fexp 53 1024 Q E (new_location D r)) = E + (Zdigits2 Q - 53) ∧
    round_nearest_even
      (shr_m (fst (shr_fexp 53 1024 Q E (new_location D r))))
      (loc_of_shr_record (fst (shr_fexp 53 1024 Q E (new_location D r)))) = m2 ∧
    Q / 2 ^ (Zdigits2 Q - 53) ≤ m2 ≤ Q / 2 ^ (Zdigits2 Q - 53) + 1 ∧
    2 * Z.abs (m2 * 2 ^ (Zdigits2 Q - 53) * D - (Q * D + r)) ≤ 2 ^ (Zdigits2 Q - 53) * D.
Proof.
  intros HQ Hd HE Hr Heven.
  assert (HKdef : ∃ K, K = Zdigits2 Q - 53) by eauto. destruct HKdef as [K HK].
  rewrite <- HK. assert (HK0 : 0 ≤ K) by lia.
  unfold shr_fexp. rewrite fexp_big by lia.
  replace (Zdigits2 Q + E - 53 - E) with K by lia.
  destruct K as [|p|p] eqn:EK; [| |lia].
  - cbn [shr fst snd]. rewrite round_record_of_loc.
    eexists. split; [lia|]. split; [done|].
    rewrite Z.pow_0_r, Z.div_1_r, !Z.mul_1_r, Z.mul_1_l.
    destruct (new_location_even_cases D r Heven ltac:(lia))
      as [[? ->]|[(? & ? & ->)|[(? & ? & ->)|(? & ? & ->)]]];
      cbn [round_nearest_even]; try lia.
    destruct (Z.even Q); lia.
  - cbn [shr fst snd]. rewrite iter_pos_nat.
    destruct (Pos2Nat.is_succ p) as [k Hk]. rewrite Hk.
    rewrite shr_iter_loc by lia.
    replace (Z.pos p) with (Z.of_nat (S k)) by lia.
    cbn [shr_m loc_of_shr_record].
    eexists. split; [done|]. split; [done|].
    assert (Hpk : 0 < 2 ^ Z.of_nat k) by (apply Z.pow_pos_nonneg; lia).
    assert (HKp : 2 ^ Z.of_nat (S k) = 2 ^ Z.of_nat k * 2)
      by (rewrite Nat2Z.inj_succ, Z.pow_succ_r by lia; lia).
    rewrite HKp.
    pose proof (Z.div_mod Q (2 ^ Z.of_nat k) ltac:(lia)) as E2.
    pose proof (Z.div_mod (Q / 2 ^ Z.of_nat k) 2 ltac:(lia)) as E3.
    pose proof (Z.mod_pos_bound Q (2 ^ Z.of_nat k) ltac:(lia)) as B2.
    pose proof (Z.mod_pos_bound (Q / 2 ^ Z.of_nat k) 2 ltac:(lia)) as B3.
    rewrite <- (Z.div_div Q _ 2) by lia.
    assert (Hix : match new_location D r with loc_Exact => false | _ => true end
                  = negb (r =? 0)).
    { destruct (new_location_even_cases D r Heven ltac:(lia))
        as [[-> ->]|[(? & ? & ->)|[(? & ? & ->)|(? & ? & ->)]]]; try done;
        by destruct (Z.eqb_spec r 0); [lia|]. }
    rewrite Hix, Zodd_mod.
    set (a := Q / 2 ^ Z.of_nat k) in *. set (P := 2 ^ Z.of_nat k) in *.
    set (lo := Q mod P) in *. set (h := a / 2) in *.
    clearbody a P lo h.
    assert (HPD : 0 < P * D) by nia.
    assert (HloD : 0 ≤ lo * D ∧ lo * D + r < P * D) by nia.
    assert (Hlo1 : lo ≠ 0 → 0 < lo * D) by nia.
    assert (Hb : a mod 2 = 0 ∨ a mod 2 = 1) by lia.
    assert (HQD : Q * D = 2 * h * (P * D) + (a mod 2) * (P * D) + lo * D) by nia.
    destruct (Z.eqb_spec (a mod 2) 1) as [Eb|Eb];
      [|assert (Eb0 : a mod 2 = 0) by lia; clear Hb Eb; rename Eb0 into Eb];
      rewrite Eb in HQD;
      destruct (Z.eqb_spec lo 0) as [Ea|Ea];
      destruct (Z.eqb_spec r 0) as [Er|Er];
      cbn [negb orb round_nearest_even]; try (destruct (Z.even h));
      try specialize (Hlo1 Ea); try rewrite Ea in *; (split; [lia|]); lia.
Qed.

Lemma second_stage_total m2 e' :
  2 ^ 52 ≤ m2 ≤ 2 ^ 53 → -1021 ≤ e' →
  (finish false (shr_fexp 53 1024 m2 e' loc_Exact) = S754_infinity false ∧ 970 < e') ∨
  ∃ m e, finish false (shr_fexp 53 1024 m2 e' loc_Exact) = S754_finite false m e ∧
         2 ^ 52 ≤ Zpos m < 2 ^ 53 ∧ e' ≤ e ≤ e' + 1 ∧ Zpos m * 2 ^ (e - e') = m2.
Proof.
  intros Hm2 He1.
  destruct (Z_le_gt_dec e' 960) as [He2|He2]; [right; by apply second_stage|].
  unfold shr_fexp.
  destruct (Z.eq_dec m2 (2 ^ 53)) as [->|Hne].
  - rewrite (Zdigits2_unique (2 ^ 53) 54) by lia.
    rewrite fexp_big by lia. replace (54 + e' - 53 - e') with 1 by lia.
    cbn [shr_record_of_loc shr SpecFloat.iter_pos].
    rewrite shr_1_nonneg by lia. cbn [finish shr_m].
    change (2 ^ 53 / 2) with (Z.pos (2 ^ 52)%positive).
    destruct (e' + 1 <=? 1024 - 53) eqn:E; [|left; split; [done|lia]].
    right. eexists _, _. split; [done|]. replace (e' + 1 - e') with 1 by lia.
    split; [|split]; [|lia|]; vm_compute; done.
  - assert (0 < m2) by lia. destruct m2 as [|m|m]; try lia.
    rewrite (Zdigits2_unique (Z.pos m) 53) by lia.
    rewrite fexp_big by lia. replace (53 + e' - 53 - e') with 0 by lia.
    cbn [shr_record_of_loc shr finish shr_m].
    destruct (e' <=? 1024 - 53) eqn:E; [|left; split; [done|lia]].
    right. eexists _, _. split; [done|]. rewrite Z.sub_diag, Z.pow_0_r. lia.
Qed.

(** [binary_round_aux] on a quotient [Q] with remainder [r] by an even [D]:
    an infinity only from an exponent above 970, and otherwise a double that
    is not below the quotient rounded down to 53 bits and not off the
    quotient by more than half a unit of the place it was rounded at. *)
Lemma binary_round_aux_div Q E r D :
  0 < Q → 53 ≤ Zdigits2 Q → -1021 ≤ E → 0 ≤ r < D → Z.even D = true →
  (binary_round_aux 53 1024 false Q E (new_location D r) = S754_infinity false ∧
   970 < E + (Zdigits2 Q - 53)) ∨
  ∃ m e,
    binary_round_aux 53 1024 false Q E (new_location D r) = S754_finite false m e ∧
    2 ^ 52 ≤ Zpos m < 2 ^ 53 ∧
    E + (Zdigits2 Q - 53) ≤ e ≤ E + (Zdigits2 Q - 53) + 1 ∧
    Q / 2 ^ (Zdigits2 Q - 53) ≤ Zpos m * 2 ^ (e - (E + (Zdigits2 Q - 53))) ∧
    2 * Z.abs (Zpos m * 2 ^ (e - (E + (Zdigits2 Q - 53))) * 2 ^ (Zdigits2 Q - 53) * D
               - (Q * D + r)) ≤ 2 ^ (Zdigits2 Q - 53) * D.
Proof.
  intros HQ Hd HE Hr Heven.
  destruct (round_div_first Q E r D HQ Hd HE Hr Heven) as (m2 & Hsh & Hm2 & Hb & Hnear).
  assert (HKdef : ∃ K, K = Zdigits2 Q - 53) by eauto. destruct HKdef as [K HK].
  rewrite <- HK in *. assert (HK0 : 0 ≤ K) by lia.
  pose proof (Zdigits2_bounds Q HQ) as HQb.
  replace (Zdigits2 Q) with (53 + K) in HQb by lia.
  replace (53 + K - 1) with (52 + K) in HQb by lia.
  rewrite !Z.pow_add_r in HQb by lia.
  assert (HP : 0 < 2 ^ K) by (apply Z.pow_pos_nonneg; lia).
  assert (Hm1 : 2 ^ 52 ≤ Q / 2 ^ K < 2 ^ 53).
  { split; [apply Z.div_le_lower_bound; lia|apply Z.div_lt_upper_bound; lia]. }
  rewrite binary_round_aux_finish, Hsh, Hm2.
  destruct (second_stage_total m2 (E + K)) as [[Hinf Hbig]|(m & e & Hfin & Hmb & Heb & Hval)];
    [lia|lia|by left|].
  right. exists m, e. split; [done|]. split; [done|]. split; [done|].
  rewrite Hval. split; [lia|done].
Qed.

Lemma finish_opp x : finish true x = SFopp (finish false x).
Proof.
  destruct x as [mrs e]. unfold finish. destruct (shr_m mrs); [done| |done].
  by destruct (_ <=? _).
Qed.

(** A negative difference gives the opposite of the double of its absolute
    value. *)
Lemma total_seconds_opp us :
  us < 0 → PyFloat.total_seconds us = SFopp (PyFloat.total_seconds (- us)).
Proof.
  intros Hneg. unfold PyFloat.total_seconds, PyFloat.prec, PyFloat.emax.
  destruct (Z.eqb_spec us 0) as [?|_]; [lia|].
  destruct (Z.eqb_spec (- us) 0) as [?|_]; [lia|].
  destruct (Z.ltb_spec us 0) as [_|?]; [|lia].
  destruct (Z.ltb_spec (- us) 0) as [?|_]; [lia|].
  rewrite Z.abs_opp.
  destruct (SFdiv_core_binary 53 1024 (Z.abs us) 0 1000000 0) as [[q e] l].
  rewrite !binary_round_aux_finish. apply finish_opp.
Qed.

(** The double of a positive difference [us]: an infinity only from [2^73]
    microseconds on, and otherwise [m * 2^e], where [2^s * us / 10^6] has
    [53 + K] bits and [m * 2^j] is that quotient rounded to the nearest at
    bit [K]. *)
Lemma total_seconds_pos us :
  0 < us →
  (PyFloat.total_seconds us = S754_infinity false ∧ 2 ^ 73 ≤ us) ∨
  ∃ m e s K j,
    PyFloat.total_seconds us = S754_finite false m e ∧
    2 ^ 52 ≤ Zpos m ∧ 0 ≤ s ∧ 0 ≤ K ∧ 0 ≤ j ≤ 1 ∧ e = K + j - s ∧
    2 ^ 52 * 2 ^ K * 1000000 ≤ us * 2 ^ s ∧
    2 * Z.abs (Zpos m * 2 ^ j * 2 ^ K * 1000000 - us * 2 ^ s) ≤ 2 ^ K * 1000000.
Proof.
  intros Hus. unfold PyFloat.total_seconds, PyFloat.prec, PyFloat.emax.
  destruct (Z.eqb_spec us 0) as [?|_]; [lia|].
  destruct (Z.ltb_spec us 0) as [?|_]; [lia|].
  rewrite Z.abs_eq by lia.
  unfold SFdiv_core_binary. change (Zdigits2 1000000) with 20.
  pose proof (Zdigits2_bounds us Hus) as [Hlo Hhi].
  assert (Hd1 : 1 ≤ Zdigits2 us).
  { assert (0 < Zdigits2 us); [|lia].
    apply (pow2_lt_cancel _ _ us); [change (2 ^ 0) with 1; lia|done]. }
  set (d := Zdigits2 us) in *. clearbody d.
  unfold fexp, emin.
  replace (Z.min (Z.max (d + 0 - (20 + 0) - 53) (3 - 1024 - 53)) (0 - 0))
    with (Z.min (d - 73) 0) by lia.
  assert (Hsdef : ∃ s, s = 0 - 0 - Z.min (d - 73) 0) by eauto.
  destruct Hsdef as [s Hs]. rewrite <- Hs.
  assert (Hs0 : 0 ≤ s) by lia.
  assert (Hm' : match s with
                | 0 => us
                | Z.pos _ => Z.shiftl us s
                | Z.neg _ => 0
                end = us * 2 ^ s).
  { destruct s as [|p|p] eqn:E; [rewrite Z.pow_0_r; lia| |lia].
    by rewrite Z.shiftl_mul_pow2 by lia. }
  rewrite Hm'.
  assert (HPs : 0 < 2 ^ s) by (apply Z.pow_pos_nonneg; lia).
  pose proof (Z_div_mod_eq_full (us * 2 ^ s) 1000000) as Hdm.
  pose proof (Z.mod_pos_bound (us * 2 ^ s) 1000000 ltac:(lia)) as Hmb.
  unfold Z.div, Z.modulo in Hdm, Hmb.
  destruct (Z.div_eucl (us * 2 ^ s) 1000000) as [q r].
  (* the quotient has 53 bits or more *)
  assert (Hq52 : 2 ^ 52 ≤ q).
  { assert (2 ^ 72 ≤ us * 2 ^ s).
    { destruct (Z_le_gt_dec d 73) as [Hd|Hd].
      - replace 72 with (d - 1 + s) by lia. rewrite Z.pow_add_r by lia. nia.
      - assert (Hs' : s = 0) by lia. rewrite Hs', Z.pow_0_r, Z.mul_1_r.
        etransitivity; [|exact Hlo]. apply Z.pow_le_mono_r; lia. }
    change (2 ^ 72) with 4722366482869645213696 in *.
    change (2 ^ 52) with 4503599627370496. lia. }
  assert (HdQ : 53 ≤ Zdigits2 q).
  { pose proof (Zdigits2_bounds q ltac:(lia)) as [_ Hqhi].
    assert (52 < Zdigits2 q); [|lia]. apply (pow2_lt_cancel _ _ q); [lia|done]. }
  pose proof (Zdigits2_bounds q ltac:(lia)) as [Hqlo Hqhi].
  destruct (binary_round_aux_div q (Z.min (d - 73) 0) r 1000000)
    as [[-> Hbig]|(m & e & -> & Hm & He & Hfloor & Hnear)];
    [lia|lia|lia|lia|done| |].
  - (* overflow *)
    left. split; [done|].
    assert (Hd73 : 73 < d).
    { destruct (Z_le_gt_dec d 73) as [Hd|Hd]; [|lia]. exfalso.
      assert (Zdigits2 q - 1 < 54); [|lia].
      apply (pow2_lt_cancel _ _ q); [done|].
      assert (us * 2 ^ s < 2 ^ 73).
      { replace 73 with (d + s) by lia. rewrite Z.pow_add_r by lia. nia. }
      change (2 ^ 73) with 9444732965739290427392 in *.
      change (2 ^ 54) with 18014398509481984. lia. }
    etransitivity; [|exact Hlo]. apply Z.pow_le_mono_r; lia.
  - right. exists m, e, s, (Zdigits2 q - 53), (e - (Z.min (d - 73) 0 + (Zdigits2 q - 53))).
    split; [done|]. split; [lia|]. split; [done|]. split; [lia|]. split; [lia|].
    split; [lia|].
    replace (Zdigits2 q - 1) with (52 + (Zdigits2 q - 53)) in Hqlo by lia.
    rewrite Z.pow_add_r in Hqlo by lia.
    split; [lia|].
    replace (us * 2 ^ s) with (q * 1000000 + r) by lia. done.
Qed.

Lemma pow2_gap K s :
  0 ≤ K → 0 ≤ s → 2 ^ 52 * 2 ^ K < 2 ^ 34 * 2 ^ s →
  ∃ T, 2 ^ s = T * 2 ^ K ∧ 2 ^ 19 ≤ T.
Proof.
  intros HK Hs Hlt. rewrite <- !Z.pow_add_r in Hlt by lia.
  apply Z.pow_lt_mono_r_iff in Hlt; [|lia|lia].
  exists (2 ^ (s - K)). split.
  - rewrite <- Z.pow_add_r by lia. f_equal. lia.
  - apply Z.pow_le_mono_r; lia.
Qed.

(** Comparing a quotient rounded to the nearest with an integer [C] is
    comparing the dividend with [C * 10^6]: from below up to [C = 2^34], and
    from above up to [C < 2^34]. *)
Lemma nearest_compare M K s U C :
  2 ^ 52 ≤ M → 0 ≤ K → 0 ≤ s → 0 ≤ C ≤ 2 ^ 34 →
  2 ^ 52 * 2 ^ K * 1000000 ≤ U * 2 ^ s →
  2 * Z.abs (M * 2 ^ K * 1000000 - U * 2 ^ s) ≤ 2 ^ K * 1000000 →
  (C * 2 ^ s ≤ M * 2 ^ K ↔ C * 1000000 ≤ U) ∧
  (C < 2 ^ 34 → (M * 2 ^ K ≤ C * 2 ^ s ↔ U ≤ C * 1000000)).
Proof.
  intros HM HK Hs HC Hlow Hnear.
  assert (HP : 0 < 2 ^ K) by (apply Z.pow_pos_nonneg; lia).
  assert (HS : 0 < 2 ^ s) by (apply Z.pow_pos_nonneg; lia).
  change (2 ^ 52) with 4503599627370496 in HM.
  change (2 ^ 34) with 17179869184 in HC |- *.
  assert (Hgap : U * 2 ^ s < 17179869184 * 1000000 * 2 ^ s →
            ∃ T, 2 ^ s = T * 2 ^ K ∧ 524288 ≤ T).
  { intros HU. apply pow2_gap; [done|done|].
    change (2 ^ 52) with 4503599627370496 in *. change (2 ^ 34) with 17179869184. lia. }
  assert (Hgap' : M * 2 ^ K < 17179869184 * 2 ^ s →
            ∃ T, 2 ^ s = T * 2 ^ K ∧ 524288 ≤ T).
  { intros HU. apply pow2_gap; [done|done|].
    change (2 ^ 52) with 4503599627370496. change (2 ^ 34) with 17179869184. nia. }
  set (P := 2 ^ K) in *. set (S := 2 ^ s) in *. clearbody P S.
  assert (Hscale : ∀ T, S = T * P → 524288 ≤ T →
            2 * Z.abs (M * 1000000 - U * T) ≤ 1000000).
  { intros T -> HT.
    replace (M * P * 1000000 - U * (T * P)) with ((M * 1000000 - U * T) * P) in Hnear by lia.
    rewrite Z.abs_mul, (Z.abs_eq P) in Hnear by lia. nia. }
  split; [split|intros HC'; split].
  - (* the double is not below [C]: neither is the quotient *)
    intros Hge. destruct (Z_le_gt_dec (C * 1000000) U) as [|Hlt]; [done|exfalso].
    destruct Hgap as (T & HT & HT19); [nia|].
    specialize (Hscale T HT HT19). subst S.
    assert (C * T ≤ M) by nia.
    assert (U * T ≤ C * T * 1000000 - T) by nia. lia.
  - (* the quotient is not below [C]: neither is the double *)
    intros Hge. destruct (Z_le_gt_dec (C * S) (M * P)) as [|Hlt]; [done|exfalso].
    destruct Hgap' as (T & HT & HT19); [nia|].
    specialize (Hscale T HT HT19). subst S.
    assert (M + 1 ≤ C * T) by nia.
    assert (C * T * 1000000 ≤ U * T) by nia. lia.
  - (* the double is not above [C]: neither is the quotient *)
    intros Hle. destruct (Z_le_gt_dec U (C * 1000000)) as [|Hlt]; [done|exfalso].
    destruct Hgap' as (T & HT & HT19); [nia|].
    specialize (Hscale T HT HT19). subst S.
    assert (M ≤ C * T) by nia.
    assert (C * T * 1000000 + T ≤ U * T) by nia. lia.
  - (* the quotient is not above [C]: neither is the double *)
    intros Hle. destruct (Z_le_gt_dec (M * P) (C * S)) as [|Hlt]; [done|exfalso].
    destruct Hgap as (T & HT & HT19); [nia|].
    specialize (Hscale T HT HT19). subst S.
    assert (C * T + 1 ≤ M) by nia.
    assert (U * T ≤ C * T * 1000000) by nia. lia.
Qed.

Lemma scaled_compare m e s K j C :
  0 ≤ s → 0 ≤ K → 0 ≤ j → e = K + j - s →
  ((if 0 <=? e then C <=? m * 2 ^ e else C * 2 ^ (- e) <=? m) = true
     ↔ C * 2 ^ s ≤ m * 2 ^ j * 2 ^ K) ∧
  ((if 0 <=? e then - C <=? - m * 2 ^ e else - C * 2 ^ (- e) <=? - m) = true
     ↔ m * 2 ^ j * 2 ^ K ≤ C * 2 ^ s).
Proof.
  intros Hs HK Hj He.
  assert (HS : 0 < 2 ^ s) by (apply Z.pow_pos_nonneg; lia).
  destruct (Z.leb_spec 0 e) as [He0|He0]; rewrite !Z.leb_le.
  - assert (Heq : m * 2 ^ j * 2 ^ K = m * 2 ^ e * 2 ^ s).
    { rewrite <- !Z.mul_assoc, <- !Z.pow_add_r by lia. do 2 f_equal. lia. }
    rewrite Heq. split; split; nia.
  - assert (HP : 0 < 2 ^ j * 2 ^ K).
    { apply Z.mul_pos_pos; apply Z.pow_pos_nonneg; lia. }
    assert (Heq : 2 ^ s = 2 ^ (- e) * (2 ^ j * 2 ^ K)).
    { rewrite <- !Z.pow_add_r by lia. f_equal. lia. }
    rewrite Heq, <- !Z.mul_assoc. set (P := 2 ^ j * 2 ^ K) in *. clearbody P.
    rewrite !Z.mul_assoc. split; split; nia.
Qed.

(** The comparison of [can_gain_xp], for a cooldown above [- 2^34] and up to
    [2^34] seconds and any difference of the two clock readings. *)
Lemma total_seconds_ge us cd :
  - 2 ^ 34 < cd ≤ 2 ^ 34 →
  PyFloat.ge_int (PyFloat.total_seconds us) cd = (cd * 1000000 <=? us).
Proof.
  intros Hcd. change (2 ^ 34) with 17179869184 in Hcd.
  destruct (Z.lt_trichotomy us 0) as [Hneg|[->|Hpos]].
  - (* a negative difference *)
    rewrite total_seconds_opp by done.
    destruct (total_seconds_pos (- us) ltac:(lia))
      as [[-> Hbig]|(m & e & s & K & j & -> & Hm & Hs & HK & Hj & He & Hlow & Hnear)].
    + simpl. symmetry. apply Z.leb_gt.
      change (2 ^ 73) with 9444732965739290427392 in Hbig. lia.
    + cbn [SFopp negb PyFloat.ge_int]. rewrite <- Pos2Z.opp_pos.
      assert (HM : 2 ^ 52 ≤ Z.pos m * 2 ^ j).
      { assert (j = 0 ∨ j = 1) as [-> | ->] by lia; lia. }
      apply Bool.eq_iff_eq_true. rewrite Z.leb_le.
      pose proof (proj2 (scaled_compare (Z.pos m) e s K j (- cd) Hs HK ltac:(lia) He))
        as Hsc.
      rewrite Z.opp_involutive in Hsc. rewrite Hsc. clear Hsc.
      destruct (Z_le_gt_dec cd 0) as [Hc|Hc].
      * destruct (nearest_compare (Z.pos m * 2 ^ j) K s (- us) (- cd))
          as [_ Hle]; [done|done|done| |done|done|].
        { change (2 ^ 34) with 17179869184. lia. }
        rewrite Hle by (change (2 ^ 34) with 17179869184; lia). lia.
      * assert (0 < 2 ^ s) by (apply Z.pow_pos_nonneg; lia).
        assert (0 < 2 ^ K) by (apply Z.pow_pos_nonneg; lia).
        change (2 ^ 52) with 4503599627370496 in HM. split; [nia|lia].
  - (* no difference *)
    simpl. destruct (Z.leb_spec cd 0); destruct (Z.leb_spec (cd * 1000000) 0); lia.
  - (* a positive difference *)
    destruct (total_seconds_pos us Hpos)
      as [[-> Hbig]|(m & e & s & K & j & -> & Hm & Hs & HK & Hj & He & Hlow & Hnear)].
    + simpl. symmetry. apply Z.leb_le.
      change (2 ^ 73) with 9444732965739290427392 in Hbig. lia.
    + cbn [PyFloat.ge_int].
      assert (HM : 2 ^ 52 ≤ Z.pos m * 2 ^ j).
      { assert (j = 0 ∨ j = 1) as [-> | ->] by lia; lia. }
      apply Bool.eq_iff_eq_true. rewrite Z.leb_le.
      rewrite (proj1 (scaled_compare (Z.pos m) e s K j cd Hs HK ltac:(lia) He)).
      destruct (Z_le_gt_dec 0 cd) as [Hc|Hc].
      * destruct (nearest_compare (Z.pos m * 2 ^ j) K s us cd)
          as [Hge _]; [done|done|done| |done|done|done].
        change (2 ^ 34) with 17179869184. lia.
      * assert (0 < 2 ^ s) by (apply Z.pow_pos_nonneg; lia).
        assert (0 < 2 ^ K) by (apply Z.pow_pos_nonneg; lia).
        change (2 ^ 52) with 4503599627370496 in HM. split; [lia|nia].
Qed.

(** The bounds are the best ones: one second further on either side, a
    difference one microsecond short of the cooldown is rounded to it. *)
Lemma total_seconds_ge_bounds :
  PyFloat.ge_int (PyFloat.total_seconds ((2 ^ 34 + 1) * 1000000 - 1)) (2 ^ 34 + 1) = true ∧
  ((2 ^ 34 + 1) * 1000000 <=? (2 ^ 34 + 1) * 1000000 - 1) = false ∧
  PyFloat.ge_int (PyFloat.total_seconds (- 2 ^ 34 * 1000000 - 1)) (- 2 ^ 34) = true ∧
  (- 2 ^ 34 * 1000000 <=? - 2 ^ 34 * 1000000 - 1) = false.
Proof. repeat split; vm_compute; reflexivity. Qed.

Lemma can_gain_xp_exact db u cd now :
  - 2 ^ 34 < cd ≤ 2 ^ 34 →
  can_gain_xp db u cd now =
    (db, match last_xp_gain_of db u with
         | Some last => cd * 1000000 <=? now - last
         | None => true
         end).
Proof.
  intros Hcd. unfold can_gain_xp, last_xp_gain_of.
  destruct (users db !! u) as [user|]; [|done]. simpl.
  destruct (last_xp_gain user) as [last|]; [|done].
  by rewrite total_seconds_ge.
Qed.

Lemma can_gain_xp_open db u now :
  (∀ last, last_xp_gain_of db u = Some last → Config.XP_COOLDOWN * 1000000 ≤ now - last) →
  can_gain_xp db u Config.XP_COOLDOWN now = (db, true).
Proof.
  intros Hgate. rewrite can_gain_xp_exact by (unfold Config.XP_COOLDOWN; lia).
  destruct (last_xp_gain_of db u) as [last|]; [|done].
  specialize (Hgate last eq_refl). f_equal. apply Z.leb_le. lia.
Qed.


(** ** The cooldown *)

Lemma users_ensure_user db u :
  users (ensure_user db u) = <[u := row db u]> (users db).
Proof.
  unfold ensure_user, get_user_data, row.
  destruct (users db !! u) as [user|] eqn:E; simpl; [|done].
  symmetry. by apply insert_id.
Qed.

Lemma get_xp_spec db u : get_xp db u = (ensure_user db u, xp (row db u)).
Proof. unfold get_xp, ensure_user, row. by destruct (users db !! u). Qed.

Lemma add_xp_spec db u a now :
  ∃ db', add_xp db u a now = (db', Ok (xp (row db u) + a)) ∧
         users db' = <[u := with_xp_gain (row db u) (xp (row db u) + a) now]> (users db).
Proof.
  unfold add_xp. destruct (lookup_ensure_user db u) as (user & Hu & ->).
  rewrite Hu. simpl. eexists. split; [done|]. simpl.
  by rewrite users_ensure_user, insert_insert_eq.
Qed.

Lemma set_level_spec db u l :
  ∃ db', set_level db u l = (db', Ok tt) ∧
         users db' = <[u := with_level (row db u) l]> (users db).
Proof.
  unfold set_level. destruct (lookup_ensure_user db u) as (user & Hu & ->).
  rewrite Hu. simpl. eexists. split; [done|]. simpl.
  by rewrite users_ensure_user, insert_insert_eq.
Qed.

Lemma add_coins_spec db u a ty d :
  ∃ db', add_coins db u a ty d = (db', Ok (coins (row db u) + a)) ∧
         users db' = <[u := with_coins (row db u) (coins (row db u) + a)]> (users db).
Proof.
  unfold add_coins. destruct (lookup_ensure_user db u) as (user & Hu & ->).
  rewrite Hu. simpl. eexists. split; [done|]. simpl.
  by rewrite users_ensure_user, insert_insert_eq.
Qed.

Lemma handle_level_up_spec db u old_level new_level :
  ∃ db' r, handle_level_up db u old_level new_level = (db', Ok r) ∧
    (users db' = users db ∨
     ∃ c, users db' = <[u := with_coins (row db u) c]> (users db)).
Proof.
  unfold handle_level_up.
  destruct (0 <? _); [|eexists _, _; split; [done|by left]].
  match goal with |- context [add_coins db u ?a ?ty ?d] =>
    destruct (add_coins_spec db u a ty d) as (db' & -> & Hus) end.
  eexists _, _; split; [done|]. right. eauto.
Qed.

(** What processing one message does to the rows: nothing, or the author's
    row is created, or it is replaced by a row that carries the new xp and
    the time of the gain. *)
Lemma process_message_rows db m :
  let u := author_id m in
  let db' := fst (process_message db m) in
  (process_message db m = (db, Ok Cooldown) ∨ snd (process_message db m) ≠ Ok Cooldown) ∧
  (users db' = users db ∨
   users db' = <[u := row db u]> (users db) ∨
   ∃ r, users db' = <[u := r]> (users db) ∧ last_xp_gain r = Some (now_gain m) ∧
        xp r = xp (row db u) + calculate_xp_gain (content_length m) (random_bonus m)).
Proof.
  intros u db'. subst db'. unfold process_message. fold u.
  assert (Hcg : fst (can_gain_xp db u Config.XP_COOLDOWN (now_check m)) = db).
  { unfold can_gain_xp. destruct (users db !! u) as [user|]; [|done].
    by destruct (last_xp_gain user). }
  destruct (can_gain_xp db u Config.XP_COOLDOWN (now_check m)) as [db0 can].
  simpl in Hcg. subst db0. destruct can; simpl; [|by auto].
  split.
  { right. destruct (_ <=? 0); [done|]. rewrite get_xp_spec.
    destruct (calculate_level_from_xp _); [|done].
    destruct (add_xp _ _ _ _) as [? [?|?]]; [|done].
    destruct (calculate_level_from_xp _); [|done].
    destruct (set_level _ _ _) as [? [?|?]]; [|done].
    destruct (_ <? _); [|done]. by destruct (handle_level_up _ _ _ _) as [? [?|?]]. }
  destruct (_ <=? 0); [by auto|]. rewrite get_xp_spec.
  destruct (calculate_level_from_xp _) as [old_level|]; simpl;
    [|right; left; apply users_ensure_user].
  set (g := calculate_xp_gain (content_length m) (random_bonus m)).
  destruct (add_xp_spec (ensure_user db u) u g (now_gain m)) as (db2 & -> & H2).
  assert (Hrow : row (ensure_user db u) u = row db u).
  { unfold row at 1. by rewrite users_ensure_user, lookup_insert_eq. }
  rewrite Hrow in *. rewrite users_ensure_user, insert_insert_eq in H2.
  assert (Hr2 : row db2 u = with_xp_gain (row db u) (xp (row db u) + g) (now_gain m)).
  { unfold row at 1. by rewrite H2, lookup_insert_eq. }
  destruct (calculate_level_from_xp _) as [new_level|]; simpl;
    [|right; right; eexists; split; [done|by simpl]].
  destruct (set_level_spec db2 u new_level) as (db3 & -> & H3).
  rewrite Hr2, H2, insert_insert_eq in H3.
  assert (Hr3 : row db3 u =
            with_level (with_xp_gain (row db u) (xp (row db u) + g) (now_gain m)) new_level).
  { unfold row at 1. by rewrite H3, lookup_insert_eq. }
  destruct (old_level <? new_level); simpl;
    [|right; right; eexists; split; [done|by simpl]].
  destruct (handle_level_up_spec db3 u old_level new_level) as (db4 & r & -> & [H4|[c H4]]);
    simpl; right; right.
  - rewrite H4, H3. eexists; split; [done|by simpl].
  - rewrite H4, Hr3, H3, insert_insert_eq. eexists; split; [done|by simpl].
Qed.

Lemma xp_of_row db u : xp_of db u = xp (row db u).
Proof. unfold xp_of, row. by destruct (users db !! u). Qed.

Lemma calculate_xp_gain_pos len rnd : 0 < calculate_xp_gain len rnd.
Proof. unfold calculate_xp_gain. lia. Qed.

Lemma grants_last_xp_gain db m :
  grants db m →
  last_xp_gain_of (fst (process_message db m)) (author_id m) = Some (now_gain m).
Proof.
  unfold grants. rewrite !xp_of_row. unfold row at 1, last_xp_gain_of.
  destruct (process_message_rows db m) as [_ [->|[->|(r & -> & Hl & Hx)]]].
  - done.
  - rewrite lookup_insert_eq. done.
  - rewrite lookup_insert_eq. done.
Qed.

Lemma process_message_keeps_recent db m u T :
  (∃ l, last_xp_gain_of db u = Some l ∧ T ≤ l) → T ≤ now_gain m →
  ∃ l, last_xp_gain_of (fst (process_message db m)) u = Some l ∧ T ≤ l.
Proof.
  intros (l & Hl & HT) Hm. unfold last_xp_gain_of in *.
  destruct (process_message_rows db m) as [_ [->|[->|(r & -> & Hr & _)]]].
  - eauto.
  - destruct (decide (u = author_id m)) as [->|Hne].
    + rewrite lookup_insert_eq. unfold row.
      destruct (users db !! author_id m); [|done]. eauto.
    + rewrite lookup_insert_ne by done. eauto.
  - destruct (decide (u = author_id m)) as [->|Hne].
    + rewrite lookup_insert_eq. simpl. eauto.
    + rewrite lookup_insert_ne by done. eauto.
Qed.

Lemma process_all_keeps_recent db ms u T :
  (∃ l, last_xp_gain_of db u = Some l ∧ T ≤ l) →
  Forall (fun m => T ≤ now_gain m) ms →
  ∃ l, last_xp_gain_of (process_all db ms) u = Some l ∧ T ≤ l.
Proof.
  intros Hdb Hms. revert db Hdb.
  induction Hms as [|m ms Hm _ IH]; intros db Hdb; simpl; [done|].
  apply IH. by apply process_message_keeps_recent.
Qed.

Lemma process_message_cooldown db m l :
  last_xp_gain_of db (author_id m) = Some l →
  now_check m - l < Config.XP_COOLDOWN * 1000000 →
  process_message db m = (db, Ok Cooldown).
Proof.
  intros Hlast Hlt. unfold process_message.
  rewrite can_gain_xp_exact, Hlast by (unfold Config.XP_COOLDOWN; lia).
  destruct (_ <=? _) eqn:E; [lia|done].
Qed.

(** * Further properties of the code *)

(** ** The store: accounts *)

Lemma coins_of_row db u : coins_of db u = coins (row db u).
Proof. unfold coins_of, row. by destruct (users db !! u). Qed.

Lemma ensure_user_get_user_data db u : fst (get_user_data db u) = ensure_user db u.
Proof. unfold ensure_user, get_user_data. by destruct (users db !! u). Qed.

Lemma transactions_ensure_user db u : transactions (ensure_user db u) = transactions db.
Proof. unfold ensure_user, get_user_data. by destruct (users db !! u). Qed.

(** X1: [get_user_data] returns the stored row, or creates the row with the
    defaults (0 coins, 0 xp, level 1, 0 messages, no gain) and returns it; it
    writes no other row and no transaction, counts one more user exactly when
    it created the row, and a second call returns the same data and changes
    nothing. *)
Theorem X1_get_user_data db u :
  ∃ db1, get_user_data db u = (db1, to_dict (row db u)) ∧
    users db1 = <[u := row db u]> (users db) ∧
    transactions db1 = transactions db ∧
    get_user_data db1 u = (db1, to_dict (row db u)) ∧
    (users db !! u = None →
       to_dict (row db u) = mkUserData 0 0 1 0 None ∧
       get_user_count db1 = get_user_count db + 1) ∧
    (is_Some (users db !! u) → db1 = db).
Proof.
  unfold get_user_data, row, get_user_count.
  destruct (users db !! u) as [user|] eqn:E; simpl.
  - exists db. split; [done|]. split; [by rewrite insert_id|]. split; [done|].
    rewrite E. split; [done|]. split; [done|done].
  - eexists. split; [done|]. simpl. rewrite lookup_insert_eq.
    split; [done|]. split; [done|]. split; [done|]. split.
    + intros _. split; [done|]. rewrite map_size_insert_None by done. lia.
    + by intros [? ?].
Qed.

(** X2: the three getters return the stored field, or 0 coins, 0 xp, level 1
    for an id without a row, which they create as [get_user_data] does; read
    again, they return the same value and leave the store as it is. *)
Theorem X2_getters db u :
  get_coins db u = (ensure_user db u, coins_of db u) ∧
  get_xp db u = (ensure_user db u, xp_of db u) ∧
  get_level db u = (ensure_user db u, level (row db u)) ∧
  get_coins (ensure_user db u) u = (ensure_user db u, coins_of db u) ∧
  get_xp (ensure_user db u) u = (ensure_user db u, xp_of db u) ∧
  get_level (ensure_user db u) u = (ensure_user db u, level (row db u)) ∧
  (users db !! u = None → coins_of db u = 0 ∧ xp_of db u = 0 ∧ level (row db u) = 1).
Proof.
  destruct (lookup_ensure_user db u) as (user & Hu & Huser).
  unfold get_coins, get_xp, get_level. rewrite Hu.
  unfold coins_of, xp_of, row, ensure_user, get_user_data in *.
  destruct (users db !! u) as [user'|] eqn:E; simpl in *; subst; by repeat split.
Qed.

(** X3: [add_coins] accepts every amount, negative ones included: it returns
    the old balance plus the amount, stores it, changes no other field and no
    other row, appends one transaction from nobody to the user, and moves the
    total supply by the amount; [get_coins] then returns the returned
    balance. *)
Theorem X3_add_coins db u a ty d :
  ∃ db', add_coins db u a ty d = (db', Ok (coins_of db u + a)) ∧
    users db' = <[u := with_coins (row db u) (coins_of db u + a)]> (users db) ∧
    transactions db' = transactions db ++ [mkTransaction None (Some u) a ty d] ∧
    get_coins db' u = (db', coins_of db u + a) ∧
    total_supply db' = total_supply db + a.
Proof.
  destruct (add_coins_spec db u a ty d) as (db' & Hadd & Hus).
  rewrite <- coins_of_row in *. exists db'. split; [done|]. split; [done|].
  assert (Htx : transactions db' = transactions db ++ [mkTransaction None (Some u) a ty d]).
  { revert Hadd. unfold add_coins.
    destruct (lookup_ensure_user db u) as (user & -> & _). simpl.
    intros [= <- _]. simpl. by rewrite transactions_ensure_user. }
  split; [done|]. split.
  - unfold get_coins. by rewrite Hus, lookup_insert_eq.
  - destruct db' as [us' ts' s']. simpl in Hus. subst us'.
    rewrite (total_supply_insert _ u _ _ _ (transactions db) (scoped db)).
    simpl. replace (mk (users db) (transactions db) (scoped db)) with db by (by destruct db).
    lia.
Qed.

(** X4: [set_coins] stores an amount above the balance and logs the
    difference as an [admin_set] credit; for an amount that is not above the
    balance it raises [IntegrityError] and keeps the balance and the log (the
    row of a new user, created before, stays). *)
Theorem X4_set_coins db u a :
  (coins_of db u < a →
     ∃ db' description, set_coins db u a = (db', Ok tt) ∧
       users db' = <[u := with_coins (row db u) a]> (users db) ∧
       transactions db' = transactions db ++
         [mkTransaction None (Some u) (a - coins_of db u) "admin_set" description]) ∧
  (a ≤ coins_of db u →
     set_coins db u a = (ensure_user db u, Raise IntegrityError) ∧
     coins_of (ensure_user db u) u = coins_of db u ∧
     transactions (ensure_user db u) = transactions db).
Proof.
  rewrite coins_of_row. unfold set_coins.
  destruct (lookup_ensure_user db u) as (user & Hu & Huser). rewrite Hu.
  fold (row db u) in Huser. subst user. unfold commit. cbn [forallb not_null to_user_id].
  split; intros Ha.
  - destruct (0 <? a - coins (row db u)) eqn:E; [|lia]. simpl.
    eexists _, _. split; [done|]. simpl.
    by rewrite users_ensure_user, insert_insert_eq, transactions_ensure_user.
  - destruct (0 <? a - coins (row db u)) eqn:E; [lia|]. simpl.
    split; [done|]. split; [|apply transactions_ensure_user].
    unfold coins_of. by rewrite Hu.
Qed.

Lemma X4_set_coins_witness :
  (∃ db' description, set_coins db_100 1 250 = (db', Ok tt) ∧
     users db' = <[1 := with_coins (row db_100 1) 250]> (users db_100) ∧
     transactions db' = transactions db_100 ++
       [mkTransaction None (Some 1) (250 - coins_of db_100 1) "admin_set" description]) ∧
  (set_coins db_100 1 40 = (ensure_user db_100 1, Raise IntegrityError) ∧
   coins_of (ensure_user db_100 1) 1 = coins_of db_100 1 ∧
   transactions (ensure_user db_100 1) = transactions db_100).
Proof.
  split.
  - apply (X4_set_coins db_100 1 250). vm_compute. reflexivity.
  - apply (X4_set_coins db_100 1 40). vm_compute. discriminate.
Defined.

(** X5: [add_xp] adds the amount to the xp, counts one more message and
    stores the time of the gain; it returns the new xp, leaves coins and
    level and every other row as they are and logs nothing. *)
Theorem X5_add_xp db u a now :
  ∃ db', add_xp db u a now = (db', Ok (xp_of db u + a)) ∧
    users db' = <[u := mkUser (user_id (row db u)) (coins_of db u) (xp_of db u + a)
                          (level (row db u)) (total_messages (row db u) + 1)
                          (Some now)]> (users db) ∧
    transactions db' = transactions db ∧
    last_xp_gain_of db' u = Some now ∧
    get_xp db' u = (db', xp_of db u + a).
Proof.
  destruct (add_xp_spec db u a now) as (db' & Hadd & Hus).
  rewrite coins_of_row, xp_of_row. exists db'. split; [done|]. split; [done|].
  split; [|split].
  - revert Hadd. unfold add_xp.
    destruct (lookup_ensure_user db u) as (user & -> & _). simpl.
    intros [= <- _]. simpl. by rewrite app_nil_r, transactions_ensure_user.
  - unfold last_xp_gain_of. by rewrite Hus, lookup_insert_eq.
  - unfold get_xp. by rewrite Hus, lookup_insert_eq.
Qed.

(** ** The store: what an operation leaves alone *)

Lemma users_transfer_update db f t a d v :
  v ≠ f → v ≠ t → users (fst (transfer_update db f t a d)) !! v = users db !! v.
Proof.
  intros Hf Ht. unfold transfer_update.
  destruct (users db !! f) as [fu|]; [|done].
  destruct (_ !! t) as [tu|]; [|done]. simpl. by rewrite !lookup_insert_ne.
Qed.

Lemma fst_getters db u :
  fst (get_coins db u) = ensure_user db u ∧ fst (get_xp db u) = ensure_user db u ∧
  fst (get_level db u) = ensure_user db u.
Proof.
  unfold get_coins, get_xp, get_level, ensure_user. by destruct (users db !! u).
Qed.

(** X6: an operation of the store writes only the rows of the users it is
    called for: the row of every other user is the same before and after
    (for a transfer, every row but the sender's and the receiver's). *)
Theorem X6_other_rows_unchanged db o v :
  v ∉ touched o → users (apply_op db o) !! v = users db !! v.
Proof.
  intros Hv.
  destruct o as [u|u|u|u|l sb f|u a ty d|u a ty d|f t a d|u a|u a now|u l];
    simpl in Hv; simpl.
  - rewrite ensure_user_get_user_data. apply lookup_ensure_user_ne. set_solver.
  - destruct (fst_getters db u) as (-> & _). apply lookup_ensure_user_ne. set_solver.
  - destruct (fst_getters db u) as (_ & -> & _). apply lookup_ensure_user_ne. set_solver.
  - destruct (fst_getters db u) as (_ & _ & ->). apply lookup_ensure_user_ne. set_solver.
  - unfold get_leaderboard.
    by destruct (users_get_leaderboard_loop (seqZ 0 3) db l sb f 0%nat) as [-> _].
  - destruct (add_coins_spec db u a ty d) as (db' & Hop & Hus). rewrite Hop. simpl.
    rewrite Hus. apply lookup_insert_ne. set_solver.
  - by rewrite remove_coins_never_succeeds.
  - assert (v ≠ f ∧ v ≠ t) as [Hf Ht] by set_solver.
    unfold transfer_coins. destruct (users db !! f) as [fu|]; [|done].
    destruct (coins fu <? a); [done|].
    destruct (users db !! t) as [tu|] eqn:Et; [by apply users_transfer_update|].
    unfold get_user_data. rewrite Et. simpl.
    destruct (scoped db); simpl; [by rewrite lookup_insert_ne|].
    rewrite users_transfer_update by done. simpl. by rewrite lookup_insert_ne.
  - unfold set_coins. destruct (lookup_ensure_user db u) as (user & Hu & _). rewrite Hu.
    unfold commit. simpl. destruct (0 <? _); simpl.
    + rewrite lookup_insert_ne by set_solver. apply lookup_ensure_user_ne. set_solver.
    + apply lookup_ensure_user_ne. set_solver.
  - destruct (add_xp_spec db u a now) as (db' & Hop & Hus). rewrite Hop. simpl.
    rewrite Hus. apply lookup_insert_ne. set_solver.
  - destruct (set_level_spec db u l) as (db' & Hop & Hus). rewrite Hop. simpl.
    rewrite Hus. apply lookup_insert_ne. set_solver.
Qed.

Lemma X6_other_rows_unchanged_witness :
  coins_of (apply_op db_3 (TransferCoins 1 2 30 None)) 1 = 70 ∧
  coins_of (apply_op db_3 (TransferCoins 1 2 30 None)) 2 = 280 ∧
  users db_3 !! 3 = Some (mkUser 3 250 100 2 7 None) ∧
  users (apply_op db_3 (TransferCoins 1 2 30 None)) !! 3 = users db_3 !! 3.
Proof.
  split; [vm_compute; reflexivity|]. split; [vm_compute; reflexivity|].
  split; [vm_compute; reflexivity|].
  apply (X6_other_rows_unchanged db_3 (TransferCoins 1 2 30 None) 3). simpl.
  rewrite !not_elem_of_cons. split; [lia|]. split; [lia|]. apply not_elem_of_nil.
Defined.

Lemma transactions_transfer_update db f t a d :
  transactions (fst (transfer_update db f t a d)) = transactions db ∨
  transactions (fst (transfer_update db f t a d))
    = transactions db ++ [mkTransaction (Some f) (Some t) a "user_pay" d].
Proof.
  unfold transfer_update. destruct (users db !! f) as [fu|]; [|by left].
  destruct (_ !! t) as [tu|]; [|by left]. by right.
Qed.

(** One operation adds at most one record to the log, and a record that is
    added has a [to_user_id]. *)
Lemma log_step db o :
  ∃ new, transactions (apply_op db o) = transactions db ++ new ∧
         (length new ≤ 1)%nat ∧
         Forall (fun transaction => not_null transaction = true) new.
Proof.
  destruct o as [u|u|u|u|l sb f|u a ty d|u a ty d|f t a d|u a|u a now|u l]; simpl.
  - exists []. rewrite ensure_user_get_user_data, transactions_ensure_user, app_nil_r. auto.
  - exists []. destruct (fst_getters db u) as (-> & _).
    rewrite transactions_ensure_user, app_nil_r. auto.
  - exists []. destruct (fst_getters db u) as (_ & -> & _).
    rewrite transactions_ensure_user, app_nil_r. auto.
  - exists []. destruct (fst_getters db u) as (_ & _ & ->).
    rewrite transactions_ensure_user, app_nil_r. auto.
  - exists []. unfold get_leaderboard.
    destruct (users_get_leaderboard_loop (seqZ 0 3) db l sb f 0%nat) as [_ ->].
    rewrite app_nil_r. auto.
  - eexists [_]. unfold add_coins.
    destruct (lookup_ensure_user db u) as (user & -> & _). simpl.
    rewrite transactions_ensure_user. split; [done|]. split; [done|]. by repeat constructor.
  - exists []. rewrite remove_coins_never_succeeds, app_nil_r. auto.
  - unfold transfer_coins. destruct (users db !! f) as [fu|];
      [|exists []; rewrite app_nil_r; auto].
    destruct (coins fu <? a); [exists []; rewrite app_nil_r; auto|].
    assert (Hup : ∀ db1, transactions db1 = transactions db →
      ∃ new, transactions (fst (transfer_update db1 f t a d)) = transactions db ++ new ∧
             (length new ≤ 1)%nat ∧
             Forall (fun transaction => not_null transaction = true) new).
    { intros db1 H1. destruct (transactions_transfer_update db1 f t a d) as [->| ->];
        rewrite H1.
      - exists []. rewrite app_nil_r. auto.
      - eexists [_]. split; [done|]. split; [done|]. by repeat constructor. }
    destruct (users db !! t) as [tu|] eqn:Et; [by apply Hup|].
    unfold get_user_data. rewrite Et. simpl.
    destruct (scoped db); [exists []; simpl; rewrite app_nil_r; auto|]. by apply Hup.
  - unfold set_coins. destruct (lookup_ensure_user db u) as (user & -> & _).
    unfold commit. simpl. destruct (0 <? _); simpl; rewrite transactions_ensure_user.
    + eexists [_]. split; [done|]. split; [done|]. by repeat constructor.
    + exists []. rewrite app_nil_r. auto.
  - exists []. unfold add_xp. destruct (lookup_ensure_user db u) as (user & -> & _).
    simpl. rewrite transactions_ensure_user. auto.
  - exists []. unfold set_level. destruct (lookup_ensure_user db u) as (user & -> & _).
    simpl. rewrite transactions_ensure_user. auto.
Qed.

(** X7: the transaction log only grows: after any sequence of operations the
    old log is a prefix of the new one, at most one record was added per
    operation, and only [add_coins], [set_coins] and [transfer_coins] add
    any. *)
Theorem X7_log_append_only db ops :
  transactions db `prefix_of` transactions (run db ops) ∧
  (length (transactions (run db ops)) ≤ length (transactions db) + length ops)%nat ∧
  ((∀ o, o ∈ ops → match o with
                   | AddCoins _ _ _ _ | SetCoins _ _ | TransferCoins _ _ _ _ => False
                   | _ => True
                   end) →
   transactions (run db ops) = transactions db).
Proof.
  revert db. induction ops as [|o ops IH]; intros db; simpl.
  - split; [done|]. split; [lia|done].
  - destruct (log_step db o) as (new & Hnew & Hlen & _).
    destruct (IH (apply_op db o)) as (Hpre & Hcount & Hsame).
    rewrite Hnew in Hpre, Hcount. split; [|split].
    + etrans; [|exact Hpre]. by apply prefix_app_r.
    + rewrite length_app in Hcount. lia.
    + intros Hro. rewrite Hsame by (intros o' Ho'; apply Hro; by right).
      specialize (Hro o ltac:(by left)).
      destruct o as [u|u|u|u|l sb f|u a ty d|u a ty d|f t a d|u a|u a now|u l];
        try done; simpl.
      * by rewrite ensure_user_get_user_data, transactions_ensure_user.
      * destruct (fst_getters db u) as (-> & _). apply transactions_ensure_user.
      * destruct (fst_getters db u) as (_ & -> & _). apply transactions_ensure_user.
      * destruct (fst_getters db u) as (_ & _ & ->). apply transactions_ensure_user.
      * unfold get_leaderboard.
        by destruct (users_get_leaderboard_loop (seqZ 0 3) db l sb f 0%nat) as [_ ->].
      * by rewrite remove_coins_never_succeeds.
      * unfold add_xp. destruct (lookup_ensure_user db u) as (user & -> & _).
        simpl. by rewrite app_nil_r, transactions_ensure_user.
      * unfold set_level. destruct (lookup_ensure_user db u) as (user & -> & _).
        simpl. by rewrite app_nil_r, transactions_ensure_user.
Qed.

(** ** The store: invariants of the rows *)

Lemma row_lookup db k user : users db !! k = Some user → row db k = user.
Proof. unfold row. by intros ->. Qed.

(** What one operation does to the row stored under [k]: nothing, or it
    stores a row with the [user_id] the row had (or the new row would get),
    a message counter that is not lower and, when the operation meets its
    precondition, an xp that is not lower. *)
Lemma apply_op_row db o k :
  users (apply_op db o) !! k = users db !! k ∨
  ∃ new, users (apply_op db o) !! k = Some new ∧
         user_id new = user_id (row db k) ∧
         total_messages (row db k) ≤ total_messages new ∧
         (valid o → xp (row db k) ≤ xp new).
Proof.
  assert (Hins : ∀ (us : gmap Z User) u r,
    us = <[u := r]> (users db) →
    user_id r = user_id (row db u) → total_messages (row db u) ≤ total_messages r →
    (valid o → xp (row db u) ≤ xp r) →
    us !! k = users db !! k ∨
    ∃ new, us !! k = Some new ∧ user_id new = user_id (row db k) ∧
           total_messages (row db k) ≤ total_messages new ∧
           (valid o → xp (row db k) ≤ xp new)).
  { intros us u r -> H1 H2 H3. destruct (decide (k = u)) as [->|Hne].
    - right. exists r. by rewrite lookup_insert_eq.
    - left. by rewrite lookup_insert_ne. }
  destruct o as [u|u|u|u|l sb f|u a ty d|u a ty d|f t a d|u a|u a now|u l]; simpl.
  - rewrite ensure_user_get_user_data.
    apply (Hins _ u (row db u)); [apply users_ensure_user|done|done|done].
  - destruct (fst_getters db u) as (-> & _).
    apply (Hins _ u (row db u)); [apply users_ensure_user|done|done|done].
  - destruct (fst_getters db u) as (_ & -> & _).
    apply (Hins _ u (row db u)); [apply users_ensure_user|done|done|done].
  - destruct (fst_getters db u) as (_ & _ & ->).
    apply (Hins _ u (row db u)); [apply users_ensure_user|done|done|done].
  - left. unfold get_leaderboard.
    by destruct (users_get_leaderboard_loop (seqZ 0 3) db l sb f 0%nat) as [-> _].
  - destruct (add_coins_spec db u a ty d) as (db' & Hop & Hus). rewrite Hop. simpl.
    by apply (Hins _ u _ Hus).
  - left. by rewrite remove_coins_never_succeeds.
  - unfold transfer_coins. destruct (users db !! f) as [fu|] eqn:Ef; [|by left].
    destruct (coins fu <? a); [by left|].
    destruct (users db !! t) as [tu|] eqn:Et.
    + unfold transfer_update. rewrite Ef.
      destruct (decide (f = t)) as [->|Hft].
      * rewrite lookup_insert_eq. simpl. rewrite insert_insert_eq.
        eapply (Hins _ t); [done|by rewrite (row_lookup _ _ _ Ef)..].
      * rewrite lookup_insert_ne, Et by done. simpl.
        destruct (decide (k = t)) as [->|Hkt].
        { right. rewrite lookup_insert_eq. eexists. split; [done|].
          by rewrite (row_lookup _ _ _ Et). }
        rewrite lookup_insert_ne by done.
        eapply (Hins _ f); [done|by rewrite (row_lookup _ _ _ Ef)..].
    + unfold get_user_data. rewrite Et. simpl.
      assert (Hft : f ≠ t) by (intros ->; congruence).
      assert (Hnew : row db t = new_user t) by (unfold row; by rewrite Et).
      destruct (scoped db); simpl.
      { eapply (Hins _ t); [done|by rewrite Hnew..]. }
      unfold transfer_update. simpl. rewrite lookup_insert_ne, Ef by done.
      rewrite lookup_insert_ne, lookup_insert_eq by done. simpl.
      destruct (decide (k = t)) as [->|Hkt].
      { right. rewrite lookup_insert_eq. eexists. split; [done|]. by rewrite Hnew. }
      rewrite lookup_insert_ne by done.
      destruct (decide (k = f)) as [->|Hkf].
      { right. rewrite lookup_insert_eq. eexists. split; [done|].
        by rewrite (row_lookup _ _ _ Ef). }
      left. by rewrite !lookup_insert_ne.
  - unfold set_coins. destruct (lookup_ensure_user db u) as (user & Hu & Huser).
    rewrite Hu. fold (row db u) in Huser. subst user.
    unfold commit. simpl. destruct (0 <? _); simpl.
    + apply (Hins _ u (with_coins (row db u) a));
        [by rewrite users_ensure_user, insert_insert_eq|done..].
    + apply (Hins _ u (row db u)); [apply users_ensure_user|done..].
  - destruct (add_xp_spec db u a now) as (db' & Hop & Hus). rewrite Hop. simpl.
    apply (Hins _ u _ Hus); [done|simpl; lia|]. simpl. intros Hv. simpl in Hv. lia.
  - destruct (set_level_spec db u l) as (db' & Hop & Hus). rewrite Hop. simpl.
    by apply (Hins _ u _ Hus).
Qed.

Lemma well_formed_step db o : well_formed db → well_formed (apply_op db o).
Proof.
  intros [Hrows Hlog]. split.
  - intros k user Hk. destruct (apply_op_row db o k) as [Hsame|(new & Hnew & Hid & Htm & _)].
    + rewrite Hsame in Hk. by apply Hrows.
    + rewrite Hnew in Hk. injection Hk as <-. rewrite Hid. unfold row in *.
      destruct (users db !! k) as [old|] eqn:E; simpl in *.
      * destruct (Hrows _ _ E). lia.
      * lia.
  - destruct (log_step db o) as (new & -> & _ & Hnew). by apply Forall_app.
Qed.

(** X8: whatever operations are run on the initial store, every row is
    stored under its own [user_id] with a message counter that is not
    negative, and every transaction in the log has a [to_user_id], as the
    table requires. *)
Theorem X8_well_formed ops :
  (∀ k user, users (run init ops) !! k = Some user →
     user_id user = k ∧ 0 ≤ total_messages user) ∧
  Forall (fun transaction => to_user_id transaction ≠ None) (transactions (run init ops)).
Proof.
  assert (Hwf : well_formed (run init ops)).
  { assert (Hinit : well_formed init) by (split; [intros k user Hk; simpl in Hk; by rewrite lookup_empty in Hk|done]).
    revert Hinit. generalize init. induction ops as [|o ops IH]; intros db Hdb; [done|].
    simpl. apply IH. by apply well_formed_step. }
  destruct Hwf as [Hrows Hlog]. split; [done|].
  eapply Forall_impl; [exact Hlog|]. intros transaction. unfold not_null.
  by destruct (to_user_id transaction).
Qed.

(** X9: no operation deletes an account or winds a counter back: a row that
    exists still exists after any sequence of operations, with the same
    [user_id] and a message counter that is not lower; when every operation
    meets its precondition the xp is not lower either. *)
Theorem X9_accounts_persist db ops k old :
  users db !! k = Some old →
  ∃ new, users (run db ops) !! k = Some new ∧
         user_id new = user_id old ∧
         total_messages old ≤ total_messages new ∧
         (Forall valid ops → xp old ≤ xp new).
Proof.
  revert db old. induction ops as [|o ops IH]; intros db old Hk; simpl.
  - exists old. by repeat split.
  - assert (Hstep : ∃ mid, users (apply_op db o) !! k = Some mid ∧
              user_id mid = user_id old ∧ total_messages old ≤ total_messages mid ∧
              (valid o → xp old ≤ xp mid)).
    { destruct (apply_op_row db o k) as [Hsame|(new & Hnew & Hid & Htm & Hxp)].
      - exists old. rewrite Hsame. by repeat split.
      - rewrite (row_lookup _ _ _ Hk) in *. by exists new. }
    destruct Hstep as (mid & Hmid & Hid & Htm & Hxp).
    destruct (IH _ _ Hmid) as (new & Hnew & Hid' & Htm' & Hxp').
    exists new. split; [done|]. split; [congruence|]. split; [lia|].
    intros Hall. apply Forall_cons in Hall as [Ho Hops].
    specialize (Hxp Ho). specialize (Hxp' Hops). lia.
Qed.

Lemma X9_accounts_persist_witness :
  ∃ new, users (run db_100 [AddXp 1 20 5; SetLevel 1 7; TransferCoins 1 2 30 None]) !! 1
           = Some new ∧
         user_id new = 1 ∧ 0 ≤ total_messages new ∧
         (Forall valid [AddXp 1 20 5; SetLevel 1 7; TransferCoins 1 2 30 None] →
          0 ≤ xp new).
Proof.
  apply (X9_accounts_persist db_100 [AddXp 1 20 5; SetLevel 1 7; TransferCoins 1 2 30 None]
           1 (mkUser 1 100 0 1 0 None)).
  reflexivity.
Defined.

(** ** transfer_coins on a receiver without a row *)

(** X10: with the session factory that [__init__] installs, a transfer to a
    user who has no row yet returns False although the sender has the funds:
    the receiver's row is created with the defaults, no coins move and
    nothing is logged.  The same call made again succeeds and moves the
    amount. *)
Theorem X10_transfer_to_new_receiver db f t a d fu :
  scoped db = true → users db !! f = Some fu → a ≤ coins fu → users db !! t = None →
  ∃ db1, transfer_coins db f t a d = (db1, false) ∧
    users db1 = <[t := new_user t]> (users db) ∧
    transactions db1 = transactions db ∧
    total_supply db1 = total_supply db ∧
    ∃ db2, transfer_coins db1 f t a d = (db2, true) ∧
      coins_of db2 f = coins fu - a ∧ coins_of db2 t = a ∧
      transactions db2 = transactions db ++ [mkTransaction (Some f) (Some t) a "user_pay" d].
Proof.
  intros Hsc Hf Ha Ht.
  assert (Hft : f ≠ t) by (intros ->; congruence).
  unfold transfer_coins at 1. rewrite Hf, Ht, Hsc.
  destruct (coins fu <? a) eqn:E; [lia|].
  unfold get_user_data. rewrite Ht. unfold with_users. simpl.
  eexists. split; [done|]. simpl. split; [done|]. split; [done|]. split.
  - rewrite (total_supply_insert _ t _ _ _ (transactions db) (scoped db)).
    unfold coins_of. simpl. rewrite Ht. simpl. destruct db. simpl. lia.
  - unfold transfer_coins. simpl. rewrite lookup_insert_ne, Hf, E by done.
    rewrite lookup_insert_eq.
    assert (Htf : t ≠ f) by done.
    rewrite (transfer_update_spec _ f t a d fu (new_user t));
      [|by simpl; rewrite lookup_insert_ne
       |by simpl; rewrite lookup_insert_ne, lookup_insert_eq].
    eexists. split; [done|]. unfold coins_of. simpl.
    rewrite lookup_insert_ne, !lookup_insert_eq by done. simpl. split; [done|]. split; [lia|done].
Qed.

Lemma X10_transfer_to_new_receiver_witness :
  ∃ db1, transfer_coins db_100 1 2 30 None = (db1, false) ∧
    users db1 = <[2 := new_user 2]> (users db_100) ∧
    transactions db1 = transactions db_100 ∧
    total_supply db1 = total_supply db_100 ∧
    ∃ db2, transfer_coins db1 1 2 30 None = (db2, true) ∧
      coins_of db2 1 = 100 - 30 ∧ coins_of db2 2 = 30 ∧
      transactions db2 = transactions db_100 ++
        [mkTransaction (Some 1) (Some 2) 30 "user_pay" None].
Proof.
  apply (X10_transfer_to_new_receiver db_100 1 2 30 None (mkUser 1 100 0 1 0 None));
    [reflexivity|reflexivity|simpl; lia|reflexivity].
Defined.

(** ** The leaderboard query *)

#[local] Instance before_total sort_by : Total (before sort_by).
Proof. intros u v. unfold before. destruct (decide (sort_by = "level")); lia. Qed.

#[local] Instance before_trans sort_by : Transitive (before sort_by).
Proof. intros u v w. unfold before. destruct (decide (sort_by = "level")); lia. Qed.

Lemma StronglySorted_lookup {A} (R : relation A) (l : list A) i j x y :
  StronglySorted R l → (i < j)%nat → l !! i = Some x → l !! j = Some y → R x y.
Proof.
  intros Hl Hij Hi Hj. rewrite <- (take_drop_middle l j y Hj) in Hl.
  eapply (StronglySorted_app_1_elem_of R); [exact Hl| |by left].
  apply elem_of_take. eauto.
Qed.

Lemma query_leaderboard_users db db' limit sort_by :
  users db' = users db → query_leaderboard db' limit sort_by = query_leaderboard db limit sort_by.
Proof. unfold query_leaderboard. by intros ->. Qed.

Lemma get_leaderboard_loop_result attempts db limit sort_by faults sent :
  last attempts = Some 2 →
  snd (fst (get_leaderboard_loop attempts db limit sort_by faults sent)) = Some [] ∨
  snd (fst (get_leaderboard_loop attempts db limit sort_by faults sent))
    = Some (query_leaderboard db limit sort_by).
Proof.
  revert db sent. induction attempts as [|attempt rest IH]; intros db sent Hlast; [done|].
  simpl. destruct (faults attempt); [|by right].
  destruct (attempt =? 2) eqn:E; [by left|].
  destruct rest as [|attempt' rest']; [simpl in Hlast; simplify_eq; lia|].
  rewrite last_cons_cons in Hlast.
  destruct (IH (mk (users db) (transactions db) false) (S sent) Hlast) as [->| ->]; auto.
Qed.

(** The four ways [get_leaderboard] ends. *)
Lemma get_leaderboard_cases db limit sort_by faults :
  let q := query_leaderboard db limit sort_by in
  let db' := mk (users db) (transactions db) false in
  (faults 0 = false ∧ get_leaderboard db limit sort_by faults = (db, Some q, 1%nat)) ∨
  (faults 0 = true ∧ faults 1 = false ∧
   get_leaderboard db limit sort_by faults = (db', Some q, 2%nat)) ∨
  (faults 0 = true ∧ faults 1 = true ∧ faults 2 = false ∧
   get_leaderboard db limit sort_by faults = (db', Some q, 3%nat)) ∨
  (faults 0 = true ∧ faults 1 = true ∧ faults 2 = true ∧
   get_leaderboard db limit sort_by faults = (db', Some [], 3%nat)).
Proof.
  intros q db'. unfold get_leaderboard. change (seqZ 0 3) with [0; 1; 2]. simpl.
  destruct (faults 0); [|by left]. right.
  destruct (faults 1); [|by left]. right.
  destruct (faults 2); [by right|by left].
Qed.

(** The sorted rows of the query come from a list of distinct accounts. *)
Lemma sorted_rows_keys db sort_by :
  ∃ pairs : list (Z * User),
    merge_sort (before sort_by) (snd <$> map_to_list (users db)) = snd <$> pairs ∧
    NoDup (fst <$> pairs) ∧
    (∀ k user, (k, user) ∈ pairs ↔ users db !! k = Some user).
Proof.
  pose proof (merge_sort_Permutation (before sort_by) (snd <$> map_to_list (users db)))
    as Hperm.
  apply Permutation_map_inv in Hperm as (pairs & Hsorted & Hpairs).
  exists pairs. split; [done|]. split.
  - rewrite <- Hpairs. apply NoDup_fst_map_to_list.
  - intros k user. rewrite <- Hpairs. apply elem_of_map_to_list.
Qed.

(** X11: the list that [get_leaderboard] returns has at most [limit] entries,
    every entry shows the fields of a stored row, and the entries are in
    descending order of coins, or of level and then xp when [sort_by] is
    ["level"].  The entries are the rows of distinct accounts, one entry per
    account at most; and when one of the three attempts succeeds the list is
    the top of the table: it has [limit] entries, or as many as there are
    accounts, and no account that is left out ranks above one that is
    listed. *)
Theorem X11_leaderboard_sorted db limit sort_by faults leaders :
  snd (fst (get_leaderboard db limit sort_by faults)) = Some leaders →
  (length leaders ≤ Z.to_nat limit)%nat ∧
  (length leaders ≤ size (users db))%nat ∧
  (∀ entry, entry ∈ leaders →
     ∃ k user, users db !! k = Some user ∧ entry = to_entry user) ∧
  (∀ i j e1 e2, (i < j)%nat → leaders !! i = Some e1 → leaders !! j = Some e2 →
     if decide (sort_by = "level")
     then e_level e2 < e_level e1 ∨ (e_level e2 = e_level e1 ∧ e_xp e2 ≤ e_xp e1)
     else e_coins e2 ≤ e_coins e1) ∧
  ∃ keys, NoDup keys ∧
    Forall2 (fun k entry => ∃ user, users db !! k = Some user ∧ entry = to_entry user)
            keys leaders ∧
    (faults 0 = false ∨ faults 1 = false ∨ faults 2 = false →
       length leaders = Nat.min (Z.to_nat limit) (size (users db)) ∧
       ∀ k user entry, users db !! k = Some user → k ∉ keys → entry ∈ leaders →
         if decide (sort_by = "level")
         then level user < e_level entry ∨
              (level user = e_level entry ∧ xp user ≤ e_xp entry)
         else coins user ≤ e_coins entry).
Proof.
  intros Hres.
  assert (Hcases : (leaders = [] ∧ faults 0 = true ∧ faults 1 = true ∧ faults 2 = true) ∨
                   leaders = query_leaderboard db limit sort_by).
  { destruct (get_leaderboard_cases db limit sort_by faults)
      as [[H0 H]|[(H0 & H1 & H)|[(H0 & H1 & H2 & H)|(H0 & H1 & H2 & H)]]];
      rewrite H in Hres; injection Hres as <-; auto. }
  destruct Hcases as [(-> & H0 & H1 & H2)| ->].
  { split; [simpl; lia|]. split; [simpl; lia|]. split; [by intros ? ?%elem_of_nil|].
    split; [intros i j e1 e2 _ Hi; by rewrite lookup_nil in Hi|].
    exists []. split; [constructor|]. split; [constructor|].
    intros [?|[?|?]]; congruence. }
  unfold query_leaderboard.
  destruct (sorted_rows_keys db sort_by) as (pairs & Hpairs & Hnodup & Hin).
  assert (Hsorted : StronglySorted (before sort_by) (snd <$> pairs)).
  { rewrite <- Hpairs. apply (StronglySorted_merge_sort _). }
  rewrite Hpairs.
  assert (Hlen : length pairs = size (users db)).
  { rewrite <- (length_fmap snd), <- Hpairs, merge_sort_Permutation, length_fmap.
    apply length_map_to_list. }
  set (n := Z.to_nat limit).
  split; [rewrite length_fmap, length_take, length_fmap; lia|].
  split; [rewrite length_fmap, length_take, length_fmap; lia|]. split; [|split].
  - intros entry (user & -> & Hu)%list_elem_of_fmap.
    apply elem_of_take in Hu as (i & Hi & _).
    apply list_lookup_fmap_Some in Hi as ([k user'] & -> & Hk).
    apply list_elem_of_lookup_2 in Hk. apply Hin in Hk. by exists k, user'.
  - intros i j e1 e2 Hij Hi Hj.
    apply list_lookup_fmap_Some in Hi as (u1 & -> & Hi).
    apply list_lookup_fmap_Some in Hj as (u2 & -> & Hj).
    apply lookup_take_Some in Hi as [Hi _]. apply lookup_take_Some in Hj as [Hj _].
    pose proof (StronglySorted_lookup _ _ _ _ _ _ Hsorted Hij Hi Hj) as Hb.
    unfold before in Hb. by destruct (decide (sort_by = "level")).
  - exists (fst <$> take n pairs). split; [|split].
    + rewrite fmap_take. eapply sublist_NoDup; [exact Hnodup|apply sublist_take].
    + rewrite <- fmap_take, <- list_fmap_compose.
      apply Forall2_fmap, Forall_Forall2_diag, Forall_forall.
      intros [k user] Hk%elem_of_take. destruct Hk as (i & Hk & _).
      apply list_elem_of_lookup_2 in Hk. apply Hin in Hk. simpl. by exists user.
    + intros _. split; [rewrite length_fmap, length_take, length_fmap; lia|].
      intros k user entry Hk Hnot (listed & -> & Hl)%list_elem_of_fmap.
      apply Hin in Hk. apply list_elem_of_lookup_1 in Hk as (j & Hj).
      apply elem_of_take in Hl as (i & Hi & Hlt).
      assert (Hge : (n ≤ j)%nat).
      { destruct (le_lt_dec n j) as [|Hjn]; [done|]. exfalso. apply Hnot.
        apply list_elem_of_fmap. exists (k, user). split; [done|].
        apply elem_of_take. eauto. }
      assert (Hjs : (snd <$> pairs) !! j = Some user) by (by rewrite list_lookup_fmap, Hj).
      assert (Hij : (i < j)%nat) by (unfold n in *; lia).
      pose proof (StronglySorted_lookup _ _ _ _ _ _ Hsorted Hij Hi Hjs) as Hb.
      unfold before in Hb. by destruct (decide (sort_by = "level")).
Qed.

Lemma X11_leaderboard_sorted_witness :
  let leaders := [mkEntry 2 250 4 900 40; mkEntry 3 250 2 100 7] in
  (length leaders ≤ Z.to_nat 2)%nat ∧
  (length leaders ≤ size (users db_3))%nat ∧
  (∀ entry, entry ∈ leaders →
     ∃ k user, users db_3 !! k = Some user ∧ entry = to_entry user) ∧
  (∀ i j e1 e2, (i < j)%nat → leaders !! i = Some e1 → leaders !! j = Some e2 →
     if decide ("level" = "level")
     then e_level e2 < e_level e1 ∨ (e_level e2 = e_level e1 ∧ e_xp e2 ≤ e_xp e1)
     else e_coins e2 ≤ e_coins e1) ∧
  ∃ keys, NoDup keys ∧
    Forall2 (fun k entry => ∃ user, users db_3 !! k = Some user ∧ entry = to_entry user)
            keys leaders ∧
    (true = false ∨ false = false ∨ false = false →
       length leaders = Nat.min (Z.to_nat 2) (size (users db_3)) ∧
       ∀ k user entry, users db_3 !! k = Some user → k ∉ keys → entry ∈ leaders →
         if decide ("level" = "level")
         then level user < e_level entry ∨
              (level user = e_level entry ∧ xp user ≤ e_xp entry)
         else coins user ≤ e_coins entry).
Proof.
  apply (X11_leaderboard_sorted db_3 2 "level" (fun attempt => attempt =? 0)).
  vm_compute. reflexivity.
Defined.

(** X12: when an attempt of [get_leaderboard] succeeds after earlier ones
    failed, the caller gets the rows the first attempt would have returned;
    the tables are not touched, one query was sent per attempt, and after a
    failed attempt the store works with a plain [sessionmaker]. *)
Theorem X12_leaderboard_retry_success db limit sort_by faults attempt :
  0 ≤ attempt < 3 → faults attempt = false →
  (∀ earlier, 0 ≤ earlier < attempt → faults earlier = true) →
  get_leaderboard db limit sort_by faults =
    (mk (users db) (transactions db) (if attempt =? 0 then scoped db else false),
     Some (query_leaderboard db limit sort_by), Z.to_nat (attempt + 1)).
Proof.
  intros Hrange Hok Hfail.
  destruct (get_leaderboard_cases db limit sort_by faults)
    as [[H0 ->]|[(H0 & H1 & ->)|[(H0 & H1 & H2 & ->)|(H0 & H1 & H2 & _)]]].
  - assert (attempt = 0) as ->.
    { destruct (decide (attempt = 0)); [done|]. rewrite Hfail in H0 by lia. done. }
    simpl. by destruct db.
  - assert (attempt = 1) as ->.
    { destruct (decide (attempt = 1)); [done|].
      destruct (decide (attempt = 0)) as [->|]; [congruence|].
      rewrite Hfail in H1 by lia. done. }
    done.
  - assert (attempt = 2) as ->.
    { destruct (decide (attempt = 2)); [done|].
      destruct (decide (attempt = 0)) as [->|]; [congruence|].
      destruct (decide (attempt = 1)) as [->|]; [congruence|]. lia. }
    done.
  - exfalso. assert (attempt = 0 ∨ attempt = 1 ∨ attempt = 2) as [->|[->| ->]] by lia;
      congruence.
Qed.

Lemma X12_leaderboard_retry_success_witness :
  get_leaderboard db_3 2 "coins" (fun attempt => attempt <? 2) =
    (mk (users db_3) (transactions db_3) false,
     Some (query_leaderboard db_3 2 "coins"), 3%nat).
Proof.
  apply (X12_leaderboard_retry_success db_3 2 "coins" (fun attempt => attempt <? 2) 2).
  - lia.
  - reflexivity.
  - intros earlier H. apply Z.ltb_lt. lia.
Defined.

(** ** The commands *)

Lemma coins_of_ensure_user db u v : coins_of (ensure_user db u) v = coins_of db v.
Proof.
  unfold coins_of. rewrite users_ensure_user.
  destruct (decide (v = u)) as [->|Hne].
  - rewrite lookup_insert_eq. unfold row. by destruct (users db !! u).
  - by rewrite lookup_insert_ne.
Qed.

Lemma total_supply_ensure_user db u : total_supply (ensure_user db u) = total_supply db.
Proof.
  unfold ensure_user, get_user_data. destruct (users db !! u) eqn:E; [done|].
  simpl. unfold with_users.
  rewrite (total_supply_insert _ u _ _ _ (transactions db) (scoped db)).
  unfold coins_of. simpl. rewrite E. destruct db. simpl. lia.
Qed.

(** The two outcomes of a transfer between distinct users. *)
Lemma transfer_coins_cases db f t a d :
  f ≠ t →
  (∃ db', transfer_coins db f t a d = (db', true) ∧ a ≤ coins_of db f ∧
     is_Some (users db !! f) ∧
     coins_of db' f = coins_of db f - a ∧ coins_of db' t = coins_of db t + a ∧
     (∀ v, v ≠ f → v ≠ t → coins_of db' v = coins_of db v) ∧
     total_supply db' = total_supply db ∧
     transactions db' = transactions db ++ [mkTransaction (Some f) (Some t) a "user_pay" d]) ∨
  (∃ db', transfer_coins db f t a d = (db', false) ∧
     (∀ v, coins_of db' v = coins_of db v) ∧
     total_supply db' = total_supply db ∧ transactions db' = transactions db).
Proof.
  intros Hft. unfold transfer_coins.
  destruct (users db !! f) as [fu|] eqn:Ef; [|right; by exists db].
  assert (Hcf : coins_of db f = coins fu) by (unfold coins_of; by rewrite Ef).
  destruct (coins fu <? a) eqn:Elt; [right; by exists db|].
  assert (Hup : ∀ db1 tu, users db1 !! f = Some fu → users db1 !! t = Some tu →
    ∃ db', transfer_update db1 f t a d = (db', true) ∧
      coins_of db' f = coins fu - a ∧ coins_of db' t = coins tu + a ∧
      (∀ v, v ≠ f → v ≠ t → coins_of db' v = coins_of db1 v) ∧
      total_supply db' = total_supply db1 ∧
      transactions db' = transactions db1 ++ [mkTransaction (Some f) (Some t) a "user_pay" d]).
  { intros db1 tu H1f H1t.
    destruct (transfer_update_distinct db1 f t a d fu tu Hft H1f H1t)
      as (db' & Hupd & Hc1 & Hc2 & Hsum).
    exists db'. split; [done|].
    unfold coins_of in Hc1 at 2. unfold coins_of in Hc2 at 2. rewrite H1f in Hc1.
    rewrite H1t in Hc2. split; [done|]. split; [done|].
    rewrite (transfer_update_spec db1 f t a d fu tu) in Hupd
      by (done || by rewrite lookup_insert_ne).
    injection Hupd as <-. split; [|done].
    intros v Hvf Hvt. unfold coins_of. simpl. by rewrite !lookup_insert_ne. }
  destruct (users db !! t) as [tu|] eqn:Et.
  - left. destruct (Hup db tu Ef Et) as (db' & -> & H1 & H2 & H3 & H4 & H5).
    exists db'. rewrite Hcf. unfold coins_of at 3. rewrite Et.
    repeat split; try done. lia.
  - rewrite (ensure_user_get_user_data db t).
    destruct (scoped db).
    + right. eexists. split; [done|].
      split; [intros v; apply coins_of_ensure_user|].
      split; [apply total_supply_ensure_user|apply transactions_ensure_user].
    + left.
      destruct (Hup (ensure_user db t) (new_user t)) as (db' & -> & H1 & H2 & H3 & H4 & H5).
      { by rewrite lookup_ensure_user_ne. }
      { rewrite users_ensure_user, lookup_insert_eq. unfold row. by rewrite Et. }
      exists db'. rewrite Hcf. unfold coins_of at 3. rewrite Et.
      split; [done|]. split; [lia|]. split; [done|]. split; [done|].
      split; [simpl in H2; lia|]. split.
      { intros v Hvf Hvt. rewrite H3 by done. apply coins_of_ensure_user. }
      split; [by rewrite H4, total_supply_ensure_user|].
      by rewrite H5, transactions_ensure_user.
Qed.

(** X13: [pay] never changes the total supply.  It replies with a success
    only for a sender other than the receiver, a receiver that is not a bot,
    an amount of at least [MIN_TRANSACTION] and a balance that covers it;
    then the sender has the amount less, the receiver the amount more, the
    reply shows these two balances, nobody else's balance changes and one
    transaction is logged.  With any other reply every balance and the log
    are as before. *)
Theorem X13_pay db sender_id receiver_id receiver_is_bot amount :
  ∃ db' reply, Commands.pay db sender_id receiver_id receiver_is_bot amount = (db', reply) ∧
    total_supply db' = total_supply db ∧
    match reply with
    | Commands.PaymentSuccessful new_sender_balance new_receiver_balance =>
        sender_id ≠ receiver_id ∧ receiver_is_bot = false ∧
        Config.MIN_TRANSACTION ≤ amount ≤ coins_of db sender_id ∧
        new_sender_balance = coins_of db sender_id - amount ∧
        new_receiver_balance = coins_of db receiver_id + amount ∧
        coins_of db' sender_id = new_sender_balance ∧
        coins_of db' receiver_id = new_receiver_balance ∧
        (∀ v, v ≠ sender_id → v ≠ receiver_id → coins_of db' v = coins_of db v) ∧
        length (transactions db') = S (length (transactions db))
    | _ => (∀ v, coins_of db' v = coins_of db v) ∧ transactions db' = transactions db
    end.
Proof.
  unfold Commands.pay.
  destruct (sender_id =? receiver_id) eqn:Esr; [by eexists _, _|].
  destruct receiver_is_bot; [by eexists _, _|].
  destruct (amount <? Config.MIN_TRANSACTION) eqn:Emin; [by eexists _, _|].
  assert (Hgc : get_coins db sender_id = (ensure_user db sender_id, coins_of db sender_id)).
  { unfold get_coins, ensure_user, coins_of. by destruct (users db !! sender_id). }
  rewrite Hgc. set (db1 := ensure_user db sender_id).
  destruct (coins_of db sender_id <? amount) eqn:Efunds.
  { eexists _, _. split; [done|]. split; [apply total_supply_ensure_user|].
    split; [intros v; apply coins_of_ensure_user|apply transactions_ensure_user]. }
  assert (Hne : sender_id ≠ receiver_id) by lia.
  destruct (transfer_coins_cases db1 sender_id receiver_id amount
              (Some ("Payment from user " +:+ pretty sender_id +:+
                     " to user " +:+ pretty receiver_id)) Hne)
    as [(db2 & -> & Ha & Hs & Hc1 & Hc2 & Hframe & Hsum & Hlog)
       |(db2 & -> & Hc & Hsum & Hlog)]; simpl.
  - assert (Hg2 : ∀ dbx u, get_coins dbx u = (ensure_user dbx u, coins_of dbx u)).
    { intros dbx u. unfold get_coins, ensure_user, coins_of. by destruct (users dbx !! u). }
    rewrite !Hg2. unfold db1 in *. rewrite !coins_of_ensure_user in *.
    eexists _, _. split; [done|].
    rewrite !total_supply_ensure_user, !transactions_ensure_user in *.
    split; [by rewrite Hsum|].
    unfold Config.MIN_TRANSACTION in *.
    split; [done|]. split; [done|]. split; [lia|]. split; [by rewrite Hc1|].
    split; [by rewrite Hc2|]. rewrite !coins_of_ensure_user.
    split; [done|]. split; [done|]. split.
    + intros v Hv1 Hv2. rewrite !coins_of_ensure_user, Hframe by done.
      apply coins_of_ensure_user.
    + rewrite Hlog, length_app. simpl. lia.
  - unfold db1 in *. eexists _, _. split; [done|].
    split; [by rewrite Hsum; apply total_supply_ensure_user|].
    split; [intros v; rewrite Hc; apply coins_of_ensure_user|].
    by rewrite Hlog, transactions_ensure_user.
Qed.

Lemma get_coins_spec db u : get_coins db u = (ensure_user db u, coins_of db u).
Proof. unfold get_coins, ensure_user, coins_of. by destruct (users db !! u). Qed.

(** X14: [give_coins] leaves the store alone for a caller without admin
    rights and for an amount that is not positive; otherwise it adds the
    amount to the user's balance, logs one [admin_give] credit of the amount
    and replies with the balance before and after. *)
Theorem X14_give_coins db is_admin admin_name u a :
  (is_admin = false →
     Commands.give_coins db is_admin admin_name u a = (db, Ok Commands.GiveAccessDenied)) ∧
  (is_admin = true → a ≤ 0 →
     Commands.give_coins db is_admin admin_name u a = (db, Ok Commands.GiveMustBePositive)) ∧
  (is_admin = true → 0 < a →
     ∃ db' description,
       Commands.give_coins db is_admin admin_name u a =
         (db', Ok (Commands.CoinsAdded (coins_of db u) (coins_of db u + a))) ∧
       coins_of db' u = coins_of db u + a ∧
       (∀ v, v ≠ u → coins_of db' v = coins_of db v) ∧
       total_supply db' = total_supply db + a ∧
       transactions db' = transactions db ++
         [mkTransaction None (Some u) a "admin_give" description]).
Proof.
  unfold Commands.give_coins. split; [by intros ->|]. split.
  - intros -> Ha. simpl. destruct (a <=? 0) eqn:E; [done|lia].
  - intros -> Ha. simpl. destruct (a <=? 0) eqn:E; [lia|].
    rewrite get_coins_spec.
    assert (Hrow : row (ensure_user db u) u = row db u).
    { unfold row at 1. by rewrite users_ensure_user, lookup_insert_eq. }
    match goal with |- context [add_coins ?dbx u a ?ty ?d] =>
      destruct (add_coins_spec dbx u a ty d) as (db' & Hadd & Hus);
      assert (Hlog : transactions db' = transactions db ++
                [mkTransaction None (Some u) a ty d]) end.
    { revert Hadd. unfold add_coins.
      destruct (lookup_ensure_user (ensure_user db u) u) as (user & -> & _). simpl.
      intros [= <- _]. simpl. by rewrite !transactions_ensure_user. }
    rewrite Hadd. rewrite Hrow, <- coins_of_row in *.
    rewrite users_ensure_user, insert_insert_eq in Hus.
    eexists db', _. split; [done|]. split; [|split; [|split]].
    + unfold coins_of at 1. by rewrite Hus, lookup_insert_eq.
    + intros v Hv. unfold coins_of. by rewrite Hus, lookup_insert_ne.
    + destruct db' as [us' ts' s']. simpl in Hus. subst us'.
      rewrite (total_supply_insert _ u _ _ _ (transactions db) (scoped db)).
      simpl. replace (mk (users db) (transactions db) (scoped db)) with db by (by destruct db).
      lia.
    + exact Hlog.
Qed.

Lemma X14_give_coins_witness :
  Commands.give_coins db_100 false "mod" 1 50 = (db_100, Ok Commands.GiveAccessDenied) ∧
  Commands.give_coins db_100 true "mod" 1 (-5) = (db_100, Ok Commands.GiveMustBePositive) ∧
  ∃ db' description,
    Commands.give_coins db_100 true "mod" 1 50 =
      (db', Ok (Commands.CoinsAdded (coins_of db_100 1) (coins_of db_100 1 + 50))) ∧
    coins_of db' 1 = coins_of db_100 1 + 50 ∧
    (∀ v, v ≠ 1 → coins_of db' v = coins_of db_100 v) ∧
    total_supply db' = total_supply db_100 + 50 ∧
    transactions db' = transactions db_100 ++
      [mkTransaction None (Some 1) 50 "admin_give" description].
Proof.
  split; [|split].
  - by apply (X14_give_coins db_100 false "mod" 1 50).
  - apply (X14_give_coins db_100 true "mod" 1 (-5)); [done|lia].
  - apply (X14_give_coins db_100 true "mod" 1 50); [done|lia].
Defined.

(** X15: [take_coins] never removes coins: whatever the balance, an admin
    who asks for a positive amount gets the insufficient-funds reply with the
    user's balance, and after any call every balance and the log are as
    before. *)
Theorem X15_take_coins_never_removes db is_admin admin_name u a :
  ∃ db' reply, Commands.take_coins db is_admin admin_name u a = (db', reply) ∧
    (∀ old_balance new_balance, reply ≠ Commands.CoinsRemoved old_balance new_balance) ∧
    (∀ v, coins_of db' v = coins_of db v) ∧
    transactions db' = transactions db ∧
    (is_admin = true → 0 < a → reply = Commands.InsufficientBalance (coins_of db u)).
Proof.
  unfold Commands.take_coins. destruct is_admin; simpl; [|by eexists _, _].
  destruct (a <=? 0) eqn:E; [eexists _, _; repeat split; try done; lia|].
  rewrite get_coins_spec, remove_coins_never_succeeds.
  eexists _, _. split; [done|]. split; [done|].
  split; [intros v; apply coins_of_ensure_user|]. split; [apply transactions_ensure_user|done].
Qed.

(** X16: the [leaderboard] command treats every [sort_by] other than
    ["coins"] and ["level"] as ["coins"].  A board it shows has between 1 and
    [MAX_LEADERBOARD_ENTRIES] entries and the number of stored accounts as
    its total; it says that there are no users only when there are none or
    when all three queries failed. *)
Theorem X16_leaderboard_command db sort_by faults :
  (sort_by ≠ "coins" → sort_by ≠ "level" →
     Commands.leaderboard db sort_by faults = Commands.leaderboard db "coins" faults) ∧
  match snd (Commands.leaderboard db sort_by faults) with
  | Commands.Board shown leaders total_users =>
      (shown = "coins" ∨ shown = "level") ∧
      (1 ≤ length leaders ≤ Z.to_nat Config.MAX_LEADERBOARD_ENTRIES)%nat ∧
      total_users = Z.of_nat (size (users db))
  | Commands.NoUsersFound =>
      users db = ∅ ∨ (faults 0 = true ∧ faults 1 = true ∧ faults 2 = true)
  end.
Proof.
  split.
  - intros H1 H2. unfold Commands.leaderboard.
    rewrite bool_decide_eq_false_2; [done|].
    rewrite !not_elem_of_cons. split; [done|]. split; [done|]. apply not_elem_of_nil.
  - unfold Commands.leaderboard.
    set (sb := if bool_decide (sort_by ∈ ["coins"; "level"]) then sort_by else "coins").
    assert (Hsb : sb = "coins" ∨ sb = "level").
    { unfold sb. case_bool_decide as Hin; [|by left].
      rewrite !elem_of_cons in Hin. destruct Hin as [?|[?|?%elem_of_nil]]; auto. done. }
    set (q := query_leaderboard db Config.MAX_LEADERBOARD_ENTRIES sb).
    assert (Hq : (length q ≤ Z.to_nat Config.MAX_LEADERBOARD_ENTRIES)%nat ∧
                 (q = [] → users db = ∅)).
    { unfold q, query_leaderboard. rewrite length_fmap, length_take. split; [lia|].
      intros Hnil. apply fmap_nil_inv in Hnil.
      set (sorted := merge_sort (before sb) (snd <$> map_to_list (users db))) in *.
      assert (Hs : sorted = []).
      { destruct sorted; [done|]. by vm_compute in Hnil. }
      pose proof (merge_sort_Permutation (before sb) (snd <$> map_to_list (users db))) as Hp.
      fold sorted in Hp. rewrite Hs in Hp. symmetry in Hp.
      apply Permutation_nil_r in Hp. apply fmap_nil_inv in Hp.
      by apply map_to_list_empty_iff in Hp. }
    destruct Hq as [Hlen Hnil].
    assert (Hcount : ∀ s', get_user_count (mk (users db) (transactions db) s')
                            = Z.of_nat (size (users db))) by done.
    destruct (get_leaderboard_cases db Config.MAX_LEADERBOARD_ENTRIES sb faults)
      as [[H0 ->]|[(H0 & H1 & ->)|[(H0 & H1 & H2 & ->)|(H0 & H1 & H2 & ->)]]];
      fold q; try (destruct q as [|e q'] eqn:Eq; simpl;
                   [left; by apply Hnil|split; [done|]; split; [simpl in *; lia|done]]).
    simpl. by right.
Qed.

(** ** Levelling *)

Lemma transactions_add_coins db u a ty d :
  transactions (fst (add_coins db u a ty d)) =
  transactions db ++ [mkTransaction None (Some u) a ty d].
Proof.
  unfold add_coins. destruct (lookup_ensure_user db u) as (user & -> & _). simpl.
  by rewrite transactions_ensure_user.
Qed.

Lemma transactions_add_xp db u a now :
  transactions (fst (add_xp db u a now)) = transactions db.
Proof.
  unfold add_xp. destruct (lookup_ensure_user db u) as (user & -> & _). simpl.
  by rewrite transactions_ensure_user, app_nil_r.
Qed.

Lemma transactions_set_level db u l :
  transactions (fst (set_level db u l)) = transactions db.
Proof.
  unfold set_level. destruct (lookup_ensure_user db u) as (user & -> & _). simpl.
  by rewrite transactions_ensure_user, app_nil_r.
Qed.

Lemma row_ensure_user db u v : row (ensure_user db u) v = row db v.
Proof.
  unfold row at 1. rewrite users_ensure_user.
  destruct (decide (v = u)) as [->|Hv].
  - by rewrite lookup_insert_eq.
  - by rewrite lookup_insert_ne.
Qed.

Lemma handle_level_up_reward db u old_level new_level :
  old_level < new_level →
  let coin_reward :=
    foldr Z.add 0 (calculate_level_reward <$> seqZ (old_level + 1) (new_level - old_level)) in
  0 < coin_reward ∧
  ∃ db', handle_level_up db u old_level new_level = (db', Ok coin_reward) ∧
    users db' = <[u := with_coins (row db u) (coins (row db u) + coin_reward)]> (users db) ∧
    transactions db' = transactions db ++
      [mkTransaction None (Some u) coin_reward "level_up"
         (Some ("Level up reward for reaching level " +:+ pretty new_level))].
Proof.
  intros Hlt coin_reward.
  assert (Hpos : 0 < coin_reward).
  { apply reward_sum_pos. rewrite seqZ_cons by lia. done. }
  split; [done|].
  unfold handle_level_up. rewrite fold_left_reward, Z.add_0_l.
  replace (new_level + 1 - (old_level + 1)) with (new_level - old_level) by lia.
  fold coin_reward. destruct (0 <? coin_reward) eqn:E; [|lia].
  match goal with |- context [add_coins db u ?a ?ty ?d] =>
    pose proof (transactions_add_coins db u a ty d) as Hlog;
    destruct (add_coins_spec db u a ty d) as (db' & Hadd & Hus) end.
  rewrite Hadd in *. simpl in Hlog. by exists db'.
Qed.

(** X17: what [process_message] does, by where it returns.  It never returns
    at the [xp_gain <= 0] check.  At the cooldown gate it changes nothing.
    When it grants, the author's row gets the gain added to its xp, one more
    message, the time of the gain, and as level the one computed from the new
    xp, whatever level was stored before; without a level-up coins and log
    are as before, with one the sum of the rewards of the levels passed is
    added to the balance and logged as one [level_up] credit.  No other row
    changes on any path. *)
Theorem X17_process_message db m :
  let u := author_id m in
  let g := calculate_xp_gain (content_length m) (random_bonus m) in
  ∃ db' res, process_message db m = (db', res) ∧
    (∀ v, v ≠ u → users db' !! v = users db !! v) ∧
    match res with
    | Ok Cooldown => db' = db
    | Ok NoGain => False
    | Ok (Gained new_xp new_level) =>
        new_xp = xp_of db u + g ∧
        calculate_level_from_xp new_xp = Ok new_level ∧
        (∃ old_level, calculate_level_from_xp (xp_of db u) = Ok old_level ∧
                      new_level ≤ old_level) ∧
        xp (row db' u) = new_xp ∧ level (row db' u) = new_level ∧
        total_messages (row db' u) = total_messages (row db u) + 1 ∧
        last_xp_gain (row db' u) = Some (now_gain m) ∧
        coins_of db' u = coins_of db u ∧
        transactions db' = transactions db
    | Ok (LeveledUp new_xp new_level coin_reward) =>
        new_xp = xp_of db u + g ∧
        calculate_level_from_xp new_xp = Ok new_level ∧
        (∃ old_level, calculate_level_from_xp (xp_of db u) = Ok old_level ∧
           old_level < new_level ∧
           coin_reward = foldr Z.add 0 (calculate_level_reward <$>
                           seqZ (old_level + 1) (new_level - old_level))) ∧
        0 < coin_reward ∧
        xp (row db' u) = new_xp ∧ level (row db' u) = new_level ∧
        total_messages (row db' u) = total_messages (row db u) + 1 ∧
        last_xp_gain (row db' u) = Some (now_gain m) ∧
        coins_of db' u = coins_of db u + coin_reward ∧
        transactions db' = transactions db ++
          [mkTransaction None (Some u) coin_reward "level_up"
             (Some ("Level up reward for reaching level " +:+ pretty new_level))]
    | Raise e => transactions db' = transactions db
    end.
Proof.
  intros u g. unfold process_message. fold u. fold g.
  assert (Hcg : fst (can_gain_xp db u Config.XP_COOLDOWN (now_check m)) = db).
  { unfold can_gain_xp. destruct (users db !! u) as [user|]; [|done].
    by destruct (last_xp_gain user). }
  destruct (can_gain_xp db u Config.XP_COOLDOWN (now_check m)) as [db0 can].
  simpl in Hcg. subst db0. destruct can; simpl; [|by eexists _, _].
  pose proof (calculate_xp_gain_pos (content_length m) (random_bonus m)) as Hg. fold g in Hg.
  destruct (g <=? 0) eqn:Eg; [lia|]. rewrite get_xp_spec, <- xp_of_row.
  assert (Hne : ∀ v, v ≠ u → users (ensure_user db u) !! v = users db !! v).
  { intros v Hv. rewrite users_ensure_user. by rewrite lookup_insert_ne. }
  destruct (calculate_level_from_xp (xp_of db u)) as [old_level|e] eqn:Eold; simpl;
    [|eexists _, _; split; [done|]; split; [done|apply transactions_ensure_user]].
  pose proof (transactions_add_xp (ensure_user db u) u g (now_gain m)) as Ht2.
  destruct (add_xp_spec (ensure_user db u) u g (now_gain m)) as (db2 & Hax & H2).
  rewrite row_ensure_user, <- xp_of_row in Hax, H2.
  rewrite Hax in *. simpl in Ht2. rewrite transactions_ensure_user in Ht2.
  rewrite users_ensure_user, insert_insert_eq in H2.
  assert (Hr2 : row db2 u = with_xp_gain (row db u) (xp_of db u + g) (now_gain m)).
  { unfold row at 1. by rewrite H2, lookup_insert_eq. }
  assert (Hne2 : ∀ v, v ≠ u → users db2 !! v = users db !! v).
  { intros v Hv. rewrite H2. by rewrite lookup_insert_ne. }
  destruct (calculate_level_from_xp (xp_of db u + g)) as [new_level|e] eqn:Enew; simpl;
    [|by eexists _, _].
  pose proof (transactions_set_level db2 u new_level) as Ht3.
  destruct (set_level_spec db2 u new_level) as (db3 & Hsl & H3).
  rewrite Hsl in *. simpl in Ht3. rewrite Ht2 in Ht3.
  rewrite Hr2, H2, insert_insert_eq in H3.
  assert (Hr3 : row db3 u =
            with_level (with_xp_gain (row db u) (xp_of db u + g) (now_gain m)) new_level).
  { unfold row at 1. by rewrite H3, lookup_insert_eq. }
  assert (Hne3 : ∀ v, v ≠ u → users db3 !! v = users db !! v).
  { intros v Hv. rewrite H3. by rewrite lookup_insert_ne. }
  destruct (old_level <? new_level) eqn:Elt; simpl.
  - destruct (handle_level_up_reward db3 u old_level new_level ltac:(lia))
      as (Hpos & db4 & -> & H4 & Ht4).
    rewrite Hr3, H3, insert_insert_eq in H4. rewrite Ht3 in Ht4.
    assert (Hr4 : row db4 u = with_coins
              (with_level (with_xp_gain (row db u) (xp_of db u + g) (now_gain m)) new_level)
              (coins (row db u) + foldr Z.add 0 (calculate_level_reward <$>
                                   seqZ (old_level + 1) (new_level - old_level)))).
    { unfold row at 1. by rewrite H4, lookup_insert_eq. }
    eexists _, _. split; [done|]. split.
    { intros v Hv. rewrite H4. by rewrite lookup_insert_ne. }
    rewrite !coins_of_row, Hr4. simpl.
    repeat split; try done. exists old_level. split; [done|]. split; [lia|done].
  - eexists _, _. split; [done|]. split; [done|].
    rewrite !coins_of_row, Hr3. simpl.
    repeat split; try done. exists old_level. split; [done|lia].
Qed.

(** X18: a message with a random bonus in range earns between
    [BASE_XP_PER_MESSAGE] and 30 xp; the gain does not fall when the message
    gets longer and from 100 characters on length adds nothing more. *)
Theorem X18_calculate_xp_gain len rnd :
  0 ≤ len → 0 ≤ rnd ≤ Config.RANDOM_XP_BONUS →
  Config.BASE_XP_PER_MESSAGE ≤ calculate_xp_gain len rnd ≤
    Config.BASE_XP_PER_MESSAGE + Config.MAX_LENGTH_BONUS + Config.RANDOM_XP_BONUS ∧
  (∀ len', len ≤ len' → calculate_xp_gain len rnd ≤ calculate_xp_gain len' rnd) ∧
  (100 ≤ len → calculate_xp_gain len rnd =
                 Config.BASE_XP_PER_MESSAGE + Config.MAX_LENGTH_BONUS + rnd).
Proof.
  unfold calculate_xp_gain, Config.RANDOM_XP_BONUS, Config.BASE_XP_PER_MESSAGE,
    Config.MAX_LENGTH_BONUS.
  intros Hlen Hrnd.
  pose proof (Z.div_pos len 10 Hlen ltac:(lia)).
  split; [lia|]. split.
  - intros len' Hle. pose proof (Z.div_le_mono len len' 10 ltac:(lia) Hle). lia.
  - intros H100. pose proof (Z.div_le_mono 100 len 10 ltac:(lia) H100).
    change (100 / 10) with 10 in *. lia.
Qed.

Lemma X18_calculate_xp_gain_witness :
  15 ≤ calculate_xp_gain 42 3 ≤ 30 ∧
  (∀ len', 42 ≤ len' → calculate_xp_gain 42 3 ≤ calculate_xp_gain len' 3) ∧
  (100 ≤ 42 → calculate_xp_gain 42 3 = 15 + 10 + 3).
Proof. apply (X18_calculate_xp_gain 42 3); unfold Config.RANDOM_XP_BONUS; lia. Defined.

Lemma calculate_xp_for_level_step level :
  1 ≤ level →
  calculate_xp_for_level (level + 1) - calculate_xp_for_level level =
  (2 * level - 1) * Config.XP_PER_LEVEL_BASE.
Proof.
  intros Hl. unfold calculate_xp_for_level, Config.XP_PER_LEVEL_BASE.
  destruct (level + 1 <=? 1) eqn:E1; [lia|].
  destruct (level <=? 1) eqn:E2; [replace level with 1 by lia; done|].
  replace (level + 1 - 1) with (level - 1 + 1) by lia.
  rewrite !Z.pow_2_r. lia.
Qed.

(** X19: the xp a level requires is 0 up to level 1 and grows strictly from
    there on, each level [L >= 1] being [(2 L - 1) * XP_PER_LEVEL_BASE] xp
    wide. *)
Theorem X19_calculate_xp_for_level level level' :
  1 ≤ level → level < level' →
  calculate_xp_for_level level < calculate_xp_for_level level' ∧
  calculate_xp_for_level (level + 1) - calculate_xp_for_level level =
    (2 * level - 1) * Config.XP_PER_LEVEL_BASE ∧
  (∀ l, l ≤ 1 → calculate_xp_for_level l = 0).
Proof.
  intros H1 Hlt. split; [|split; [by apply calculate_xp_for_level_step|]].
  - unfold calculate_xp_for_level, Config.XP_PER_LEVEL_BASE.
    destruct (level' <=? 1) eqn:E1; [lia|].
    destruct (level <=? 1) eqn:E2; rewrite !Z.pow_2_r; nia.
  - intros l Hl. unfold calculate_xp_for_level. destruct (l <=? 1) eqn:E; [done|lia].
Qed.

Lemma X19_calculate_xp_for_level_witness :
  calculate_xp_for_level 4 < calculate_xp_for_level 7 ∧
  calculate_xp_for_level (4 + 1) - calculate_xp_for_level 4 =
    (2 * 4 - 1) * Config.XP_PER_LEVEL_BASE ∧
  (∀ l, l ≤ 1 → calculate_xp_for_level l = 0).
Proof. apply (X19_calculate_xp_for_level 4 7); lia. Defined.

Lemma get_user_data_spec db u : get_user_data db u = (ensure_user db u, to_dict (row db u)).
Proof. unfold ensure_user, get_user_data, row. by destruct (users db !! u). Qed.

Lemma true_div_zero_division a b :
  PyFloat.true_div a b = Raise ZeroDivisionError ↔ b = 0.
Proof.
  unfold PyFloat.true_div. destruct (b =? 0) eqn:Eb.
  - split; [lia|done].
  - split; [|lia]. destruct (a =? 0); [done|].
    destruct (SFdiv_core_binary _ _ _ _ _ _) as [[q e] l].
    by destruct (binary_round_aux _ _ _ _ _ _).
Qed.

(** X20: the statistics of [get_user_stats], which the [balance] command
    shows.  With a stored level of 0 or less the call raises
    [ZeroDivisionError]; with a level of 1 or more it never does, and in the
    result it returns the width of the level is [(2 level - 1) *
    XP_PER_LEVEL_BASE], the progress is the stored xp less the xp the stored
    level requires (negative when the stored xp is below it), and progress
    and xp needed add up to the width.  For an id without a row the row is
    created and the result is 0 of 100 xp at level 1. *)
Theorem X20_get_user_stats db u :
  let lvl := level (row db u) in
  ∃ res, get_user_stats db u = (ensure_user db u, res) ∧
    (lvl ≤ 0 → res = Raise ZeroDivisionError) ∧
    (1 ≤ lvl → res ≠ Raise ZeroDivisionError) ∧
    (∀ s, res = Ok s →
       1 ≤ lvl ∧
       s_coins s = coins_of db u ∧ s_xp s = xp_of db u ∧ s_level s = lvl ∧
       s_total_messages s = total_messages (row db u) ∧
       s_xp_for_next_level s = (2 * lvl - 1) * Config.XP_PER_LEVEL_BASE ∧
       s_xp_progress s = xp_of db u - calculate_xp_for_level lvl ∧
       s_xp_progress s + s_xp_needed s = s_xp_for_next_level s) ∧
    (users db !! u = None →
       res = Ok (mkStats 0 0 1 0 100 100 0 (S754_zero false))).
Proof.
  intros lvl. unfold get_user_stats. rewrite get_user_data_spec. simpl. fold lvl.
  rewrite <- xp_of_row, <- coins_of_row.
  eexists. split; [done|].
  set (den := calculate_xp_for_level (lvl + 1) - calculate_xp_for_level lvl).
  assert (Hden : (lvl ≤ 0 → den = 0) ∧
                 (1 ≤ lvl → den = (2 * lvl - 1) * Config.XP_PER_LEVEL_BASE)).
  { split; [|apply calculate_xp_for_level_step].
    intros Hl. unfold den, calculate_xp_for_level.
    destruct (lvl + 1 <=? 1) eqn:E1; [|lia]. destruct (lvl <=? 1) eqn:E2; [done|lia]. }
  destruct Hden as [Hden0 Hden1].
  set (q := PyFloat.true_div (xp_of db u - calculate_xp_for_level lvl) den).
  pose proof (true_div_zero_division (xp_of db u - calculate_xp_for_level lvl) den) as Hz.
  fold q in Hz.
  change (PyFloat.of_int 100) with (Ok (S754_finite false 7036874417766400 (-46)) : result _).
  split; [|split; [|split]].
  - intros Hl. destruct Hz as [_ Hz]. by rewrite Hz by auto.
  - intros Hl. destruct q as [f|e] eqn:Eq; [done|]. simpl. intros [= ->].
    destruct Hz as [Hz _]. specialize (Hz eq_refl). rewrite Hden1 in Hz by done.
    unfold Config.XP_PER_LEVEL_BASE in Hz. lia.
  - intros s. destruct q as [f|e] eqn:Eq; [|done]. simpl. intros [= <-]. simpl.
    assert (Hl : 1 ≤ lvl).
    { destruct (Z_le_gt_dec lvl 0) as [Hl|Hl]; [|lia].
      destruct Hz as [_ Hz]. by specialize (Hz (Hden0 Hl)). }
    rewrite <- Hden1 by done. unfold den. repeat split; try done; lia.
  - intros Hnone. unfold q, den, lvl, xp_of, coins_of, row. rewrite Hnone. simpl.
    vm_compute. reflexivity.
Qed.

(** ** Role rewards *)

Lemma add_coins_full db u a ty d :
  ∃ db', add_coins db u a ty d = (db', Ok (coins_of db u + a)) ∧
    coins_of db' u = coins_of db u + a ∧
    (∀ v, v ≠ u → coins_of db' v = coins_of db v) ∧
    transactions db' = transactions db ++ [mkTransaction None (Some u) a ty d].
Proof.
  pose proof (transactions_add_coins db u a ty d) as Hlog.
  destruct (add_coins_spec db u a ty d) as (db' & Hadd & Hus).
  rewrite Hadd in Hlog. simpl in Hlog. rewrite <- coins_of_row in Hadd, Hus.
  exists db'. split; [done|]. split; [|split; [|done]].
  - unfold coins_of at 1. by rewrite Hus, lookup_insert_eq.
  - intros v Hv. unfold coins_of. by rewrite Hus, lookup_insert_ne.
Qed.

Lemma role_reward_bounds role : 10 ≤ role_reward role ≤ 100.
Proof.
  unfold role_reward, Config.DEFAULT_ROLE_REWARD.
  destruct (Config.ROLE_REWARDS !! Main.role_name role) as [reward|] eqn:E; simpl; [|lia].
  apply elem_of_list_to_map_2 in E. rewrite !elem_of_cons in E.
  destruct E as [E|[E|[E|[E|[E|E%elem_of_nil]]]]]; [..|done];
    injection E as _ ->; lia.
Qed.

Lemma reward_roles_fold after_id roles : ∀ db total_reward role_names,
  ∃ db', fold_left (fun acc role => Main.reward_role acc after_id role) roles
                   (db, Ok (total_reward, role_names))
         = (db', Ok (total_reward + foldr Z.add 0 (role_reward <$> roles),
                     role_names ++ (Main.role_name <$> roles))) ∧
    coins_of db' after_id = coins_of db after_id + foldr Z.add 0 (role_reward <$> roles) ∧
    (∀ v, v ≠ after_id → coins_of db' v = coins_of db v) ∧
    transactions db' = transactions db ++ (role_reward_record after_id <$> roles).
Proof.
  induction roles as [|role roles IH]; intros db total_reward role_names; csimpl.
  - exists db. rewrite Z.add_0_r, !app_nil_r. auto with lia.
  - pose proof (role_reward_bounds role) as Hb. unfold role_reward in Hb.
    destruct (0 <? _) eqn:E; [|lia].
    match goal with |- context [add_coins db after_id ?a ?ty ?d] =>
      destruct (add_coins_full db after_id a ty d) as (db1 & -> & Hc & Hf & Ht) end.
    fold (role_reward role) in *.
    destruct (IH db1 (total_reward + role_reward role) (role_names ++ [Main.role_name role]))
      as (db' & -> & Hc' & Hf' & Ht').
    exists db'. split; [|split; [|split]].
    + f_equal. f_equal. f_equal; [lia|]. by rewrite <- app_assoc.
    + rewrite Hc', Hc. lia.
    + intros v Hv. by rewrite Hf', Hf.
    + rewrite Ht', Ht, <- app_assoc. done.
Qed.

(** X21: [on_member_update] pays for every role that is in [after.roles] and
    not in [before.roles], whatever its name: a reward is one of the
    [ROLE_REWARDS] or the default, so between 10 and 100 coins.  The member's
    balance rises by the sum of the rewards, each is logged as one
    [role_reward] credit in the order the roles are visited, no other balance
    changes, and the total and the names that are reported are those of the
    new roles. *)
Theorem X21_on_member_update db before_roles after_roles after_id :
  ∃ db' new_roles,
    Main.on_member_update db before_roles after_roles after_id =
      (db', Ok (foldr Z.add 0 (role_reward <$> new_roles), Main.role_name <$> new_roles)) ∧
    NoDup new_roles ∧
    (∀ role, role ∈ new_roles ↔ role ∈ after_roles ∧ role ∉ before_roles) ∧
    (∀ role, 10 ≤ role_reward role ≤ 100) ∧
    coins_of db' after_id =
      coins_of db after_id + foldr Z.add 0 (role_reward <$> new_roles) ∧
    (∀ v, v ≠ after_id → coins_of db' v = coins_of db v) ∧
    transactions db' = transactions db ++ (role_reward_record after_id <$> new_roles).
Proof.
  unfold Main.on_member_update.
  set (new_roles := elements (list_to_set after_roles ∖ list_to_set before_roles)).
  destruct (reward_roles_fold after_id new_roles db 0 []) as (db' & Hrun & Hc & Hf & Ht).
  exists db', new_roles. rewrite Hrun, Z.add_0_l, app_nil_l.
  split; [done|]. split; [apply NoDup_elements|]. split.
  { intros role. unfold new_roles.
    rewrite elem_of_elements, elem_of_difference, !elem_of_list_to_set. done. }
  split; [apply role_reward_bounds|done].
Qed.

(** ** The JSON store of database.py *)

Lemma json_get_user_data db u :
  ∃ db1, Database.get_user_data db u = (db1, u) ∧
    Database.getitem db1 u = Database.getitem db u ∧
    is_Some (Database.data db1 !! u) ∧
    (∀ v, v ≠ u → Database.data db1 !! v = Database.data db !! v) ∧
    (Database.data db !! u = None → Database.file db1 = Database.data db1) ∧
    (is_Some (Database.data db !! u) → db1 = db).
Proof.
  unfold Database.get_user_data, Database.getitem.
  destruct (Database.data db !! u) as [d|] eqn:E.
  - exists db. rewrite E. by repeat split.
  - eexists. split; [done|]. simpl. rewrite lookup_insert_eq.
    split; [done|]. split; [done|]. split; [|split; [done|by intros [? ?]]].
    intros v Hv. by rewrite lookup_insert_ne.
Qed.

Lemma json_setitem_coins db u c :
  is_Some (Database.data db !! u) →
  d_coins (Database.getitem (Database.save_data (Database.setitem_coins db u c)) u) = c ∧
  (∀ v, v ≠ u →
     Database.data (Database.save_data (Database.setitem_coins db u c)) !! v =
     Database.data db !! v).
Proof.
  intros [d Hd]. unfold Database.getitem, Database.save_data, Database.setitem_coins. simpl.
  split.
  - by rewrite lookup_alter_eq, Hd.
  - intros v Hv. by rewrite lookup_alter_ne.
Qed.

(** X22: on the JSON store of database.py, [remove_coins] does what its
    docstring says: it returns True exactly when the balance is at least the
    amount, then the balance is the amount less (more, for a negative
    amount) and the file holds the data; otherwise the balance is as
    before.  [add_coins] returns and stores the balance plus the amount and
    [set_coins] stores the amount, both saving the file.  None of the three
    writes another user's entry. *)
Theorem X22_json_store_coins db u a :
  let balance := d_coins (Database.getitem db u) in
  (∃ db', Database.remove_coins db u a = (db', bool_decide (a ≤ balance)) ∧
     d_coins (Database.getitem db' u) =
       (if bool_decide (a ≤ balance) then balance - a else balance) ∧
     (∀ v, v ≠ u → Database.data db' !! v = Database.data db !! v) ∧
     (a ≤ balance → Database.file db' = Database.data db')) ∧
  (∃ db', Database.add_coins db u a = (db', balance + a) ∧
     d_coins (Database.getitem db' u) = balance + a ∧
     (∀ v, v ≠ u → Database.data db' !! v = Database.data db !! v) ∧
     Database.file db' = Database.data db') ∧
  (d_coins (Database.getitem (Database.set_coins db u a) u) = a ∧
   (∀ v, v ≠ u → Database.data (Database.set_coins db u a) !! v = Database.data db !! v) ∧
   Database.file (Database.set_coins db u a) = Database.data (Database.set_coins db u a)).
Proof.
  intros balance.
  destruct (json_get_user_data db u) as (db1 & Hg & Hitem & Hsome & Hframe & _).
  unfold Database.remove_coins, Database.add_coins, Database.set_coins. rewrite Hg, Hitem.
  fold balance. split; [|split].
  - destruct (a <=? balance) eqn:E.
    + rewrite bool_decide_eq_true_2 by lia.
      destruct (json_setitem_coins db1 u (balance - a) Hsome) as [Hc Hf].
      eexists. split; [done|]. split; [done|]. split; [|done].
      intros v Hv. by rewrite Hf, Hframe.
    + rewrite bool_decide_eq_false_2 by lia.
      exists db1. split; [done|]. split; [by rewrite Hitem|]. split; [done|lia].
  - destruct (json_setitem_coins db1 u (balance + a) Hsome) as [Hc Hf].
    eexists. split; [by rewrite Hc|]. split; [done|]. split; [|done].
    intros v Hv. by rewrite Hf, Hframe.
  - destruct (json_setitem_coins db1 u a Hsome) as [Hc Hf].
    split; [done|]. split; [|done]. intros v Hv. by rewrite Hf, Hframe.
Qed.

(** ** The level formula against exact arithmetic *)

Lemma shr_m_iter k : ∀ m r s,
  0 ≤ m →
  ∃ r' s', @Nat.iter k _ shr_1 (Build_shr_record m r s)
           = Build_shr_record (m / 2 ^ Z.of_nat k) r' s'.
Proof.
  induction k as [|k IH]; intros m r s Hm.
  - exists r, s. cbn [Nat.iter]. change (Z.of_nat 0) with 0.
    by rewrite Z.pow_0_r, Z.div_1_r.
  - destruct (IH m r s Hm) as (r' & s' & Hk).
    assert (0 < 2 ^ Z.of_nat k) by (apply Z.pow_pos_nonneg; lia).
    rewrite Nat.iter_succ, Hk, shr_1_nonneg by (apply Z.div_pos; lia).
    eexists _, _. f_equal.
    rewrite Nat2Z.inj_succ, Z.pow_succ_r, (Z.mul_comm 2), Z.div_div by lia. done.
Qed.

Lemma round_nearest_even_bounds m l :
  m ≤ round_nearest_even m l ≤ m + 1.
Proof. destruct l as [|[]]; cbn [round_nearest_even]; try lia. destruct (Z.even m); lia. Qed.

Lemma shr_record_of_loc_m m l : ∃ r s, shr_record_of_loc m l = Build_shr_record m r s.
Proof. destruct l as [|[]]; by eexists _, _. Qed.

Lemma binary_round_aux_faithful Q E l :
  0 < Q → 53 ≤ Zdigits2 Q → -1021 ≤ E → Zdigits2 Q + E ≤ 1000 →
  let K := Zdigits2 Q - 53 in
  ∃ m e, binary_round_aux 53 1024 false Q E l = S754_finite false m e ∧
    2 ^ 52 ≤ Zpos m < 2 ^ 53 ∧ E + K ≤ e ≤ E + K + 1 ∧
    Q / 2 ^ K ≤ Zpos m * 2 ^ (e - (E + K)) ≤ Q / 2 ^ K + 1.
Proof.
  intros HQ Hd HE Hmax K.
  pose proof (Zdigits2_bounds Q HQ) as HQb.
  assert (HK : 0 ≤ K) by (unfold K; lia).
  replace (Zdigits2 Q) with (53 + K) in HQb by (unfold K; lia).
  replace (53 + K - 1) with (52 + K) in HQb by lia.
  rewrite !Z.pow_add_r in HQb by lia.
  assert (HP : 0 < 2 ^ K) by (apply Z.pow_pos_nonneg; lia).
  assert (Hm1 : 2 ^ 52 ≤ Q / 2 ^ K < 2 ^ 53).
  { split; [apply Z.div_le_lower_bound; lia|apply Z.div_lt_upper_bound; lia]. }
  rewrite binary_round_aux_finish.
  assert (Hfirst : ∃ m2,
    snd (shr_fexp 53 1024 Q E l) = E + K ∧
    round_nearest_even (shr_m (fst (shr_fexp 53 1024 Q E l)))
                       (loc_of_shr_record (fst (shr_fexp 53 1024 Q E l))) = m2 ∧
    Q / 2 ^ K ≤ m2 ≤ Q / 2 ^ K + 1).
  { unfold shr_fexp. rewrite fexp_big by lia.
    replace (Zdigits2 Q + E - 53 - E) with K by (unfold K; lia).
    destruct (shr_record_of_loc_m Q l) as (r & s & ->).
    destruct K as [|p|p] eqn:EK; [| |lia].
    - cbn [shr fst snd shr_m]. eexists. split; [lia|]. split; [done|].
      rewrite Z.pow_0_r, Z.div_1_r. apply round_nearest_even_bounds.
    - cbn [shr fst snd]. rewrite iter_pos_nat.
      destruct (shr_m_iter (Pos.to_nat p) Q r s ltac:(lia)) as (r' & s' & ->).
      rewrite positive_nat_Z. cbn [shr_m].
      eexists. split; [done|]. split; [done|]. apply round_nearest_even_bounds. }
  destruct Hfirst as (m2 & Hsh & Hm2 & Hb).
  rewrite Hsh, Hm2.
  destruct (second_stage m2 (E + K)) as (m & e & Hfin & Hmb & Heb & Hval);
    [lia|lia|unfold K; lia|].
  exists m, e. split; [done|]. split; [done|]. split; [done|]. by rewrite Hval.
Qed.

Lemma true_div_bracket xp :
  1 ≤ xp < 2 ^ 40 →
  ∃ m e w, PyFloat.true_div xp Config.XP_PER_LEVEL_BASE = Ok (S754_finite false m e) ∧
    2 ^ 52 ≤ Zpos m < 2 ^ 53 ∧ 19 ≤ w ≤ 60 ∧ 0 ≤ e + w ≤ 1 ∧
    (∀ n, 0 ≤ n → 100 * (n * n) ≤ xp → n * n * 2 ^ w ≤ Zpos m * 2 ^ (e + w)) ∧
    100 * (Zpos m * 2 ^ (e + w)) ≤ xp * 2 ^ w + 100.
Proof.
  intros Hxp.
  unfold PyFloat.true_div, PyFloat.prec, PyFloat.emax, Config.XP_PER_LEVEL_BASE.
  change (100 =? 0) with false. change (100 <? 0) with false. change (Z.abs 100) with 100.
  destruct (xp =? 0) eqn:E0; [lia|]. destruct (xp <? 0) eqn:E1; [lia|].
  rewrite Z.abs_eq by lia. cbn [xorb].
  unfold SFdiv_core_binary. change (Zdigits2 100) with 7.
  pose proof (Zdigits2_bounds xp ltac:(lia)) as [Hlo Hhi].
  assert (Hd : 1 ≤ Zdigits2 xp ≤ 40).
  { split.
    - assert (0 < Zdigits2 xp); [|lia].
      apply (pow2_lt_cancel _ _ xp); [change (2 ^ 0) with 1; lia|done].
    - assert (Zdigits2 xp - 1 < 40); [|lia]. apply (pow2_lt_cancel _ _ xp); [done|lia]. }
  set (d := Zdigits2 xp) in *. clearbody d.
  unfold fexp, emin.
  replace (Z.min (Z.max (d + 0 - (7 + 0) - 53) (3 - 1024 - 53)) (0 - 0)) with (d - 60) by lia.
  replace (0 - 0 - (d - 60)) with (60 - d) by lia.
  assert (Hsdef : ∃ s, s = 60 - d) by eauto. destruct Hsdef as [s Hs]. rewrite <- Hs.
  assert (Hm' : match s with
                | 0 => xp
                | Z.pos _ => Z.shiftl xp s
                | Z.neg _ => 0
                end = xp * 2 ^ s).
  { destruct s as [|p|p] eqn:E; [lia| |lia]. by rewrite Z.shiftl_mul_pow2 by lia. }
  rewrite Hm'.
  assert (HPs : 0 < 2 ^ s) by (apply Z.pow_pos_nonneg; lia).
  assert (Hrange : 2 ^ 59 ≤ xp * 2 ^ s < 2 ^ 60).
  { replace 59 with (d - 1 + s) by lia. replace 60 with (d + s) by lia.
    rewrite !Z.pow_add_r by lia. nia. }
  pose proof (Z_div_mod_eq_full (xp * 2 ^ s) 100) as Hdm.
  pose proof (Z.mod_pos_bound (xp * 2 ^ s) 100 ltac:(lia)) as Hmb.
  unfold Z.div, Z.modulo in Hdm, Hmb.
  destruct (Z.div_eucl (xp * 2 ^ s) 100) as [q r].
  assert (Hq : 2 ^ 52 ≤ q < 2 ^ 54).
  { change (2 ^ 59) with 576460752303423488 in Hrange.
    change (2 ^ 60) with 1152921504606846976 in Hrange.
    change (2 ^ 52) with 4503599627370496. change (2 ^ 54) with 18014398509481984. lia. }
  assert (HdQ : 53 ≤ Zdigits2 q ≤ 54).
  { pose proof (Zdigits2_bounds q ltac:(lia)) as [Hqlo Hqhi]. split.
    - assert (52 < Zdigits2 q); [|lia]. apply (pow2_lt_cancel _ _ q); [lia|done].
    - assert (Zdigits2 q - 1 < 54); [|lia]. apply (pow2_lt_cancel _ _ q); [done|lia]. }
  match goal with |- context [binary_round_aux _ _ _ q _ ?l] =>
    destruct (binary_round_aux_faithful q (d - 60) l)
      as (m & e & -> & Hm & He & Hval); [lia|lia|lia|lia|] end.
  assert (HKdef : ∃ K, K = Zdigits2 q - 53) by eauto.
  destruct HKdef as [K HK]. rewrite <- HK in *.
  assert (HPK : 0 < 2 ^ K) by (apply Z.pow_pos_nonneg; lia).
  exists m, e, (s - K). split; [done|]. split; [done|]. split; [lia|].
  replace (e + (s - K)) with (e - (d - 60 + K)) by lia. split; [lia|].
  assert (Hsplit : 2 ^ s = 2 ^ (s - K) * 2 ^ K)
    by (rewrite <- Z.pow_add_r by lia; f_equal; lia).
  assert (HPw : 0 < 2 ^ (s - K)) by (apply Z.pow_pos_nonneg; lia).
  pose proof (Z_div_mod_eq_full q (2 ^ K)) as HdK.
  pose proof (Z.mod_pos_bound q (2 ^ K) ltac:(lia)) as HmK.
  split.
  - intros n Hn Hle. etransitivity; [|apply Hval].
    apply Z.div_le_lower_bound; [lia|].
    assert (100 * (n * n * 2 ^ s) ≤ 100 * q + r) by nia.
    assert (n * n * 2 ^ s ≤ q).
    { destruct (Z_le_gt_dec (n * n * 2 ^ s) q) as [|Hgt]; [done|exfalso]. lia. }
    rewrite Hsplit in *. lia.
  - assert (100 * (q / 2 ^ K) ≤ xp * 2 ^ (s - K)); [|lia].
    assert (100 * (q / 2 ^ K) * 2 ^ K ≤ xp * 2 ^ (s - K) * 2 ^ K); [|nia].
    replace (xp * 2 ^ (s - K) * 2 ^ K) with (xp * 2 ^ s) by (rewrite Hsplit; lia). nia.
Qed.

Lemma int_floor n m e :
  e < 0 → n * 2 ^ (- e) ≤ Zpos m < (n + 1) * 2 ^ (- e) →
  PyFloat.int (S754_finite false m e) = Ok n.
Proof.
  intros He Hm. unfold PyFloat.int. f_equal.
  destruct e as [|p|p]; [lia|lia|].
  rewrite Z.shiftr_div_pow2 by lia.
  change (- Z.neg p) with (Z.pos p) in Hm.
  assert (0 < 2 ^ Z.pos p) by (apply Z.pow_pos_nonneg; lia).
  symmetry. apply (Z.div_unique_pos _ _ _ (Z.pos m - n * 2 ^ Z.pos p)); lia.
Qed.

Lemma sqrt_int_bracket n m e w :
  0 ≤ n → n + 1 ≤ 2 ^ 20 →
  2 ^ 52 ≤ Zpos m < 2 ^ 53 → 19 ≤ w ≤ 60 → 0 ≤ e + w ≤ 1 →
  n * n * 2 ^ w ≤ Zpos m * 2 ^ (e + w) →
  100 * (Zpos m * 2 ^ (e + w)) ≤ (100 * ((n + 1) * (n + 1)) - 1) * 2 ^ w + 100 →
  ∃ r, PyFloat.sqrt (S754_finite false m e) = Ok r ∧ PyFloat.int r = Ok n.
Proof.
  intros Hn Hn20 Hm Hw Hj Hlow Hupp.
  assert (Htdef : ∃ t, t = - e) by eauto. destruct Htdef as [t Ht].
  assert (Ht18 : 18 ≤ t ≤ 60) by lia.
  assert (HPt : 0 < 2 ^ t) by (apply Z.pow_pos_nonneg; lia).
  assert (Hsplit : 2 ^ w = 2 ^ t * 2 ^ (e + w))
    by (rewrite <- Z.pow_add_r by lia; f_equal; lia).
  assert (HPj : 1 ≤ 2 ^ (e + w) ≤ 2).
  { assert (e + w = 0 ∨ e + w = 1) as [-> | ->] by lia; done. }
  assert (Hlow' : n * n * 2 ^ t ≤ Zpos m) by (rewrite Hsplit in Hlow; nia).
  assert (Hupp' : 100 * Zpos m ≤ (100 * ((n + 1) * (n + 1)) - 1) * 2 ^ t + 100).
  { rewrite Hsplit in Hupp. nia. }
  clear Hlow Hupp Hsplit HPj.
  (* the square root *)
  unfold PyFloat.sqrt, PyFloat.prec, PyFloat.emax. cbn [SFsqrt].
  unfold SFsqrt_core_binary.
  rewrite (Zdigits2_unique (Zpos m) 53) by lia.
  rewrite Z.div2_div.
  replace ((53 + e + 1) / 2) with (27 + e / 2)
    by (replace (53 + e + 1) with (e + 27 * 2) by lia; rewrite Z.div_add by lia; lia).
  pose proof (Z.div_mod e 2 ltac:(lia)) as Hdm.
  pose proof (Z.mod_pos_bound e 2 ltac:(lia)) as Hmb.
  rewrite fexp_big by lia. rewrite Z.div2_div.
  replace (Z.min (27 + e / 2 - 53) (e / 2)) with (e / 2 - 26) by lia.
  assert (He'def : ∃ e', e' = e / 2 - 26) by eauto. destruct He'def as [e' He'].
  rewrite <- He'.
  assert (Hsdef : ∃ s, s = e - 2 * e') by eauto. destruct Hsdef as [s Hs].
  rewrite <- Hs.
  assert (Hs52 : 52 ≤ s ≤ 53) by lia.
  assert (He'35 : -56 ≤ e' ≤ -35) by lia.
  assert (Hm' : match s with
                | 0 => Z.pos m
                | Z.pos _ => Z.shiftl (Z.pos m) s
                | Z.neg _ => 0
                end = Zpos m * 2 ^ s).
  { destruct s as [|p|p] eqn:E; [lia| |lia]. rewrite Z.shiftl_mul_pow2 by lia. done. }
  rewrite Hm'.
  assert (HPs : 2 ^ 52 ≤ 2 ^ s ≤ 2 ^ 53) by (split; apply Z.pow_le_mono_r; lia).
  assert (HPdef : ∃ P, P = 2 ^ (- e')) by eauto. destruct HPdef as [P HP].
  assert (HP35 : 2 ^ 35 ≤ P) by (rewrite HP; apply Z.pow_le_mono_r; lia).
  assert (HPP : P * P = 2 ^ s * 2 ^ t).
  { rewrite HP, <- !Z.pow_add_r by lia. f_equal. lia. }
  assert (Hm'def : ∃ m', m' = Zpos m * 2 ^ s) by eauto.
  destruct Hm'def as [m' Hm'eq]. rewrite <- Hm'eq.
  assert (Hm'b : 2 ^ 104 ≤ m' < 2 ^ 106).
  { change (2 ^ 104) with (2 ^ 52 * 2 ^ 52). change (2 ^ 106) with (2 ^ 53 * 2 ^ 53).
    rewrite Hm'eq. nia. }
  assert (Hlo2 : (n * P) * (n * P) ≤ m').
  { rewrite Hm'eq. replace (n * P * (n * P)) with (n * n * (P * P)) by lia.
    rewrite HPP. nia. }
  assert (Hup2 : 100 * m' ≤ (100 * ((n + 1) * (n + 1)) - 1) * (P * P) + 100 * 2 ^ s).
  { rewrite Hm'eq, HPP. nia. }
  change (2 ^ 20) with 1048576 in Hn20.
  change (2 ^ 35) with 34359738368 in HP35.
  assert (Hup3 : m' < ((n + 1) * P - 1) * ((n + 1) * P - 1)).
  { assert (H53 : 2 ^ s ≤ 9007199254740992) by (change 9007199254740992 with (2 ^ 53); lia).
    assert (100 * m' < 100 * (((n + 1) * P - 1) * ((n + 1) * P - 1))); [|lia].
    assert (200 * (n + 1) * P + 100 * 2 ^ s < P * P + 100); [|nia].
    assert (200 * (n + 1) * P ≤ 209715200 * P) by nia.
    assert (34359738368 * P ≤ P * P) by nia.
    nia. }
  pose proof (Z.sqrtrem_spec m' ltac:(lia)) as Hspec.
  pose proof (Z.sqrtrem_sqrt m') as Hfst.
  destruct (Z.sqrtrem m') as [q r]. cbn [fst] in Hfst. subst q.
  destruct Hspec as [Hqr Hr].
  assert (Hq : 2 ^ 52 ≤ Z.sqrt m' < 2 ^ 53).
  { split.
    - change (2 ^ 52) with (Z.sqrt (2 ^ 104)). apply Z.sqrt_le_mono. lia.
    - apply Z.sqrt_lt_square; [lia|lia|]. change (2 ^ 53 * 2 ^ 53) with (2 ^ 106). lia. }
  assert (Hqlo : n * P ≤ Z.sqrt m').
  { apply Z.sqrt_le_square; [lia|nia|done]. }
  assert (Hqhi : Z.sqrt m' + 1 < (n + 1) * P).
  { assert (Z.sqrt m' < (n + 1) * P - 1); [|lia].
    apply Z.sqrt_lt_square; [lia|nia|done]. }
  match goal with |- context [binary_round_aux _ _ _ (Z.sqrt m') _ ?l] =>
    destruct (binary_round_aux_faithful (Z.sqrt m') e' l)
      as (mg & eg & -> & Hmg & Heg & Hval) end;
    [lia|rewrite (Zdigits2_unique (Z.sqrt m') 53) by lia; lia|lia
    |rewrite (Zdigits2_unique (Z.sqrt m') 53) by lia; lia|].
  rewrite (Zdigits2_unique (Z.sqrt m') 53) in * by lia.
  replace (53 - 53) with 0 in * by lia. rewrite Z.pow_0_r, Z.div_1_r in Hval.
  replace (e' + 0) with e' in * by lia.
  eexists. split; [done|].
  apply int_floor; [lia|].
  assert (HPsplit : P = 2 ^ (- eg) * 2 ^ (eg - e')).
  { rewrite HP, <- Z.pow_add_r by lia. f_equal. lia. }
  assert (0 < 2 ^ (- eg)) by (apply Z.pow_pos_nonneg; lia).
  rewrite HPsplit in Hqlo, Hqhi. clear - Hqlo Hqhi Hval Heg H.
  assert (eg - e' = 0 ∨ eg - e' = 1) as [Hj | Hj] by lia; rewrite Hj in *.
  - change (2 ^ 0) with 1 in *. lia.
  - change (2 ^ 1) with 2 in *. lia.
Qed.

Lemma level_exact xp :
  0 ≤ xp < 2 ^ 40 →
  calculate_level_from_xp xp = Ok (Z.sqrt (xp / Config.XP_PER_LEVEL_BASE) + 1).
Proof.
  intros Hxp. destruct (Z.eq_dec xp 0) as [->|Hne]; [vm_compute; reflexivity|].
  unfold calculate_level_from_xp. destruct (xp <? 0) eqn:E; [lia|].
  assert (Hndef : ∃ n, n = Z.sqrt (xp / Config.XP_PER_LEVEL_BASE)) by eauto.
  destruct Hndef as [n Hn]. rewrite <- Hn.
  pose proof (Z.sqrt_spec (xp / Config.XP_PER_LEVEL_BASE)
                ltac:(apply Z.div_pos; unfold Config.XP_PER_LEVEL_BASE; lia)) as Hsq.
  rewrite <- Hn in Hsq. unfold Config.XP_PER_LEVEL_BASE in Hsq.
  pose proof (Z.sqrt_nonneg (xp / Config.XP_PER_LEVEL_BASE)) as Hn0. rewrite <- Hn in Hn0.
  pose proof (Z.div_mod xp 100 ltac:(lia)) as Hdm.
  pose proof (Z.mod_pos_bound xp 100 ltac:(lia)) as Hmb.
  assert (Hlo : 100 * (n * n) ≤ xp) by lia.
  assert (Hhi : xp + 1 ≤ 100 * ((n + 1) * (n + 1))).
  { unfold Z.succ in Hsq. lia. }
  assert (Hn20 : n + 1 ≤ 2 ^ 20).
  { destruct (Z_le_gt_dec (n + 1) (2 ^ 20)) as [|Hgt]; [done|exfalso].
    change (2 ^ 20) with 1048576 in Hgt. change (2 ^ 40) with 1099511627776 in Hxp.
    assert (1048576 * 1048576 ≤ n * n) by nia. lia. }
  clear Hn Hsq Hdm Hmb.
  destruct (true_div_bracket xp ltac:(lia))
    as (m & e & w & Hdiv & Hm & Hw & Hj & Hlow & Hupp).
  specialize (Hlow n Hn0 Hlo).
  destruct (sqrt_int_bracket n m e w Hn0 Hn20 Hm Hw Hj Hlow) as (r & Hsqrt & Hint).
  { assert (0 < 2 ^ w) by (apply Z.pow_pos_nonneg; lia). nia. }
  rewrite Hdiv. unfold mbind, result_bind. rewrite Hsqrt, Hint. f_equal. lia.
Qed.

Lemma calculate_xp_for_level_sq level :
  1 ≤ level →
  calculate_xp_for_level level = (level - 1) * (level - 1) * Config.XP_PER_LEVEL_BASE.
Proof.
  intros Hl. unfold calculate_xp_for_level.
  destruct (level <=? 1) eqn:E; [replace level with 1 by lia; done|].
  by rewrite Z.pow_2_r.
Qed.

Lemma level_threshold xp level :
  0 ≤ xp → 1 ≤ level →
  Z.sqrt (xp / Config.XP_PER_LEVEL_BASE) + 1 = level ↔
  calculate_xp_for_level level ≤ xp < calculate_xp_for_level (level + 1).
Proof.
  intros Hxp Hl. rewrite !calculate_xp_for_level_sq by lia.
  unfold Config.XP_PER_LEVEL_BASE.
  replace (level + 1 - 1) with (level - 1 + 1) by lia.
  pose proof (Z.div_mod xp 100 ltac:(lia)) as Hdm.
  pose proof (Z.mod_pos_bound xp 100 ltac:(lia)) as Hmb.
  assert (Hq : 0 ≤ xp / 100) by (apply Z.div_pos; lia).
  split.
  - intros <-. pose proof (Z.sqrt_spec (xp / 100) Hq) as Hsq. unfold Z.succ in Hsq.
    replace (Z.sqrt (xp / 100) + 1 - 1) with (Z.sqrt (xp / 100)) by lia. lia.
  - intros [Hlo Hhi]. rewrite (Z.sqrt_unique (xp / 100) (level - 1)); [lia|].
    unfold Z.succ. split; [|nia].
    apply Z.div_le_lower_bound; lia.
Qed.

(** X23: for every xp from 0 up to [2^40] the level that
    [calculate_level_from_xp] computes with floats is the exact one, the
    integer square root of [xp // 100] plus 1; so the level is [L] exactly
    when the xp is at least what [calculate_xp_for_level] requires for [L]
    and less than what it requires for [L + 1]. *)
Theorem X23_level_formula_exact xp :
  0 ≤ xp < 2 ^ 40 →
  calculate_level_from_xp xp = Ok (Z.sqrt (xp / Config.XP_PER_LEVEL_BASE) + 1) ∧
  (∀ level, calculate_level_from_xp xp = Ok level ↔
     1 ≤ level ∧
     calculate_xp_for_level level ≤ xp < calculate_xp_for_level (level + 1)).
Proof.
  intros Hxp. rewrite level_exact by done. split; [done|].
  pose proof (Z.sqrt_nonneg (xp / Config.XP_PER_LEVEL_BASE)) as Hn.
  intros level. split.
  - intros [= <-]. split; [lia|]. by apply level_threshold; lia.
  - intros [Hl Hb]. f_equal. by apply level_threshold; lia.
Qed.

Lemma X23_level_formula_exact_witness :
  calculate_level_from_xp 123456 = Ok (Z.sqrt (123456 / Config.XP_PER_LEVEL_BASE) + 1) ∧
  (∀ level, calculate_level_from_xp 123456 = Ok level ↔
     1 ≤ level ∧
     calculate_xp_for_level level ≤ 123456 < calculate_xp_for_level (level + 1)).
Proof. apply (X23_level_formula_exact 123456). lia. Defined.

(** X24: the level never falls when the xp grows; and for an xp from 0 up
    to [2^39], what [get_xp_for_next_level] returns is positive, at most the
    width of the current level, and exactly the xp that is missing: with
    that much more the level is the next one, with any less it is still the
    current one. *)
Theorem X24_get_xp_for_next_level xp :
  0 ≤ xp < 2 ^ 39 →
  ∃ level needed,
    calculate_level_from_xp xp = Ok level ∧
    get_xp_for_next_level xp = Ok needed ∧
    0 < needed ≤ (2 * level - 1) * Config.XP_PER_LEVEL_BASE ∧
    calculate_level_from_xp (xp + needed) = Ok (level + 1) ∧
    (∀ k, 0 ≤ k < needed → calculate_level_from_xp (xp + k) = Ok level) ∧
    (∀ xp' level', xp ≤ xp' < 2 ^ 40 → calculate_level_from_xp xp' = Ok level' →
                   level ≤ level').
Proof.
  intros Hxp.
  assert (Hldef : ∃ level, level = Z.sqrt (xp / Config.XP_PER_LEVEL_BASE) + 1) by eauto.
  destruct Hldef as [level Hlevel].
  pose proof (Z.sqrt_nonneg (xp / Config.XP_PER_LEVEL_BASE)) as Hn.
  assert (Hl1 : 1 ≤ level) by lia.
  pose proof (proj1 (level_threshold xp level ltac:(lia) Hl1) (eq_sym Hlevel)) as [Hlo Hhi].
  pose proof (calculate_xp_for_level_step level Hl1) as Hstep.
  assert (Hl20 : level ≤ 2 ^ 20).
  { rewrite calculate_xp_for_level_sq in Hlo by done.
    unfold Config.XP_PER_LEVEL_BASE in Hlo.
    destruct (Z_le_gt_dec level (2 ^ 20)) as [|Hgt]; [done|exfalso].
    change (2 ^ 20) with 1048576 in Hgt. change (2 ^ 39) with 549755813888 in Hxp.
    assert (1048576 * 1048576 ≤ (level - 1) * (level - 1)) by nia. lia. }
  assert (Hnext : calculate_xp_for_level (level + 1) < 2 ^ 40).
  { unfold Config.XP_PER_LEVEL_BASE in Hstep.
    change (2 ^ 20) with 1048576 in Hl20. change (2 ^ 39) with 549755813888 in Hxp.
    change (2 ^ 40) with 1099511627776. lia. }
  assert (Hxp40 : xp < 2 ^ 40) by (change (2 ^ 39) with 549755813888 in Hxp;
                                   change (2 ^ 40) with 1099511627776; lia).
  exists level, (calculate_xp_for_level (level + 1) - xp).
  split; [rewrite level_exact by lia; by rewrite Hlevel|].
  split; [unfold get_xp_for_next_level; rewrite level_exact by lia;
          by rewrite <- Hlevel|].
  split; [lia|]. split; [|split].
  - replace (xp + (calculate_xp_for_level (level + 1) - xp))
      with (calculate_xp_for_level (level + 1)) by lia.
    pose proof (calculate_xp_for_level_step (level + 1) ltac:(lia)) as Hstep2.
    unfold Config.XP_PER_LEVEL_BASE in Hstep2.
    rewrite level_exact by lia. f_equal. apply level_threshold; lia.
  - intros k Hk. rewrite level_exact by lia. f_equal. apply level_threshold; lia.
  - intros xp' level' Hxp'. rewrite level_exact by lia. intros [= <-].
    rewrite Hlevel.
    assert (Z.sqrt (xp / Config.XP_PER_LEVEL_BASE) ≤ Z.sqrt (xp' / Config.XP_PER_LEVEL_BASE));
      [|lia].
    apply Z.sqrt_le_mono. apply Z.div_le_mono; [done|lia].
Qed.

Lemma X24_get_xp_for_next_level_witness :
  ∃ level needed,
    calculate_level_from_xp 950 = Ok level ∧
    get_xp_for_next_level 950 = Ok needed ∧
    0 < needed ≤ (2 * level - 1) * Config.XP_PER_LEVEL_BASE ∧
    calculate_level_from_xp (950 + needed) = Ok (level + 1) ∧
    (∀ k, 0 ≤ k < needed → calculate_level_from_xp (950 + k) = Ok level) ∧
    (∀ xp' level', 950 ≤ xp' < 2 ^ 40 → calculate_level_from_xp xp' = Ok level' →
                   level ≤ level').
Proof. apply (X24_get_xp_for_next_level 950). lia. Defined.

Lemma process_message_open db m old_level new_level :
  let u := author_id m in
  let g := calculate_xp_gain (content_length m) (random_bonus m) in
  (∀ last, last_xp_gain_of db u = Some last →
           Config.XP_COOLDOWN * 1000000 ≤ now_check m - last) →
  calculate_level_from_xp (xp_of db u) = Ok old_level →
  calculate_level_from_xp (xp_of db u + g) = Ok new_level →
  ∃ db', process_message db m =
    (db', Ok (if old_level <? new_level
              then LeveledUp (xp_of db u + g) new_level
                     (foldr Z.add 0 (calculate_level_reward <$>
                        seqZ (old_level + 1) (new_level - old_level)))
              else Gained (xp_of db u + g) new_level)) ∧
    xp_of db' u = xp_of db u + g ∧
    users db' =
      <[u := with_coins
               (with_level (with_xp_gain (row db u) (xp_of db u + g) (now_gain m)) new_level)
               (coins_of db u +
                if old_level <? new_level
                then foldr Z.add 0 (calculate_level_reward <$>
                       seqZ (old_level + 1) (new_level - old_level))
                else 0)]> (users db).
Proof.
  intros u g Hgate Hold Hnew. unfold process_message. fold u. fold g.
  rewrite (can_gain_xp_open db u (now_check m) Hgate). simpl.
  pose proof (calculate_xp_gain_pos (content_length m) (random_bonus m)) as Hg. fold g in Hg.
  destruct (g <=? 0) eqn:Eg; [lia|]. rewrite get_xp_spec, <- xp_of_row, Hold.
  destruct (add_xp_spec (ensure_user db u) u g (now_gain m)) as (db2 & Hax & H2).
  rewrite row_ensure_user, <- xp_of_row in Hax, H2. rewrite Hax, Hnew.
  rewrite users_ensure_user, insert_insert_eq in H2.
  assert (Hr2 : row db2 u = with_xp_gain (row db u) (xp_of db u + g) (now_gain m)).
  { unfold row at 1. by rewrite H2, lookup_insert_eq. }
  destruct (set_level_spec db2 u new_level) as (db3 & -> & H3).
  rewrite Hr2, H2, insert_insert_eq in H3.
  assert (Hr3 : row db3 u =
            with_level (with_xp_gain (row db u) (xp_of db u + g) (now_gain m)) new_level).
  { unfold row at 1. by rewrite H3, lookup_insert_eq. }
  destruct (old_level <? new_level) eqn:Elt.
  - destruct (handle_level_up_reward db3 u old_level new_level ltac:(lia))
      as (_ & db4 & -> & H4 & _).
    rewrite Hr3, H3, insert_insert_eq in H4.
    eexists. split; [done|]. split.
    + rewrite xp_of_row. unfold row at 1. by rewrite H4, lookup_insert_eq.
    + rewrite H4, coins_of_row. done.
  - eexists. split; [done|]. split.
    + by rewrite xp_of_row, Hr3.
    + rewrite H3, coins_of_row. f_equal.
      unfold with_coins, with_level, with_xp_gain. simpl. f_equal. lia.
Qed.

(** X25: a message whose author is past the cooldown (or has no gain yet)
    and whose xp stays below [2^40] is always granted: [process_message]
    raises nothing and returns the new xp and level.  The level does not
    fall, it rises by at most one when the gain is below 100 (as it is for
    every message with a random bonus in range), and on a level-up the
    reward is the sum of the rewards of the levels passed. *)
Theorem X25_process_message_grants db m :
  let u := author_id m in
  let g := calculate_xp_gain (content_length m) (random_bonus m) in
  (∀ last, last_xp_gain_of db u = Some last →
           Config.XP_COOLDOWN * 1000000 ≤ now_check m - last) →
  0 ≤ xp_of db u → xp_of db u + g < 2 ^ 40 →
  ∃ db' old_level new_level,
    calculate_level_from_xp (xp_of db u) = Ok old_level ∧
    calculate_level_from_xp (xp_of db u + g) = Ok new_level ∧
    1 ≤ old_level ≤ new_level ∧
    (g < 100 → new_level ≤ old_level + 1) ∧
    process_message db m =
      (db', Ok (if old_level <? new_level
                then LeveledUp (xp_of db u + g) new_level
                       (foldr Z.add 0 (calculate_level_reward <$>
                          seqZ (old_level + 1) (new_level - old_level)))
                else Gained (xp_of db u + g) new_level)) ∧
    xp_of db' u = xp_of db u + g.
Proof.
  intros u g Hgate Hxp Hmax.
  pose proof (calculate_xp_gain_pos (content_length m) (random_bonus m)) as Hg. fold g in Hg.
  pose proof (level_exact (xp_of db u) ltac:(lia)) as Hold.
  pose proof (level_exact (xp_of db u + g) ltac:(lia)) as Hnew.
  destruct (process_message_open db m _ _ Hgate Hold Hnew) as (db' & Hpm & Hxp' & _).
  fold u g in Hpm, Hxp'.
  eexists db', _, _. split; [exact Hold|]. split; [exact Hnew|].
  pose proof (Z.sqrt_nonneg (xp_of db u / Config.XP_PER_LEVEL_BASE)).
  assert (Hq : 0 ≤ xp_of db u / Config.XP_PER_LEVEL_BASE).
  { apply Z.div_pos; [done|]. unfold Config.XP_PER_LEVEL_BASE. lia. }
  split; [|split; [|done]].
  - split; [lia|].
    assert (Z.sqrt (xp_of db u / Config.XP_PER_LEVEL_BASE)
            ≤ Z.sqrt ((xp_of db u + g) / Config.XP_PER_LEVEL_BASE)); [|lia].
    apply Z.sqrt_le_mono. apply Z.div_le_mono; [unfold Config.XP_PER_LEVEL_BASE|]; lia.
  - intros Hg100.
    assert (Z.sqrt ((xp_of db u + g) / Config.XP_PER_LEVEL_BASE)
            ≤ Z.sqrt (xp_of db u / Config.XP_PER_LEVEL_BASE) + 1); [|lia].
    etransitivity; [|apply (Z.sqrt_succ_le _ Hq)].
    apply Z.sqrt_le_mono. unfold Config.XP_PER_LEVEL_BASE in *.
    replace (Z.succ (xp_of db u / 100)) with ((xp_of db u + 1 * 100) / 100)
      by (rewrite Z.div_add by lia; lia).
    apply Z.div_le_mono; lia.
Qed.

Lemma X25_process_message_grants_witness :
  let m := mkMessage 2 42 3 1000000 1000001 in
  ∃ db' old_level new_level,
    calculate_level_from_xp (xp_of db_3 2) = Ok old_level ∧
    calculate_level_from_xp (xp_of db_3 2 + 22) = Ok new_level ∧
    1 ≤ old_level ≤ new_level ∧
    (22 < 100 → new_level ≤ old_level + 1) ∧
    process_message db_3 m =
      (db', Ok (if old_level <? new_level
                then LeveledUp (xp_of db_3 2 + 22) new_level
                       (foldr Z.add 0 (calculate_level_reward <$>
                          seqZ (old_level + 1) (new_level - old_level)))
                else Gained (xp_of db_3 2 + 22) new_level)) ∧
    xp_of db' 2 = xp_of db_3 2 + 22.
Proof.
  apply (X25_process_message_grants db_3 (mkMessage 2 42 3 1000000 1000001)).
  - intros last Hlast. vm_compute in Hlast. discriminate.
  - vm_compute. discriminate.
  - vm_compute. reflexivity.
Defined.

(** ** The cooldown between two messages *)

(** A message that finds the cooldown over, and a level for the xp of its
    author, adds its gain to that xp, whatever the steps after [add_xp]
    return. *)
Lemma process_message_gate_open db m old_level :
  let u := author_id m in
  (∀ last, last_xp_gain_of db u = Some last →
           Config.XP_COOLDOWN * 1000000 ≤ now_check m - last) →
  calculate_level_from_xp (xp_of db u) = Ok old_level →
  xp_of (fst (process_message db m)) u =
    xp_of db u + calculate_xp_gain (content_length m) (random_bonus m).
Proof.
  intros u Hgate Hold. unfold process_message. fold u.
  rewrite (can_gain_xp_open db u (now_check m) Hgate). simpl.
  set (g := calculate_xp_gain (content_length m) (random_bonus m)).
  pose proof (calculate_xp_gain_pos (content_length m) (random_bonus m)) as Hg. fold g in Hg.
  destruct (g <=? 0) eqn:Eg; [lia|]. rewrite get_xp_spec, <- xp_of_row, Hold.
  destruct (add_xp_spec (ensure_user db u) u g (now_gain m)) as (db2 & Hax & H2).
  rewrite row_ensure_user, <- xp_of_row in Hax, H2. rewrite Hax.
  rewrite users_ensure_user, insert_insert_eq in H2.
  assert (Hr2 : row db2 u = with_xp_gain (row db u) (xp_of db u + g) (now_gain m)).
  { unfold row at 1. by rewrite H2, lookup_insert_eq. }
  destruct (calculate_level_from_xp (xp_of db u + g)) as [new_level|]; cbn [fst];
    [|by rewrite (xp_of_row db2), Hr2].
  destruct (set_level_spec db2 u new_level) as (db3 & -> & H3).
  rewrite Hr2, H2, insert_insert_eq in H3.
  assert (Hr3 : row db3 u =
            with_level (with_xp_gain (row db u) (xp_of db u + g) (now_gain m)) new_level).
  { unfold row at 1. by rewrite H3, lookup_insert_eq. }
  destruct (old_level <? new_level); cbn [fst]; [|by rewrite (xp_of_row db3), Hr3].
  destruct (handle_level_up_spec db3 u old_level new_level)
    as (db4 & r & -> & [H4|[c H4]]); cbn [fst]; rewrite (xp_of_row db4); unfold row at 1.
  - by rewrite H4, H3, lookup_insert_eq.
  - by rewrite H4, Hr3, lookup_insert_eq.
Qed.

Lemma level_defined xp :
  xp < 2 ^ 40 → ∃ level, calculate_level_from_xp xp = Ok level.
Proof.
  intros Hxp. destruct (Z.ltb_spec xp 0) as [Hneg|Hpos].
  - exists 1. unfold calculate_level_from_xp.
    by destruct (Z.ltb_spec xp 0) as [_|?]; [|lia].
  - eexists. by apply level_exact.
Qed.

(** C7 (as amended): [can_gain_xp] leaves the store as it is, and for a
    cooldown above [- 2^34] and up to [2^34] seconds (the configured one is
    60) it answers true exactly when the user has no [last_xp_gain] or the
    cooldown has elapsed since it.  Take two
    messages of one user whose clock readings are less than [XP_COOLDOWN]
    seconds apart, and any messages processed in between.  If the first is
    granted XP, the second is stopped at the cooldown check without any
    change of state.  If the first finds the cooldown over (or no earlier
    gain) and an xp below [2^40], exactly one of the two is granted XP: the
    first is, the second is stopped at the cooldown check. *)
Theorem C7_cooldown :
  (∀ db u cooldown_seconds now,
     fst (can_gain_xp db u cooldown_seconds now) = db ∧
     (- 2 ^ 34 < cooldown_seconds ≤ 2 ^ 34 →
      (snd (can_gain_xp db u cooldown_seconds now) = true ↔
         last_xp_gain_of db u = None ∨
         ∃ last, last_xp_gain_of db u = Some last ∧
                 cooldown_seconds * 1000000 ≤ now - last))) ∧
  (∀ db m1 between m2,
     author_id m1 = author_id m2 →
     now_check m1 ≤ now_gain m1 →
     Forall (fun m => now_check m1 ≤ now_gain m) between →
     now_check m2 - now_check m1 < Config.XP_COOLDOWN * 1000000 →
     let db1 := process_all (fst (process_message db m1)) between in
     (grants db m1 → process_message db1 m2 = (db1, Ok Cooldown) ∧ ¬ grants db1 m2) ∧
     ((∀ last, last_xp_gain_of db (author_id m1) = Some last →
               Config.XP_COOLDOWN * 1000000 ≤ now_check m1 - last) →
      xp_of db (author_id m1) < 2 ^ 40 →
      grants db m1 ∧ process_message db1 m2 = (db1, Ok Cooldown) ∧ ¬ grants db1 m2)).
Proof.
  split.
  - intros db u cd now. split.
    + unfold can_gain_xp. destruct (users db !! u) as [user|]; [|done].
      by destruct (last_xp_gain user).
    + intros Hcd. rewrite can_gain_xp_exact by done. simpl.
      destruct (last_xp_gain_of db u) as [last|]; [|by intuition].
      rewrite Z.leb_le. split.
      * intros H. right. eauto.
      * intros [?|(l & [= <-] & H)]; done.
  - intros db m1 between m2 Hauth Hclock Hbetween Hnear db1.
    assert (Hsecond : grants db m1 →
              process_message db1 m2 = (db1, Ok Cooldown) ∧ ¬ grants db1 m2).
    { intros Hgr.
      assert (Hrecent : ∃ l, last_xp_gain_of db1 (author_id m2) = Some l ∧ now_check m1 ≤ l).
      { apply process_all_keeps_recent; [|done].
        rewrite <- Hauth. rewrite grants_last_xp_gain by done. eauto. }
      destruct Hrecent as (l & Hl & Hle).
      assert (Hcd : process_message db1 m2 = (db1, Ok Cooldown))
        by (apply (process_message_cooldown db1 m2 l); [done|lia]).
      split; [done|]. unfold grants. rewrite Hcd. simpl. by intros []. }
    split; [done|]. intros Hgate Hxp.
    assert (Hgr : grants db m1).
    { destruct (level_defined _ Hxp) as (old_level & Hold).
      unfold grants. rewrite (process_message_gate_open db m1 old_level Hgate Hold).
      pose proof (calculate_xp_gain_pos (content_length m1) (random_bonus m1)). lia. }
    split; [done|]. by apply Hsecond.
Qed.

Lemma C7_cooldown_witness :
  let m1 := mkMessage 1 50 3 10000000 10000005 in
  let m2 := mkMessage 1 20 0 30000000 30000004 in
  let db1 := process_all (fst (process_message init m1)) [mkMessage 2 5 1 20000000 20000001] in
  (snd (can_gain_xp db1 1 60 30000000) = true ↔
     last_xp_gain_of db1 1 = None ∨
     ∃ last, last_xp_gain_of db1 1 = Some last ∧ 60 * 1000000 ≤ 30000000 - last) ∧
  last_xp_gain_of db1 1 = Some 10000005 ∧
  xp_of (fst (process_message init m1)) 1 = 23 ∧
  grants init m1 ∧ process_message db1 m2 = (db1, Ok Cooldown) ∧ ¬ grants db1 m2.
Proof.
  destruct C7_cooldown as [Hfirst Hsecond].
  split; [|split; [vm_compute; reflexivity|split; [vm_compute; reflexivity|]]].
  - apply Hfirst. change (2 ^ 34) with 17179869184. lia.
  - apply (Hsecond init (mkMessage 1 50 3 10000000 10000005)
             [mkMessage 2 5 1 20000000 20000001] (mkMessage 1 20 0 30000000 30000004)).
    + reflexivity.
    + simpl. lia.
    + repeat constructor; simpl; lia.
    + vm_compute. reflexivity.
    + intros last Hlast. vm_compute in Hlast. discriminate.
    + vm_compute. reflexivity.
Defined.

(** C7 (as stated) fails on both counts.  With a cooldown of [2^34 + 1]
    seconds and a last gain one microsecond less than that ago,
    [total_seconds()] rounds up to the cooldown and [can_gain_xp] answers
    true before the cooldown is over.  And a user whose last gain is 10
    seconds old sends two messages 10 seconds apart; both are stopped at the
    cooldown check, so neither is granted XP and it is not the case that
    exactly one is. *)
Lemma C7_as_stated_fails :
  ¬ (∀ db u cooldown_seconds now,
       snd (can_gain_xp db u cooldown_seconds now) = true ↔
         last_xp_gain_of db u = None ∨
         ∃ last, last_xp_gain_of db u = Some last ∧
                 cooldown_seconds * 1000000 ≤ now - last) ∧
  ¬ (∀ db m1 m2,
       author_id m1 = author_id m2 →
       now_check m1 ≤ now_gain m1 ≤ now_check m2 →
       now_check m2 - now_check m1 < Config.XP_COOLDOWN * 1000000 →
       let db1 := fst (process_message db m1) in
       (grants db m1 ∧ ¬ grants db1 m2) ∨ (¬ grants db m1 ∧ grants db1 m2)).
Proof.
  split.
  - intros H.
    destruct (H (mk {[ 1 := mkUser 1 0 20 1 1 (Some 0) ]} [] true) 1
                (2 ^ 34 + 1) ((2 ^ 34 + 1) * 1000000 - 1)) as [Hfloat _].
    destruct (Hfloat ltac:(vm_compute; reflexivity)) as [Hnone|(last & Hlast & Hle)].
    + vm_compute in Hnone. discriminate.
    + vm_compute in Hlast. injection Hlast as <-. lia.
  - intros H.
    destruct (H (mk {[ 1 := mkUser 1 0 20 1 1 (Some 0) ]} [] true)
                (mkMessage 1 50 3 10000000 10000005)
                (mkMessage 1 20 0 20000000 20000004)) as [[Hg _]|[_ Hg]];
      try (vm_compute; done); try (simpl; lia);
      apply Hg; vm_compute; reflexivity.
Qed.

(** ** The log as a ledger *)

Lemma balance_from_log_app log new u :
  balance_from_log (log ++ new) u = balance_from_log log u + balance_from_log new u.
Proof.
  unfold balance_from_log. induction log as [|x log IH]; csimpl; [lia|]. rewrite IH. lia.
Qed.

Lemma coins_of_insert (us : gmap Z User) ts s u user v :
  coins_of (mk (<[u := user]> us) ts s) v =
  if decide (v = u) then coins user else coins_of (mk us ts s) v.
Proof.
  unfold coins_of. simpl. destruct (decide (v = u)) as [->|Hv].
  - by rewrite lookup_insert_eq.
  - by rewrite lookup_insert_ne.
Qed.

Lemma coins_of_users db db' v : users db' = users db → coins_of db' v = coins_of db v.
Proof. unfold coins_of. by intros ->. Qed.

Lemma ledger_self_transfer db u a d :
  ∃ new, transactions (fst (transfer_coins db u u a d)) = transactions db ++ new ∧
         ∀ v, coins_of (fst (transfer_coins db u u a d)) v
              = coins_of db v + balance_from_log new v.
Proof.
  assert (Hsame : ∃ new, transactions db = transactions db ++ new ∧
                    ∀ v, coins_of db v = coins_of db v + balance_from_log new v).
  { exists []. rewrite app_nil_r. split; [done|]. intros v. unfold balance_from_log.
    simpl. lia. }
  unfold transfer_coins. destruct (users db !! u) as [fu|] eqn:Eu; [|done].
  destruct (coins fu <? a); [done|]. unfold transfer_update. rewrite Eu.
  rewrite lookup_insert_eq. unfold commit. simpl.
  eexists [_]. split; [done|]. intros v. unfold balance_from_log, credited, debited.
  simpl. unfold coins_of. simpl. destruct (decide (v = u)) as [->|Hv].
  - rewrite lookup_insert_eq, Eu. simpl. rewrite !decide_True by done. lia.
  - rewrite !lookup_insert_ne by done.
    rewrite !decide_False by (intros [= ?]; done). lia.
Qed.

(** What one operation does to the balances is what it appends to the log. *)
Lemma ledger_step db o :
  ∃ new, transactions (apply_op db o) = transactions db ++ new ∧
         ∀ v, coins_of (apply_op db o) v = coins_of db v + balance_from_log new v.
Proof.
  assert (Hnone : ∀ db', transactions db' = transactions db →
                         (∀ v, coins_of db' v = coins_of db v) →
    ∃ new, transactions db' = transactions db ++ new ∧
           ∀ v, coins_of db' v = coins_of db v + balance_from_log new v).
  { intros db' Ht Hc. exists []. rewrite app_nil_r. split; [done|].
    intros v. rewrite Hc. unfold balance_from_log. simpl. lia. }
  assert (Hcredit : ∀ db' u a ty d,
    transactions db' = transactions db ++ [mkTransaction None (Some u) a ty d] →
    coins_of db' u = coins_of db u + a →
    (∀ v, v ≠ u → coins_of db' v = coins_of db v) →
    ∃ new, transactions db' = transactions db ++ new ∧
           ∀ v, coins_of db' v = coins_of db v + balance_from_log new v).
  { intros db' u a ty d Ht Hu Hf. eexists. split; [done|].
    intros v. unfold balance_from_log, credited, debited. simpl.
    destruct (decide (v = u)) as [->|Hv].
    - rewrite decide_True by done. lia.
    - rewrite decide_False by (intros [= ?]; done). rewrite Hf by done. lia. }
  destruct o as [u|u|u|u|l sb f|u a ty d|u a ty d|f t a d|u a|u a now|u l]; simpl.
  - rewrite ensure_user_get_user_data.
    apply Hnone; [apply transactions_ensure_user|intros v; apply coins_of_ensure_user].
  - destruct (fst_getters db u) as (-> & _).
    apply Hnone; [apply transactions_ensure_user|intros v; apply coins_of_ensure_user].
  - destruct (fst_getters db u) as (_ & -> & _).
    apply Hnone; [apply transactions_ensure_user|intros v; apply coins_of_ensure_user].
  - destruct (fst_getters db u) as (_ & _ & ->).
    apply Hnone; [apply transactions_ensure_user|intros v; apply coins_of_ensure_user].
  - unfold get_leaderboard.
    destruct (users_get_leaderboard_loop (seqZ 0 3) db l sb f 0%nat) as [Hus Hts].
    apply Hnone; [done|]. intros v. by apply coins_of_users.
  - destruct (add_coins_full db u a ty d) as (db' & -> & Hc & Hf & Ht).
    by apply (Hcredit db' u a ty d).
  - rewrite remove_coins_never_succeeds. by apply Hnone.
  - destruct (decide (f = t)) as [->|Hft]; [apply ledger_self_transfer|].
    destruct (transfer_coins_cases db f t a d Hft)
      as [(db' & -> & _ & _ & Hcf & Hct & Hfr & _ & Ht)|(db' & -> & Hc & _ & Ht)];
      [|by apply Hnone].
    simpl. eexists. split; [done|]. intros v.
    unfold balance_from_log, credited, debited. simpl.
    destruct (decide (v = f)) as [->|Hvf]; [|destruct (decide (v = t)) as [->|Hvt]].
    + rewrite decide_False by (intros [= ?]; done). rewrite decide_True by done. lia.
    + rewrite decide_True by done. rewrite decide_False by (intros [= ?]; done). lia.
    + rewrite !decide_False by (intros [= ?]; done). rewrite Hfr by done. lia.
  - unfold set_coins. destruct (lookup_ensure_user db u) as (user & Hu & Huser).
    rewrite Hu. unfold commit. simpl.
    destruct (0 <? a - coins user) eqn:E; simpl.
    + match goal with |- ∃ new, _ ++ [?tx] = _ ∧ ∀ v, coins_of ?d v = _ =>
        apply (Hcredit d u (amount tx) (transaction_type tx) (description tx)) end.
      * simpl. by rewrite transactions_ensure_user.
      * unfold coins_of at 1. simpl. rewrite lookup_insert_eq. simpl.
        rewrite coins_of_row. fold (row db u) in Huser. rewrite <- Huser. lia.
      * intros v Hv. unfold coins_of at 1. simpl. rewrite lookup_insert_ne by done.
        apply (coins_of_ensure_user db u v).
    + apply Hnone; [apply transactions_ensure_user|intros v; apply coins_of_ensure_user].
  - pose proof (transactions_add_xp db u a now) as Ht.
    destruct (add_xp_spec db u a now) as (db' & Hax & Hus). rewrite Hax in *. simpl in *.
    apply Hnone; [done|]. intros v. unfold coins_of. rewrite Hus.
    destruct (decide (v = u)) as [->|Hv].
    + rewrite lookup_insert_eq. simpl. unfold row. by destruct (users db !! u).
    + by rewrite lookup_insert_ne.
  - pose proof (transactions_set_level db u l) as Ht.
    destruct (set_level_spec db u l) as (db' & Hsl & Hus). rewrite Hsl in *. simpl in *.
    apply Hnone; [done|]. intros v. unfold coins_of. rewrite Hus.
    destruct (decide (v = u)) as [->|Hv].
    + rewrite lookup_insert_eq. simpl. unfold row. by destruct (users db !! u).
    + by rewrite lookup_insert_ne.
Qed.

(** X26: the log is a complete ledger.  After any sequence of store
    operations on the initial store, every balance is what the log adds up
    to: the amounts of the transactions to the user less the amounts of the
    transactions from the user. *)
Theorem X26_balance_from_log ops u :
  coins_of (run init ops) u = balance_from_log (transactions (run init ops)) u.
Proof.
  unfold run. revert u.
  assert (Hgen : ∀ db, (∀ u, coins_of db u = balance_from_log (transactions db) u) →
    ∀ u, coins_of (fold_left apply_op ops db) u
         = balance_from_log (transactions (fold_left apply_op ops db)) u).
  { induction ops as [|o ops IH]; intros db Hdb; [done|]. simpl. apply IH.
    intros u. destruct (ledger_step db o) as (new & -> & Hc).
    rewrite Hc, balance_from_log_app, Hdb. done. }
  apply Hgen. intros u. done.
Qed.

(** ** A store that only messages write *)

Lemma level_rewards_step old_level new_level :
  1 ≤ old_level ≤ new_level →
  level_rewards new_level =
  level_rewards old_level +
  foldr Z.add 0 (calculate_level_reward <$> seqZ (old_level + 1) (new_level - old_level)).
Proof.
  intros Hl. unfold level_rewards.
  replace (new_level - 1) with ((old_level - 1) + (new_level - old_level)) by lia.
  rewrite seqZ_app by lia. replace (2 + (old_level - 1)) with (old_level + 1) by lia.
  rewrite fmap_app. generalize (calculate_level_reward <$> seqZ 2 (old_level - 1)).
  intros l. induction l as [|x l IH]; csimpl; [done|]. rewrite IH. lia.
Qed.

Lemma chat_consistent_row n db u :
  0 ≤ n → chat_consistent n db →
  level (row db u) = Z.sqrt (xp (row db u) / Config.XP_PER_LEVEL_BASE) + 1 ∧
  coins (row db u) = level_rewards (level (row db u)) ∧
  0 ≤ total_messages (row db u) ≤ n ∧
  15 * total_messages (row db u) ≤ xp (row db u) ≤ 30 * total_messages (row db u).
Proof.
  intros Hn Hdb. unfold row. destruct (users db !! u) as [user|] eqn:E; simpl.
  - by apply (Hdb u).
  - split; [done|]. split; [done|]. lia.
Qed.

Lemma chat_consistent_open n db m :
  0 ≤ n → (n + 1) * 30 < 2 ^ 40 → message_ok m → chat_consistent n db →
  (∀ last, last_xp_gain_of db (author_id m) = Some last →
           Config.XP_COOLDOWN * 1000000 ≤ now_check m - last) →
  chat_consistent (n + 1) (fst (process_message db m)).
Proof.
  intros Hn Hmax [Hlen Hrnd] Hdb Hgate.
  set (u := author_id m) in *.
  set (g := calculate_xp_gain (content_length m) (random_bonus m)).
  assert (Hg : 15 ≤ g ≤ 30).
  { unfold g, calculate_xp_gain, Config.RANDOM_XP_BONUS, Config.BASE_XP_PER_MESSAGE,
      Config.MAX_LENGTH_BONUS in *.
    pose proof (Z.div_pos (content_length m) 10 Hlen ltac:(lia)). lia. }
  destruct (chat_consistent_row n db u Hn Hdb) as (Hlvl & Hcoins & Htm & Hxp).
  rewrite <- xp_of_row in Hlvl, Hxp.
  change (2 ^ 40) with 1099511627776 in Hmax.
  assert (Hx40 : 0 ≤ xp_of db u ∧ xp_of db u + g < 2 ^ 40)
    by (change (2 ^ 40) with 1099511627776; lia).
  pose proof (level_exact (xp_of db u) ltac:(lia)) as Hold.
  pose proof (level_exact (xp_of db u + g) ltac:(lia)) as Hnew.
  destruct (process_message_open db m _ _ Hgate Hold Hnew) as (db' & Hpm & _ & Hus).
  fold u g in Hpm, Hus. rewrite Hpm. cbn [fst].
  rewrite <- Hlvl in Hus.
  assert (Hq : 0 ≤ xp_of db u / Config.XP_PER_LEVEL_BASE).
  { apply Z.div_pos; [lia|]. unfold Config.XP_PER_LEVEL_BASE. lia. }
  pose proof (Z.sqrt_nonneg (xp_of db u / Config.XP_PER_LEVEL_BASE)) as Hs0.
  assert (Hmono : level (row db u)
                  ≤ Z.sqrt ((xp_of db u + g) / Config.XP_PER_LEVEL_BASE) + 1).
  { rewrite Hlvl.
    assert (Z.sqrt (xp_of db u / Config.XP_PER_LEVEL_BASE)
            ≤ Z.sqrt ((xp_of db u + g) / Config.XP_PER_LEVEL_BASE)); [|lia].
    apply Z.sqrt_le_mono. apply Z.div_le_mono; [unfold Config.XP_PER_LEVEL_BASE|]; lia. }
  set (new_level := Z.sqrt ((xp_of db u + g) / Config.XP_PER_LEVEL_BASE) + 1) in *.
  intros v user. rewrite Hus. destruct (decide (v = u)) as [->|Hv].
  - rewrite lookup_insert_eq. intros [= <-]. simpl.
    split; [done|]. split; [|lia].
    rewrite coins_of_row, Hcoins.
    rewrite (level_rewards_step (level (row db u)) new_level) by lia.
    destruct (level (row db u) <? new_level) eqn:Elt; [done|].
    replace (new_level - level (row db u)) with 0 by lia. done.
  - rewrite lookup_insert_ne by done. intros Hlook.
    destruct (Hdb v user Hlook) as (? & ? & ? & ?). repeat split; lia.
Qed.

Lemma chat_consistent_step n db m :
  0 ≤ n → (n + 1) * 30 < 2 ^ 40 → message_ok m → chat_consistent n db →
  chat_consistent (n + 1) (fst (process_message db m)).
Proof.
  intros Hn Hmax Hok Hdb.
  destruct (last_xp_gain_of db (author_id m)) as [last|] eqn:Elast.
  - destruct (Z_lt_le_dec (now_check m - last) (Config.XP_COOLDOWN * 1000000)) as [Hc|Ho].
    + rewrite (process_message_cooldown db m last Elast Hc). simpl.
      intros v user Hv. destruct (Hdb v user Hv) as (? & ? & ? & ?). repeat split; lia.
    + apply chat_consistent_open; try done.
      intros l. rewrite Elast. by intros [= <-].
  - apply chat_consistent_open; try done. intros l. by rewrite Elast.
Qed.

(** X27: in a store that only messages have written, coins, level and xp
    agree.  After any run of [process_message] on the initial store, over
    fewer than [2^35] messages with a content and a random bonus in range,
    every account has the level that [calculate_level_from_xp] computes from
    its xp, a balance that is the sum of the rewards of the levels 2 to its
    level, between 15 and 30 xp per counted message, and no more counted
    messages than were processed. *)
Theorem X27_chat_economy messages u user :
  Forall message_ok messages →
  Z.of_nat (length messages) < 2 ^ 35 →
  users (process_all init messages) !! u = Some user →
  calculate_level_from_xp (xp user) = Ok (level user) ∧
  coins user = level_rewards (level user) ∧
  0 ≤ total_messages user ≤ Z.of_nat (length messages) ∧
  15 * total_messages user ≤ xp user ≤ 30 * total_messages user.
Proof.
  intros Hok Hlen Hlook.
  assert (Hgen : ∀ n db, 0 ≤ n → (n + Z.of_nat (length messages)) * 30 < 2 ^ 40 →
    chat_consistent n db →
    chat_consistent (n + Z.of_nat (length messages)) (process_all db messages)).
  { clear Hlen Hlook. induction Hok as [|m messages Hm Hok IH]; intros n db Hn Hmax Hdb.
    - simpl. by rewrite Z.add_0_r.
    - cbn [length] in *. rewrite Nat2Z.inj_succ in *.
      replace (n + Z.succ (Z.of_nat (length messages)))
        with (n + 1 + Z.of_nat (length messages)) in * by lia.
      unfold process_all. cbn [fold_left]. apply IH; [lia|done|].
      apply chat_consistent_step; try done.
      change (2 ^ 40) with 1099511627776 in *. lia. }
  assert (Hinit : chat_consistent 0 init) by (intros v r Hv; done).
  change (2 ^ 35) with 34359738368 in Hlen.
  pose proof (Hgen 0 init ltac:(lia)
                ltac:(change (2 ^ 40) with 1099511627776; lia) Hinit u user Hlook)
    as (Hlvl & Hcoins & Htm & Hxp).
  rewrite Z.add_0_l in Htm.
  split; [|done]. rewrite level_exact, Hlvl; [done|].
  change (2 ^ 40) with 1099511627776. lia.
Qed.

Lemma X27_chat_economy_witness :
  calculate_level_from_xp (xp (mkUser 1 50 120 2 4 (Some 183000001)))
    = Ok (level (mkUser 1 50 120 2 4 (Some 183000001))) ∧
  coins (mkUser 1 50 120 2 4 (Some 183000001))
    = level_rewards (level (mkUser 1 50 120 2 4 (Some 183000001))) ∧
  0 ≤ total_messages (mkUser 1 50 120 2 4 (Some 183000001)) ≤ Z.of_nat 4 ∧
  15 * total_messages (mkUser 1 50 120 2 4 (Some 183000001))
    ≤ xp (mkUser 1 50 120 2 4 (Some 183000001))
    ≤ 30 * total_messages (mkUser 1 50 120 2 4 (Some 183000001)).
Proof.
  apply (X27_chat_economy
           [mkMessage 1 120 5 0 1; mkMessage 1 120 5 61000000 61000001;
            mkMessage 1 120 5 122000000 122000001; mkMessage 1 120 5 183000000 183000001]
           1 (mkUser 1 50 120 2 4 (Some 183000001))).
  - repeat constructor; unfold Config.RANDOM_XP_BONUS; simpl; lia.
  - vm_compute. reflexivity.
  - vm_compute. reflexivity.
Defined.
